(** * Sectograph for Zepp OS: the event service and the dial geometry

    A shallow embedding of
      - [src/app/TimeManager/utils/services/SettingsService.js]
        (the classes [SettingsService] and [EventService]),
      - [src/app/SectographApp/utils/calculate.js], and
      - the drawing of the events in
        [src/app/SectographApp/page/index.js],
    together with the part of ECMAScript the files rely on: the
    [Date] object, the [+] operator, the relational and equality
    operators, and the conversions between strings and numbers. *)

From Stdlib Require Import ZArith QArith Qround Lia Lqa Lra Bool List.
From Stdlib Require Import Ascii String DecimalString.
From Stdlib Require Import Reals Qreals.
From Stdlib Require Import Permutation Sorted.
Import ListNotations.

Set Implicit Arguments.

(* ================================================================== *)
(** * ECMAScript numbers that occur in the service *)
(* ================================================================== *)

(** Time values, millisecond deltas and calendar fields are integral
    and far below 2^53, so that double arithmetic on them is exact; a
    number is therefore an integer or [NaN]. *)
Inductive JsNum : Type :=
| NaN
| Num (z : Z).

Module JsNumOps.
Local Open Scope Z_scope.

Definition add (a b : JsNum) : JsNum :=
  match a, b with Num x, Num y => Num (x + y) | _, _ => NaN end.

Definition sub (a b : JsNum) : JsNum :=
  match a, b with Num x, Num y => Num (x - y) | _, _ => NaN end.

(** Comparisons with [NaN] are false, whichever the operator. *)
Definition lt (a b : JsNum) : bool :=
  match a, b with Num x, Num y => x <? y | _, _ => false end.

Definition le (a b : JsNum) : bool :=
  match a, b with Num x, Num y => x <=? y | _, _ => false end.

Definition gt (a b : JsNum) : bool := lt b a.
Definition ge (a b : JsNum) : bool := le b a.

Definition eq (a b : JsNum) : bool :=
  match a, b with Num x, Num y => x =? y | _, _ => false end.

Definition min (a b : JsNum) : JsNum :=
  match a, b with Num x, Num y => Num (Z.min x y) | _, _ => NaN end.
End JsNumOps.

(* ================================================================== *)
(** * Day and time arithmetic of the [Date] object (ECMA-262, 21.4.1) *)
(* ================================================================== *)

Module Calendar.
Local Open Scope Z_scope.

Definition msPerSecond : Z := 1000.
Definition msPerMinute : Z := 60000.
Definition msPerHour : Z := 3600000.
Definition msPerDay : Z := 86400000.

Definition Day (t : Z) : Z := t / msPerDay.
Definition TimeWithinDay (t : Z) : Z := t mod msPerDay.

Definition isLeap (y : Z) : bool :=
  (y mod 4 =? 0) && (negb (y mod 100 =? 0) || (y mod 400 =? 0)).

Definition DaysInYear (y : Z) : Z := if isLeap y then 366 else 365.

Definition DayFromYear (y : Z) : Z :=
  365 * (y - 1970) + (y - 1969) / 4 - (y - 1901) / 100 + (y - 1601) / 400.

(** The largest year whose first day is not after day [n].  The
    quotient by the mean year length is off by one year at most, which
    the two tests repair. *)
Definition YearFromDay (n : Z) : Z :=
  let y := 1970 + (400 * n) / 146097 in
  if n <? DayFromYear y then y - 1
  else if DayFromYear (y + 1) <=? n then y + 1
  else y.

Definition YearFromTime (t : Z) : Z := YearFromDay (Day t).
Definition InLeapYear (t : Z) : bool := isLeap (YearFromTime t).
Definition DayWithinYear (t : Z) : Z := Day t - DayFromYear (YearFromTime t).

(** Number of days of the year before month [m] (0 = January). *)
Definition monthStart (leap : bool) (m : Z) : Z :=
  let l := if leap then 1 else 0 in
  if m <=? 0 then 0
  else if m =? 1 then 31
  else if m =? 2 then 59 + l
  else if m =? 3 then 90 + l
  else if m =? 4 then 120 + l
  else if m =? 5 then 151 + l
  else if m =? 6 then 181 + l
  else if m =? 7 then 212 + l
  else if m =? 8 then 243 + l
  else if m =? 9 then 273 + l
  else if m =? 10 then 304 + l
  else if m =? 11 then 334 + l
  else 365 + l.

Definition monthOfDay (leap : bool) (d : Z) : Z :=
  if d <? monthStart leap 1 then 0
  else if d <? monthStart leap 2 then 1
  else if d <? monthStart leap 3 then 2
  else if d <? monthStart leap 4 then 3
  else if d <? monthStart leap 5 then 4
  else if d <? monthStart leap 6 then 5
  else if d <? monthStart leap 7 then 6
  else if d <? monthStart leap 8 then 7
  else if d <? monthStart leap 9 then 8
  else if d <? monthStart leap 10 then 9
  else if d <? monthStart leap 11 then 10
  else 11.

Definition MonthFromTime (t : Z) : Z :=
  monthOfDay (InLeapYear t) (DayWithinYear t).

Definition DateFromTime (t : Z) : Z :=
  DayWithinYear t - monthStart (InLeapYear t) (MonthFromTime t) + 1.

Definition DaysInMonth (y m : Z) : Z :=
  monthStart (isLeap y) (m + 1) - monthStart (isLeap y) m.

Definition WeekDay (t : Z) : Z := (Day t + 4) mod 7.

Definition HourFromTime (t : Z) : Z := (t / msPerHour) mod 24.
Definition MinFromTime (t : Z) : Z := (t / msPerMinute) mod 60.
Definition SecFromTime (t : Z) : Z := (t / msPerSecond) mod 60.
Definition msFromTime (t : Z) : Z := t mod msPerSecond.

Definition MakeTime (h m s ms : Z) : Z :=
  h * msPerHour + m * msPerMinute + s * msPerSecond + ms.

(** Months beyond 0..11 carry into the year; the day of the month may
    be any integer and carries into the neighbouring months. *)
Definition MakeDay (y m dt : Z) : Z :=
  let ym := y + m / 12 in
  let mn := m mod 12 in
  DayFromYear ym + monthStart (isLeap ym) mn + dt - 1.

Definition MakeDate (day time : Z) : Z := day * msPerDay + time.

Definition maxTime : Z := 8640000000000000.

Definition TimeClip (t : Z) : JsNum :=
  if Z.abs t <=? maxTime then Num t else NaN.

(** [new Date(y, m, d)] and [Date.UTC] read a year from 0 to 99 as
    1900 + y. *)
Definition MakeFullYear (y : Z) : Z :=
  if (0 <=? y) && (y <=? 99) then 1900 + y else y.
End Calendar.

(* ================================================================== *)
(** * The host: time zone and date parser *)
(* ================================================================== *)

(** What the device contributes to [Date]: the offset of local time from
    UTC, in milliseconds, taken as fixed (no daylight-saving changes),
    and [Date.parse], which ECMA-262 leaves to the implementation for
    every string outside the interchange format. *)
Class Runtime : Type := {
  LocalTZA : Z;
  LocalTZA_range : (- Calendar.msPerDay < LocalTZA < Calendar.msPerDay)%Z;
  Date_parse : string -> JsNum
}.

(* ================================================================== *)
(** * Values *)
(* ================================================================== *)

(** The values a field of an event can hold.  A [Date] object is
    represented by its time value. *)
Inductive JsVal : Type :=
| VUndef
| VNull
| VBool (b : bool)
| VNum (n : JsNum)
| VStr (s : string)
| VDate (tv : JsNum).

Inductive JsError : Type :=
| Error (msg : string)
| TypeError (msg : string)
| ReferenceError (name : string).

Inductive Result (A : Type) : Type :=
| Ok (a : A)
| Throw (e : JsError).

Arguments Ok {A} a.
Arguments Throw {A} e.

(* ================================================================== *)
(** * Strings and numbers *)
(* ================================================================== *)

Module Text.
Local Open Scope string_scope.

Definition Z_to_string (z : Z) : string :=
  NilZero.string_of_int (Z.to_int z).

(** [Number::toString] on the integers of the model. *)
Definition NumberToString (n : JsNum) : string :=
  match n with
  | NaN => "NaN"
  | Num z => Z_to_string z
  end.

Definition pad2 (z : Z) : string :=
  if (z <? 10)%Z then "0" ++ Z_to_string z else Z_to_string z.

Definition pad4 (z : Z) : string :=
  if (z <? 10)%Z then "000" ++ Z_to_string z
  else if (z <? 100)%Z then "00" ++ Z_to_string z
  else if (z <? 1000)%Z then "0" ++ Z_to_string z
  else Z_to_string z.

(** A [string] holds the text of a JavaScript string as the bytes of
    its UTF-8 form, which is how the literals of this file are read.
    The white space and the line terminators of ECMAScript, the
    characters that [String.prototype.trim] strips and [StringToNumber]
    skips, are
    - U+0009 to U+000D and U+0020, one byte each: [is_ws];
    - U+00A0, the bytes C2 A0: [is_ws2];
    - U+1680 (E1 9A 80), U+2000 to U+200A (E2 80 80 to E2 80 8A),
      U+2028, U+2029 and U+202F (E2 80 A8, A9 and AF), U+205F
      (E2 81 9F), U+3000 (E3 80 80) and U+FEFF (EF BB BF): [is_ws3]. *)
Definition is_ws (c : ascii) : bool :=
  let n := nat_of_ascii c in
  (n =? 32)%nat || ((9 <=? n)%nat && (n <=? 13)%nat).

(** The bytes that open a white space of more than one byte. *)
Definition ws_lead (c : ascii) : bool :=
  let n := nat_of_ascii c in
  (n =? 194)%nat || (n =? 225)%nat || (n =? 226)%nat || (n =? 227)%nat
  || (n =? 239)%nat.

Definition is_ws2 (c c1 : ascii) : bool :=
  ws_lead c
  && (nat_of_ascii c =? 194)%nat && (nat_of_ascii c1 =? 160)%nat.

Definition is_ws3 (c c1 c2 : ascii) : bool :=
  let n := nat_of_ascii c in
  let n1 := nat_of_ascii c1 in
  let n2 := nat_of_ascii c2 in
  ws_lead c
  && ((n =? 225)%nat && (n1 =? 154)%nat && (n2 =? 128)%nat
      || (n =? 226)%nat && (n1 =? 128)%nat
         && ((128 <=? n2)%nat && (n2 <=? 138)%nat
             || (n2 =? 168)%nat || (n2 =? 169)%nat || (n2 =? 175)%nat)
      || (n =? 226)%nat && (n1 =? 129)%nat && (n2 =? 159)%nat
      || (n =? 227)%nat && (n1 =? 128)%nat && (n2 =? 128)%nat
      || (n =? 239)%nat && (n1 =? 187)%nat && (n2 =? 191)%nat).

Definition digit_val (c : ascii) : option Z :=
  let n := nat_of_ascii c in
  if ((48 <=? n)%nat && (n <=? 57)%nat)%bool
  then Some (Z.of_nat (n - 48)) else None.

(** What is left of [s] once the white space at its head is gone. *)
Fixpoint skip_ws (s : string) : string :=
  match s with
  | EmptyString => EmptyString
  | String c r =>
      if is_ws c then skip_ws r
      else
        match r with
        | EmptyString => s
        | String c1 r1 =>
            if is_ws2 c c1 then skip_ws r1
            else
              match r1 with
              | EmptyString => s
              | String c2 r2 => if is_ws3 c c1 c2 then skip_ws r2 else s
              end
        end
  end.

(** [s.trim() === '']: [s] is white space from end to end. *)
Fixpoint all_ws (s : string) : bool :=
  match s with
  | EmptyString => true
  | String c r =>
      if is_ws c then all_ws r
      else
        match r with
        | EmptyString => false
        | String c1 r1 =>
            if is_ws2 c c1 then all_ws r1
            else
              match r1 with
              | EmptyString => false
              | String c2 r2 => is_ws3 c c1 c2 && all_ws r2
              end
        end
  end.

(** Decimal digits, then white space only. *)
Fixpoint read_digits (s : string) (acc : Z) : option Z :=
  match s with
  | EmptyString => Some acc
  | String c r =>
      match digit_val c with
      | Some d => read_digits r (10 * acc + d)%Z
      | None => if all_ws s then Some acc else None
      end
  end.

Definition read_unsigned (sign : Z) (s : string) : JsNum :=
  match s with
  | EmptyString => NaN
  | String c _ =>
      match digit_val c with
      | None => NaN
      | Some _ =>
          match read_digits s 0 with
          | Some v => Num (sign * v)
          | None => NaN
          end
      end
  end.

(** [StringToNumber], for the literals the model has numbers for: an
    optionally signed run of decimal digits between white space, the
    empty string being 0.  Every string that is no numeric literal
    converts to [NaN]; so do, here, the literals with a fraction, an
    exponent or a radix prefix and [Infinity], none of which the
    service ever forms. *)
Definition StringToNumber (s : string) : JsNum :=
  match skip_ws s with
  | EmptyString => Num 0
  | String c r =>
      if Ascii.eqb c "+" then read_unsigned 1 r
      else if Ascii.eqb c "-" then read_unsigned (-1) r
      else read_unsigned 1 (String c r)
  end.
End Text.

(* ================================================================== *)
(** * The [Date] object *)
(* ================================================================== *)

Module JsDate.
Import Calendar.
Local Open Scope Z_scope.

Section WithRuntime.
Context {rt : Runtime}.

Definition LocalTime (t : Z) : Z := t + LocalTZA.
Definition UTC (t : Z) : Z := t - LocalTZA.

(** A getter is [NaN] on an invalid date. *)
Definition getter (f : Z -> Z) (tv : JsNum) : JsNum :=
  match tv with
  | NaN => NaN
  | Num t => Num (f (LocalTime t))
  end.

Definition getFullYear : JsNum -> JsNum := getter YearFromTime.
Definition getMonth : JsNum -> JsNum := getter MonthFromTime.
Definition getDate : JsNum -> JsNum := getter DateFromTime.
Definition getDay : JsNum -> JsNum := getter WeekDay.
Definition getHours : JsNum -> JsNum := getter HourFromTime.
Definition getMinutes : JsNum -> JsNum := getter MinFromTime.
Definition getTime (tv : JsNum) : JsNum := tv.

(** [new Date(year, month, date)]: local midnight of that day. *)
Definition Date_ymd (year month date : JsNum) : JsNum :=
  match year, month, date with
  | Num y, Num m, Num d =>
      TimeClip (UTC (MakeDate (MakeDay (MakeFullYear y) m d) (MakeTime 0 0 0 0)))
  | _, _, _ => NaN
  end.

Definition setDate (tv : JsNum) (dt : JsNum) : JsNum :=
  match tv, dt with
  | Num t0, Num d =>
      let t := LocalTime t0 in
      TimeClip (UTC (MakeDate (MakeDay (YearFromTime t) (MonthFromTime t) d)
                              (TimeWithinDay t)))
  | _, _ => NaN
  end.

Definition setHours (tv : JsNum) (h : Z) : JsNum :=
  match tv with
  | Num t0 =>
      let t := LocalTime t0 in
      TimeClip (UTC (MakeDate (Day t)
                      (MakeTime h (MinFromTime t) (SecFromTime t) (msFromTime t))))
  | NaN => NaN
  end.

Definition setMinutes (tv : JsNum) (m : Z) : JsNum :=
  match tv with
  | Num t0 =>
      let t := LocalTime t0 in
      TimeClip (UTC (MakeDate (Day t)
                      (MakeTime (HourFromTime t) m (SecFromTime t) (msFromTime t))))
  | NaN => NaN
  end.

Definition setSeconds (tv : JsNum) (s : Z) : JsNum :=
  match tv with
  | Num t0 =>
      let t := LocalTime t0 in
      TimeClip (UTC (MakeDate (Day t)
                      (MakeTime (HourFromTime t) (MinFromTime t) s (msFromTime t))))
  | NaN => NaN
  end.

Definition setMilliseconds (tv : JsNum) (ms : Z) : JsNum :=
  match tv with
  | Num t0 =>
      let t := LocalTime t0 in
      TimeClip (UTC (MakeDate (Day t)
                      (MakeTime (HourFromTime t) (MinFromTime t) (SecFromTime t) ms)))
  | NaN => NaN
  end.

Local Open Scope string_scope.

Definition weekDayName (wd : Z) : string :=
  if (wd =? 0)%Z then "Sun"
  else if (wd =? 1)%Z then "Mon"
  else if (wd =? 2)%Z then "Tue"
  else if (wd =? 3)%Z then "Wed"
  else if (wd =? 4)%Z then "Thu"
  else if (wd =? 5)%Z then "Fri"
  else "Sat".

Definition monthName (m : Z) : string :=
  if (m =? 0)%Z then "Jan"
  else if (m =? 1)%Z then "Feb"
  else if (m =? 2)%Z then "Mar"
  else if (m =? 3)%Z then "Apr"
  else if (m =? 4)%Z then "May"
  else if (m =? 5)%Z then "Jun"
  else if (m =? 6)%Z then "Jul"
  else if (m =? 7)%Z then "Aug"
  else if (m =? 8)%Z then "Sep"
  else if (m =? 9)%Z then "Oct"
  else if (m =? 10)%Z then "Nov"
  else "Dec".

Definition DateString (t : Z) : string :=
  let y := YearFromTime t in
  weekDayName (WeekDay t) ++ " " ++ monthName (MonthFromTime t) ++ " "
    ++ Text.pad2 (DateFromTime t) ++ " "
    ++ (if (y <? 0)%Z then "-" else "") ++ Text.pad4 (Z.abs y).

Definition TimeString (t : Z) : string :=
  Text.pad2 (HourFromTime t) ++ ":" ++ Text.pad2 (MinFromTime t) ++ ":"
    ++ Text.pad2 (SecFromTime t) ++ " GMT".

Definition TimeZoneString : string :=
  let a := Z.abs LocalTZA in
  (if (0 <=? LocalTZA)%Z then "+" else "-")
    ++ Text.pad2 (HourFromTime a) ++ Text.pad2 (MinFromTime a).

(** [Date.prototype.toString]; the optional zone name in parentheses
    is left out. *)
Definition Date_toString (tv : JsNum) : string :=
  match tv with
  | NaN => "Invalid Date"
  | Num t0 =>
      let t := LocalTime t0 in
      DateString t ++ " " ++ TimeString t ++ TimeZoneString
  end.
End WithRuntime.
End JsDate.

(* ================================================================== *)
(** * Operators *)
(* ================================================================== *)

Module JsOps.
Local Open Scope string_scope.

Section WithRuntime.
Context {rt : Runtime}.

Definition ToString (v : JsVal) : string :=
  match v with
  | VUndef => "undefined"
  | VNull => "null"
  | VBool true => "true"
  | VBool false => "false"
  | VNum n => Text.NumberToString n
  | VStr s => s
  | VDate tv => JsDate.Date_toString tv
  end.

(** [ToNumber]; a [Date] converts through [valueOf]. *)
Definition ToNumber (v : JsVal) : JsNum :=
  match v with
  | VUndef => NaN
  | VNull => Num 0
  | VBool true => Num 1
  | VBool false => Num 0
  | VNum n => n
  | VStr s => Text.StringToNumber s
  | VDate tv => tv
  end.

Definition ToBoolean (v : JsVal) : bool :=
  match v with
  | VUndef | VNull => false
  | VBool b => b
  | VNum NaN => false
  | VNum (Num z) => negb (z =? 0)%Z
  | VStr s => negb (String.eqb s "")
  | VDate _ => true
  end.

(** [ToPrimitive] without a hint, as [+] and [==] call it: a [Date]
    prefers its string. *)
Definition ToPrimitive_default (v : JsVal) : JsVal :=
  match v with
  | VDate tv => VStr (JsDate.Date_toString tv)
  | _ => v
  end.

(** [ToPrimitive] with hint number, as the relational operators call
    it: a [Date] gives its time value. *)
Definition ToPrimitive_number (v : JsVal) : JsVal :=
  match v with
  | VDate tv => VNum tv
  | _ => v
  end.

(** The [+] operator: concatenation as soon as one primitive is a
    string. *)
Definition js_add (a b : JsVal) : JsVal :=
  let pa := ToPrimitive_default a in
  let pb := ToPrimitive_default b in
  match pa, pb with
  | VStr s, _ => VStr (s ++ ToString pb)
  | _, VStr s => VStr (ToString pa ++ s)
  | _, _ => VNum (JsNumOps.add (ToNumber pa) (ToNumber pb))
  end.

(** [a < b]; [None] is the undefined outcome of a comparison with
    [NaN]. *)
Definition js_less (a b : JsVal) : option bool :=
  match ToPrimitive_number a, ToPrimitive_number b with
  | VStr s1, VStr s2 => Some (String.ltb s1 s2)
  | pa, pb =>
      match ToNumber pa, ToNumber pb with
      | Num x, Num y => Some (x <? y)%Z
      | _, _ => None
      end
  end.

Definition js_lt (a b : JsVal) : bool :=
  match js_less a b with Some r => r | None => false end.

Definition js_gt (a b : JsVal) : bool := js_lt b a.

Definition js_le (a b : JsVal) : bool :=
  match js_less b a with Some r => negb r | None => false end.

Definition js_ge (a b : JsVal) : bool := js_le b a.

(** [a === b].  Two [Date]s are equal only when they are one object,
    which a value read from the store and a value of the caller never
    are. *)
Definition strict_eq (a b : JsVal) : bool :=
  match a, b with
  | VUndef, VUndef => true
  | VNull, VNull => true
  | VBool x, VBool y => Bool.eqb x y
  | VNum x, VNum y => JsNumOps.eq x y
  | VStr x, VStr y => String.eqb x y
  | _, _ => false
  end.

(** [a == s] for a string literal [s]. *)
Definition loose_eq_str (a : JsVal) (s : string) : bool :=
  match ToPrimitive_default a with
  | VStr x => String.eqb x s
  | VNum n => JsNumOps.eq n (Text.StringToNumber s)
  | VBool b => JsNumOps.eq (ToNumber (VBool b)) (Text.StringToNumber s)
  | _ => false
  end.

Definition clip (n : JsNum) : JsNum :=
  match n with
  | Num t => Calendar.TimeClip t
  | NaN => NaN
  end.

(** [new Date(value)].  The time value of a [Date] is within the range
    of [TimeClip] already, which [clip] leaves as it is. *)
Definition new_Date (v : JsVal) : JsNum :=
  match v with
  | VDate tv => clip tv
  | VStr s => clip (Date_parse s)
  | _ => clip (ToNumber v)
  end.
End WithRuntime.
End JsOps.

(* ================================================================== *)
(** * Degrees *)
(* ================================================================== *)

(** Dial angles are multiples of half a degree, exact in doubles and in
    [Q].  [None] is [NaN], and also the angle of an event that has none
    yet ([undefined]): a comparison with either is false. *)
Definition Deg : Type := option Q.

Module DegOps.
Definition Qltb (a b : Q) : bool := negb (Qle_bool b a).

(** The [%] operator: the remainder has the sign of the dividend. *)
Definition Qrem (a b : Q) : Q :=
  let q := (a / b)%Q in
  (a - b * inject_Z (Z.quot (Qnum q) (Zpos (Qden q))))%Q.

Definition lt (a b : Deg) : bool :=
  match a, b with Some x, Some y => Qltb x y | _, _ => false end.

Definition le (a b : Deg) : bool :=
  match a, b with Some x, Some y => Qle_bool x y | _, _ => false end.

Definition gt (a b : Deg) : bool := lt b a.
Definition ge (a b : Deg) : bool := le b a.

Definition sub (a : Deg) (b : Q) : Deg :=
  match a with Some x => Some (x - b)%Q | None => None end.
End DegOps.

(* ================================================================== *)
(** * Events, settings and the files *)
(* ================================================================== *)

Record Event : Type := mkEvent {
  id : JsVal;
  description : JsVal;
  start : JsVal;
  end_ : JsVal;
  color : JsVal;
  repeat : JsVal;
  checkRepeat : JsVal;
  startAngle : Deg;
  endAngle : Deg
}.

(** An element of the stored array: an object, or [null]. *)
Inductive Entry : Type :=
| ENull
| EObj (e : Event).

Record Period : Type := mkPeriod {
  p_start : JsVal;
  p_end : JsVal
}.

Record Settings : Type := mkSettings {
  autoDelete : JsVal;
  colorTheme : JsVal
}.

(** The service and what it keeps on the device.  A file is [None] when
    it is absent, empty or does not parse. *)
Record Service : Type := mkService {
  events_file : option (list Entry);
  settings_file : option Settings;
  actualEvents : list Event
}.

Definition set_id (v : JsVal) (e : Event) : Event :=
  mkEvent v (description e) (start e) (end_ e) (color e) (repeat e)
          (checkRepeat e) (startAngle e) (endAngle e).

Definition set_start_end (s x : JsVal) (e : Event) : Event :=
  mkEvent (id e) (description e) s x (color e) (repeat e)
          (checkRepeat e) (startAngle e) (endAngle e).

Definition set_repeat (v : JsVal) (e : Event) : Event :=
  mkEvent (id e) (description e) (start e) (end_ e) (color e) v
          (checkRepeat e) (startAngle e) (endAngle e).

Definition set_checkRepeat (v : JsVal) (e : Event) : Event :=
  mkEvent (id e) (description e) (start e) (end_ e) (color e) (repeat e)
          v (startAngle e) (endAngle e).

Definition set_angles (a b : Deg) (e : Event) : Event :=
  mkEvent (id e) (description e) (start e) (end_ e) (color e) (repeat e)
          (checkRepeat e) a b.

Definition set_events_file (l : list Entry) (s : Service) : Service :=
  mkService (Some l) (settings_file s) (actualEvents s).

Definition set_settings_file (x : Settings) (s : Service) : Service :=
  mkService (events_file s) (Some x) (actualEvents s).

Definition set_actualEvents (l : list Event) (s : Service) : Service :=
  mkService (events_file s) (settings_file s) l.

(** Modelled from the spec: the constant [HOUR_MS] of [../Constants],
    which is not in src/; one hour in milliseconds. *)
Definition HOUR_MS : Z := 3600000.

(** Modelled from the spec: the class [Event] of [../models/Event], which
    is not in src/; [new Event(e)] is a new Event-shaped record with the
    fields of [e], [checkRepeat] included. *)
Definition new_Event (e : Event) : Event := e.

(* ================================================================== *)
(** * Computations of the service *)
(* ================================================================== *)

(** A method runs on the service, may throw, and may be cut short by the
    bound [fuel] put on its [while] loops ([None]). *)
Definition M (A : Type) : Type := Service -> option (Result A * Service).

Definition ret {A} (a : A) : M A := fun s => Some (Ok a, s).
Definition throw {A} (e : JsError) : M A := fun s => Some (Throw e, s).
Definition out_of_fuel {A} : M A := fun _ => None.

Definition bind {A B} (m : M A) (k : A -> M B) : M B :=
  fun s =>
    match m s with
    | None => None
    | Some (Throw e, s') => Some (Throw e, s')
    | Some (Ok a, s') => k a s'
    end.

Definition get_service : M Service := fun s => Some (Ok s, s).
Definition put_service (s : Service) : M unit := fun _ => Some (Ok tt, s).

Definition lift_result {A} (r : Result A) : M A :=
  match r with Ok a => ret a | Throw e => throw e end.

Declare Scope svc_scope.
Delimit Scope svc_scope with svc.
Notation "x <- m ;; k" := (bind m (fun x => k))
  (at level 61, m at next level, right associativity) : svc_scope.
Notation "m ;;; k" := (bind m (fun _ => k))
  (at level 61, right associativity) : svc_scope.

(* ================================================================== *)
(** * SettingsService *)
(* ================================================================== *)

Module SettingsService.
Local Open Scope string_scope.

Definition is_string (v : JsVal) : bool :=
  match v with VStr _ => true | _ => false end.

Definition validateSettings (x : option Settings) : Result unit :=
  match x with
  | None => Throw (Error "Invalid settings")
  | Some st =>
      if is_string (autoDelete st) && is_string (colorTheme st)
      then Ok tt else Throw (Error "Invalid settings")
  end.

(** The handler of [saveSettings] names its parameter [Error]: inside
    it [new Error('Save settings failed')] applies [new] to the value
    that was caught, which is no constructor, and what leaves the
    method is the TypeError of that.  The write itself is the one of
    the store of [EventService.saveEvents], which keeps what it is
    given. *)
Definition saveSettings (x : Settings) : M unit :=
  fun s =>
    match validateSettings (Some x) with
    | Ok _ => Some (Ok tt, set_settings_file x s)
    | Throw _ => Some (Throw (TypeError "Error is not a constructor"), s)
    end.

Definition setDefaultSettings : M Settings :=
  let defaultSet := mkSettings (VStr "never") (VStr "standard") in
  bind (saveSettings defaultSet) (fun _ => ret defaultSet).

Definition loadSettings : M Settings :=
  fun s =>
    match settings_file s, validateSettings (settings_file s) with
    | Some st, Ok _ => Some (Ok st, s)
    | _, _ => setDefaultSettings s
    end.
End SettingsService.

(* ================================================================== *)
(** * EventService *)
(* ================================================================== *)

Module EventService.
Import JsOps JsDate.
Local Open Scope string_scope.
Local Open Scope svc_scope.

Section WithRuntime.
Context {rt : Runtime}.

(** ** The store *)

Definition loadEvents : M (list Entry) :=
  fun s =>
    match events_file s with
    | Some l => Some (Ok l, s)
    | None => Some (Ok [], s)
    end.

(** Modelled from the spec: [FileService], which is not in src/; a
    flat file store whose write replaces the named blob and whose
    read gives back what was written.  A device that refuses a write
    is outside this model: there [writeFile] raises and [saveEvents]
    raises the same again, so what is proved below of a method that
    writes is proved of a store that takes its writes. *)
Definition saveEvents (listOfEvents : list Entry) : M unit :=
  fun s => Some (Ok tt, set_events_file listOfEvents s).

(** ** Validation *)

(** [d instanceof Date] for [d = new Date(...)]: a [Date] object,
    whatever its time value. *)
Definition instanceof_Date (d : JsNum) : bool := true.

(** [description.trim() === ''] is [Text.all_ws]. *)
Definition checkEventFields (event : Entry) : Result bool :=
  match event with
  | ENull => Throw (Error "Event must be a valid object")
  | EObj e =>
      match description e with
      | VStr d =>
          if Text.all_ws d
          then Throw (Error "Invalid description: must be a non-empty string")
          else if negb (instanceof_Date (new_Date (start e)))
          then Throw (Error "Invalid startDate: must be a valid Date object")
          else if negb (instanceof_Date (new_Date (end_ e)))
          then Throw (Error "Invalid endDate: must be a valid Date object")
          else
            match repeat e with
            | VStr r =>
                if existsb (String.eqb r) ["never"; "day"; "week"; "month"]
                then Ok true
                else Throw (Error "Invalid repeat: must be one of 'never', 'day', 'week', 'month'")
            | _ => Throw (Error "Invalid repeat: must be one of 'never', 'day', 'week', 'month'")
            end
      | _ => Throw (Error "Invalid description: must be a non-empty string")
      end
  end.

(** ** Recurrence *)

Definition getMsToSameDateInNextMonth (event : Event) : JsNum :=
  let startD := new_Date (start event) in
  let currentDay := getDate startD in
  let nextMonth := JsNumOps.add (getMonth startD) (Num 1) in
  let nextYear := getFullYear startD in
  let '(nextMonth, nextYear) :=
    if JsNumOps.gt nextMonth (Num 11)
    then (Num 0, JsNumOps.add nextYear (Num 1))
    else (nextMonth, nextYear) in
  let daysInNextMonth :=
    getDate (Date_ymd nextYear (JsNumOps.add nextMonth (Num 1)) (Num 0)) in
  let nextDay := JsNumOps.min currentDay daysInNextMonth in
  let nextEventDate := Date_ymd nextYear nextMonth nextDay in
  let diffInMs := JsNumOps.sub (getTime nextEventDate) (getTime startD) in
  diffInMs.

Definition getRepeatTimeMs (event : Event) : JsNum :=
  if loose_eq_str (repeat event) "day" then Num (24 * HOUR_MS)
  else if loose_eq_str (repeat event) "week" then Num (7 * 24 * HOUR_MS)
  else if loose_eq_str (repeat event) "month"
       then getMsToSameDateInNextMonth event
  else Num 0.

(** The [while] loop of [repeateRule]; [None] when [fuel] runs out. *)
Fixpoint repeateRule_loop (fuel : nat) (event : Event) (period : Period)
         (repeatMs : JsNum) (repeatedEvent : Event)
         (listToAdd : list Event) : option (list Event) :=
  match fuel with
  | O => None
  | S fuel' =>
      if js_le (start repeatedEvent) (VDate (new_Date (p_end period)))
      then
        let listToAdd := (listToAdd ++ [new_Event repeatedEvent])%list in
        let repeatMs :=
          if strict_eq (repeat event) (VStr "month")
          then getMsToSameDateInNextMonth repeatedEvent
          else repeatMs in
        let repeatedEvent :=
          set_start_end
            (js_add (VDate (new_Date (start repeatedEvent))) (VNum repeatMs))
            (js_add (VDate (new_Date (end_ repeatedEvent))) (VNum repeatMs))
            repeatedEvent in
        repeateRule_loop fuel' event period repeatMs repeatedEvent listToAdd
      else Some listToAdd
  end.

Definition repeateRule (fuel : nat) (event : Event) (period : Period)
           (listToAdd : list Event) : option (list Event) :=
  let repeatMs := getRepeatTimeMs event in
  if negb (strict_eq (repeat event) (VStr "never")) then
    let repeatedEvent := event in
    let repeatedEvent := set_checkRepeat (repeat event) repeatedEvent in
    let repeatedEvent := set_repeat (VStr "never") repeatedEvent in
    let repeatedEvent :=
      set_start_end
        (js_add (VDate (new_Date (start event))) (VNum repeatMs))
        (js_add (VDate (new_Date (end_ event))) (VNum repeatMs))
        repeatedEvent in
    repeateRule_loop fuel event period repeatMs repeatedEvent listToAdd
  else Some listToAdd.

(** ** Actuality and retention; [now] is the time [new Date()] reads *)

Definition actualEventsFilter (now : Z) (event : Event) : bool :=
  let nowD := Num now in
  let startEv := new_Date (start event) in
  let endEv := new_Date (end_ event) in
  (JsNumOps.le (JsNumOps.sub (getTime startEv) (getTime nowD)) (Num (10 * HOUR_MS))
     && js_ge (VDate startEv) (VDate nowD))
  || (JsNumOps.le (JsNumOps.sub (getTime nowD) (getTime endEv)) (Num (2 * HOUR_MS))
        && js_ge (VDate nowD) (VDate endEv))
  || (js_ge (VDate nowD) (VDate startEv) && js_le (VDate nowD) (VDate endEv)).

Definition deleteFilter (now : Z) (event : Event) (autoDelete : JsVal) : bool :=
  if ToBoolean (repeat event) && negb (loose_eq_str (repeat event) "never")
  then false
  else
    let nowD := Num now in
    let endD := new_Date (end_ event) in
    let older (limit : Z) :=
      js_gt (VDate nowD) (VDate endD)
      && JsNumOps.gt (JsNumOps.sub (getTime nowD) (getTime endD)) (Num limit) in
    if strict_eq autoDelete (VStr "day") then older (HOUR_MS * 24)%Z
    else if strict_eq autoDelete (VStr "week") then older (HOUR_MS * 24 * 7)%Z
    else if strict_eq autoDelete (VStr "month") then older (HOUR_MS * 24 * 31)%Z
    else false.

(** ** Angles *)

Definition convertTimeToAngle (time : JsVal) : Deg :=
  let date := new_Date time in
  match getHours date, getMinutes date with
  | Num h, Num m =>
      let result := (inject_Z (h * 60 + m) * (1 # 2))%Q in
      Some (if Qle_bool 360 result then DegOps.Qrem result 360 else result)
  | _, _ => None
  end.

(** The second branch names [EventsManager], which nothing in the
    module defines or imports: evaluating it throws. *)
Definition calculateEventAngles (event : Event) (timeNow : Z)
  : Result (Deg * Deg) :=
  let startAngle := convertTimeToAngle (start event) in
  let endAngle := convertTimeToAngle (end_ event) in
  let deleteTime :=
    new_Date (VNum (JsNumOps.sub (getTime (new_Date (VNum (Num timeNow))))
                                 (Num (2 * HOUR_MS)))) in
  let clipped : Result (Deg * Deg) :=
    if js_lt (VDate (new_Date (start event))) (VDate deleteTime)
    then Ok (convertTimeToAngle (VDate deleteTime), endAngle)
    else if JsNumOps.gt (getTime (new_Date (end_ event)))
                        (Num (timeNow + 10 * HOUR_MS))
         then Throw (ReferenceError "EventsManager")
         else Ok (startAngle, endAngle) in
  match clipped with
  | Throw e => Throw e
  | Ok (startAngle, endAngle) =>
      let startAngle :=
        if DegOps.gt startAngle endAngle
        then DegOps.sub startAngle 360 else startAngle in
      Ok (startAngle, endAngle)
  end.

Definition addAnglesToEvent (now : Z) (event : Event) : Result Event :=
  match calculateEventAngles event now with
  | Throw e => Throw e
  | Ok (a, b) => Ok (set_angles a b event)
  end.

(** ** Identifiers *)

(** [allEvents.some(existingEvent => existingEvent.id === v)]; reading
    [id] off a [null] element throws. *)
Fixpoint some_same_id (allEvents : list Entry) (v : JsVal) : Result bool :=
  match allEvents with
  | [] => Ok false
  | ENull :: _ => Throw (TypeError "Cannot read properties of null")
  | EObj e :: rest =>
      if strict_eq (id e) v then Ok true else some_same_id rest v
  end.

(** The [while] loop of [generateEventId].  [generatorId()] joins the
    clock and [Math.random()]; its successive results are the stream
    [gen], of which [k] have been drawn. *)
Fixpoint generateEventId_loop (fuel : nat) (gen : nat -> string) (k : nat)
         (event : Event) (allEvents : list Entry) : option (Result Event) :=
  match fuel with
  | O => None
  | S fuel' =>
      match some_same_id allEvents (id event) with
      | Throw e => Some (Throw e)
      | Ok false => Some (Ok event)
      | Ok true =>
          generateEventId_loop fuel' gen (S k)
            (set_id (VStr (gen k)) event) allEvents
      end
  end.

Definition generateEventId (fuel : nat) (gen : nat -> string)
           (event : Entry) (allEvents : list Entry) : M Event :=
  match event with
  | ENull => throw (Error "Event must be a valid object")
  | EObj e =>
      match generateEventId_loop fuel gen 0 e allEvents with
      | None => out_of_fuel
      | Some r => lift_result r
      end
  end.

(** ** The derived view *)

Definition uploadActualEvents_step (fuel : nat) (now : Z) (ev : Entry) : M unit :=
  let startW := (now - 2 * HOUR_MS)%Z in
  let endW := (now + 10 * HOUR_MS)%Z in
  let period :=
    mkPeriod (VDate (new_Date (VNum (Num startW))))
             (VDate (new_Date (VNum (Num endW)))) in
  match ev with
  | ENull => throw (TypeError "Cannot read properties of null")
  | EObj e =>
      s <- get_service ;;
      match repeateRule fuel e period (actualEvents s) with
      | None => out_of_fuel
      | Some l =>
          put_service (set_actualEvents l s) ;;;
          ok <- lift_result (checkEventFields ev) ;;
          if ok && actualEventsFilter now e then
            e' <- lift_result (addAnglesToEvent now e) ;;
            s' <- get_service ;;
            put_service (set_actualEvents (actualEvents s' ++ [e'])%list s')
          else ret tt
      end
  end.

Fixpoint for_each {A} (f : A -> M unit) (l : list A) : M unit :=
  match l with
  | [] => ret tt
  | a :: rest => f a ;;; for_each f rest
  end.

Definition uploadActualEvents (fuel : nat) (now : Z) : M unit :=
  s <- get_service ;;
  put_service (set_actualEvents [] s) ;;;
  loadedEvents <- loadEvents ;;
  for_each (uploadActualEvents_step fuel now) loadedEvents.

(** ** Create, edit, delete *)

Definition createNewEvent (fuel : nat) (now : Z) (gen : nat -> string)
           (event : Entry) : M unit :=
  lift_result (checkEventFields event) ;;;
  result <- loadEvents ;;
  e <- generateEventId fuel gen event result ;;
  let result := (result ++ [EObj e])%list in
  saveEvents result ;;;
  uploadActualEvents fuel now.

Fixpoint editEvent_scan (event : Event) (loadedEvents : list Entry)
         (result : list Entry) : Result (list Entry) :=
  match loadedEvents with
  | [] => Ok result
  | ev :: rest =>
      match checkEventFields ev with
      | Throw e => Throw e
      | Ok ok =>
          let same :=
            match ev with
            | EObj e => strict_eq (id event) (id e)
            | ENull => false
            end in
          if ok && same
          then editEvent_scan event rest (result ++ [EObj event])%list
          else editEvent_scan event rest (result ++ [ev])%list
      end
  end.

Definition editEvent (fuel : nat) (now : Z) (event : Event) : M unit :=
  loadedEvents <- loadEvents ;;
  result <- lift_result (editEvent_scan event loadedEvents []) ;;
  saveEvents result ;;;
  uploadActualEvents fuel now.

Fixpoint deleteEvent_scan (v : JsVal) (loadedEvents : list Entry)
         (result : list Entry) : Result (list Entry) :=
  match loadedEvents with
  | [] => Ok result
  | ev :: rest =>
      match checkEventFields ev with
      | Throw e => Throw e
      | Ok ok =>
          let other :=
            match ev with
            | EObj e => negb (strict_eq (id e) v)
            | ENull => false
            end in
          if ok && other
          then deleteEvent_scan v rest (result ++ [ev])%list
          else deleteEvent_scan v rest result
      end
  end.

Definition deleteEvent (fuel : nat) (now : Z) (v : JsVal) : M (list Entry) :=
  loadedEvents <- loadEvents ;;
  result <- lift_result (deleteEvent_scan v loadedEvents []) ;;
  saveEvents result ;;;
  uploadActualEvents fuel now ;;;
  ret result.

(** ** The retention sweep *)

Fixpoint autoDeleteEvents_scan (now : Z) (autoDelete : JsVal)
         (loadedEvents : list Entry) (deleteFilterDone : list Entry)
  : Result (list Entry) :=
  match loadedEvents with
  | [] => Ok deleteFilterDone
  | ev :: rest =>
      match checkEventFields ev with
      | Throw e => Throw e
      | Ok ok =>
          let purge :=
            match ev with
            | EObj e => deleteFilter now e autoDelete
            | ENull => false
            end in
          if ok && negb purge
          then autoDeleteEvents_scan now autoDelete rest (deleteFilterDone ++ [ev])%list
          else autoDeleteEvents_scan now autoDelete rest deleteFilterDone
      end
  end.

Definition autoDeleteEvents (now : Z) : M unit :=
  st <- SettingsService.loadSettings ;;
  let autoDelete := autoDelete st in
  loadedEvents <- loadEvents ;;
  deleteFilterDone <- lift_result (autoDeleteEvents_scan now autoDelete loadedEvents []) ;;
  saveEvents deleteFilterDone.

Definition getActualEvents (fuel : nat) (now : Z) : M (list Event) :=
  autoDeleteEvents now ;;;
  uploadActualEvents fuel now ;;;
  s <- get_service ;;
  ret (actualEvents s).

(** ** The week *)

Definition getWeekRange (date : JsVal) : Period :=
  let currentDate := new_Date date in
  let dayOfWeek := getDay currentDate in
  let diffToMonday :=
    if JsNumOps.eq dayOfWeek (Num 0) then Num (-6)
    else JsNumOps.sub (Num 1) dayOfWeek in
  let monday := currentDate in
  let monday := setDate monday (JsNumOps.add (getDate currentDate) diffToMonday) in
  let sunday := monday in
  let monday := setHours monday 0 in
  let monday := setMinutes monday 0 in
  let monday := setSeconds monday 0 in
  let monday := setMilliseconds monday 0 in
  let sunday := setHours sunday 0 in
  let sunday := setMinutes sunday 0 in
  let sunday := setSeconds sunday 0 in
  let sunday := setMilliseconds sunday 0 in
  let sunday := setDate sunday (JsNumOps.add (getDate monday) (Num 7)) in
  mkPeriod (VDate monday) (VDate sunday).

(** [Array.prototype.sort] with the comparator
    [(a, b) => new Date(a.start) - new Date(b.start)]: a stable sort,
    in which a comparison that is [NaN] counts as 0. *)
Definition before_or_same (a b : Event) : bool :=
  match JsNumOps.sub (new_Date (start a)) (new_Date (start b)) with
  | Num d => (d <=? 0)%Z
  | NaN => true
  end.

Fixpoint sort_insert (x : Event) (l : list Event) : list Event :=
  match l with
  | [] => [x]
  | y :: rest =>
      if before_or_same x y then x :: l else y :: sort_insert x rest
  end.

Definition sort_by_start (l : list Event) : list Event :=
  fold_right sort_insert [] l.

(** One turn of the loop of [getWeekListOfEvents].  In the second
    conjunct of the test the source closes the parenthesis of
    [new Date(] after the comparison: the conjunct is a [Date] made from
    a boolean. *)
Definition getWeekListOfEvents_step (fuel : nat) (week : Period)
           (ev : Entry) (resultList : list Event) : option (Result (list Event)) :=
  match ev with
  | ENull => Some (Throw (TypeError "Cannot read properties of null"))
  | EObj e =>
      let e := set_checkRepeat (repeat e) e in
      if negb (loose_eq_str (repeat e) "never") then
        match repeateRule fuel (new_Event e) week resultList with
        | None => None
        | Some l => Some (Ok l)
        end
      else if js_ge (VDate (new_Date (start e))) (p_start week)
              && ToBoolean (VDate (new_Date (VBool (js_le (start e) (p_end week)))))
           then Some (Ok (resultList ++ [new_Event e])%list)
           else Some (Ok resultList)
  end.

Fixpoint getWeekListOfEvents_scan (fuel : nat) (week : Period)
         (loadedEvents : list Entry) (resultList : list Event)
  : option (Result (list Event)) :=
  match loadedEvents with
  | [] => Some (Ok resultList)
  | ev :: rest =>
      match getWeekListOfEvents_step fuel week ev resultList with
      | None => None
      | Some (Throw e) => Some (Throw e)
      | Some (Ok l) => getWeekListOfEvents_scan fuel week rest l
      end
  end.

Definition getWeekListOfEvents (fuel : nat) (now : Z) (date : JsVal)
  : M (list Event) :=
  autoDeleteEvents now ;;;
  let week := getWeekRange date in
  loadedEvents <- loadEvents ;;
  match getWeekListOfEvents_scan fuel week loadedEvents [] with
  | None => out_of_fuel
  | Some r =>
      resultList <- lift_result r ;;
      ret (sort_by_start resultList)
  end.

(** ** Clearing the history *)

(** The handler names its parameter [Error]: inside it the name is the
    caught value, and [new Error(...)] calls that value, which is no
    constructor. *)
Definition clearHistoryOfEvents : M unit :=
  fun s =>
    match saveEvents [] s with
    | Some (Throw _, s') =>
        Some (Throw (TypeError "Error is not a constructor"), s')
    | r => r
    end.

(** ** Past, current and future events of a list *)

Record Counts : Type := mkCounts {
  past : nat;
  current : nat;
  future : nat
}.

(** The loop of [separateListToPastCurrentFutureEvents]; reading
    [start] off a [null] element throws. *)
Fixpoint separate_loop (now : Z) (eventsList : list Entry)
         (past current future : nat) : Result (nat * nat * nat) :=
  match eventsList with
  | [] => Ok (past, current, future)
  | ENull :: _ => Throw (TypeError "Cannot read properties of null")
  | EObj ev :: rest =>
      let startD := new_Date (start ev) in
      let endD := new_Date (end_ ev) in
      if js_gt (VDate (Num now)) (VDate endD)
      then separate_loop now rest (S past) current future
      else if js_gt (VDate startD) (VDate (Num now))
      then separate_loop now rest past current (S future)
      else separate_loop now rest past (S current) future
  end.

Definition separateListToPastCurrentFutureEvents (now : Z)
           (eventsList : list Entry) : Result Counts :=
  match separate_loop now eventsList 0 0 0 with
  | Ok (past, current, future) =>
      Ok (mkCounts past (past + current) (past + current + future))
  | Throw e => Throw e
  end.
End WithRuntime.

(** ** The hit test

    The tap coordinates and the point angle are real numbers;
    [Math.sqrt] and [Math.atan2] are the functions of real analysis. *)

Definition Rltb (a b : R) : bool := if Rlt_dec a b then true else false.
Definition Rleb (a b : R) : bool := if Rle_dec a b then true else false.

(** [Math.atan2(y, x)]: the angle of the point (x, y), in (-PI, PI]. *)
Definition atan2 (y x : R) : R :=
  if Rlt_dec 0 x then atan (y / x)
  else if Rlt_dec x 0 then
         if Rle_dec 0 y then atan (y / x) + PI else atan (y / x) - PI
  else if Rlt_dec 0 y then PI / 2
  else if Rlt_dec y 0 then - (PI / 2)
  else 0.

(** [p >= a] and [p <= a] for a point angle [p] and an angle of an
    event. *)
Definition point_ge (p : R) (a : Deg) : bool :=
  match a with Some q => Rleb (Q2R q) p | None => false end.

Definition point_le (p : R) (a : Deg) : bool :=
  match a with Some q => Rleb p (Q2R q) | None => false end.

(** The angle of the tap, clockwise from twelve o'clock, in [0, 360). *)
Definition pointAngleOf (x y : R) : R :=
  let pointAngle := (90 - atan2 (240 - y) (x - 240) * (180 / PI))%R in
  if Rltb pointAngle 0 then (360 + pointAngle)%R else pointAngle.

(** The branch [startAngle <= endAngle]. *)
Definition inPlainSector (pointAngle : R) (event : Event) : bool :=
  let pointAngle :=
    if DegOps.lt (startAngle event) (Some 0%Q) && Rltb 270 pointAngle
    then (pointAngle - 360)%R else pointAngle in
  point_ge pointAngle (startAngle event)
  && point_le pointAngle (endAngle event).

(** The branch [startAngle > endAngle], a sector across 0. *)
Definition inWrappingSector (pointAngle : R) (event : Event) : bool :=
  point_ge pointAngle (startAngle event)
  || point_le pointAngle (endAngle event).

Definition isThisEvent (x y : R) (event : Event) : bool :=
  let distance := sqrt ((x - 240) ^ 2 + (y - 240) ^ 2) in
  if Rltb 200 distance then false
  else
    let pointAngle := pointAngleOf x y in
    if DegOps.le (startAngle event) (endAngle event)
    then inPlainSector pointAngle event
    else inWrappingSector pointAngle event.

(** ** Coordinates from the centre; a screen coordinate is a whole
    number of pixels *)

Definition convertToCirCoord (coordinate : Z) : Z :=
  if (240 <=? coordinate)%Z then (coordinate - 240)%Z
  else (240 - coordinate)%Z.
End EventService.

(* ================================================================== *)
(** * calculate.js *)
(* ================================================================== *)

Module Calculate.

(** A time of day as the dial application writes it: [{h: 3, m: 0}]. *)
Record Time : Type := mkTime {
  h : Z;
  m : Z
}.

Record DialEvent : Type := mkDialEvent {
  start : Time;
  end_ : Time
}.

Record Angles : Type := mkAngles {
  startAngle : Q;
  endAngle : Q
}.

Definition convertTimeToAngle (time : Time) : Q :=
  let result := (inject_Z (h time * 60 + m time) * (1 # 2))%Q in
  if Qle_bool 360 result then DegOps.Qrem result 360 else result.

Definition calculateAngles (event : DialEvent) : Angles :=
  let startAngle := convertTimeToAngle (start event) in
  let endAngle := convertTimeToAngle (end_ event) in
  let startAngle :=
    if DegOps.Qltb endAngle startAngle then (startAngle - 360)%Q else startAngle in
  mkAngles startAngle endAngle.
End Calculate.

(* ================================================================== *)
(** * The dial page *)
(* ================================================================== *)

(** [page/index.js] of the dial application.  The canvas is the
    sequence of the arcs drawn on it; [color] is the counter the module
    keeps between calls. *)
Module Page.

Definition EVENT_COLORS : list Z :=
  [0x2E8B57; 0x1E90FF; 0xFF6347; 0xFFD700;
   0x9932CC; 0xFF69B4; 0xFF8C00; 0x00CED1]%Z.

Record Arc : Type := mkArc {
  center_x : Z;
  center_y : Z;
  radius_x : Z;
  radius_y : Z;
  start_angle : Q;
  end_angle : Q;
  arc_color : option Z
}.

Record State : Type := mkState {
  color : nat;
  canvas : list Arc
}.

(** [EVENT_COLORS[color]] is [undefined] past the end of the palette. *)
Definition drawEvent (event : Calculate.DialEvent) (st : State) : State :=
  let a := Calculate.calculateAngles event in
  let arc :=
    mkArc 240 240 225 225
          (Calculate.startAngle a - 90)%Q (Calculate.endAngle a - 90)%Q
          (nth_error EVENT_COLORS (color st)) in
  mkState (S (color st)) (canvas st ++ [arc]).

Definition iterateEvents (events : list Calculate.DialEvent) (st : State) : State :=
  fold_left (fun st event => drawEvent event st) events st.
End Page.

(* ================================================================== *)
(** * Two hosts *)
(* ================================================================== *)

Module Hosts.
Import Calendar.
Local Open Scope Z_scope.

Fixpoint take_digits (n : nat) (s : string) (acc : Z) : option (Z * string) :=
  match n with
  | O => Some (acc, s)
  | S n' =>
      match s with
      | String c r =>
          match Text.digit_val c with
          | Some d => take_digits n' r (10 * acc + d)
          | None => None
          end
      | EmptyString => None
      end
  end.

Definition expect (c : ascii) (s : string) : option string :=
  match s with
  | String c' r => if Ascii.eqb c c' then Some r else None
  | EmptyString => None
  end.

Definition obind {A B} (x : option A) (k : A -> option B) : option B :=
  match x with Some a => k a | None => None end.

(** The date-time interchange format in UTC, [YYYY-MM-DDTHH:mm:ss.sssZ],
    the form in which [JSON.stringify] writes a [Date]. *)
Definition parse_iso_fields (s : string) : option Z :=
  obind (take_digits 4 s 0) (fun '(Y, s) =>
  obind (expect "-" s) (fun s =>
  obind (take_digits 2 s 0) (fun '(Mo, s) =>
  obind (expect "-" s) (fun s =>
  obind (take_digits 2 s 0) (fun '(D, s) =>
  obind (expect "T" s) (fun s =>
  obind (take_digits 2 s 0) (fun '(H, s) =>
  obind (expect ":" s) (fun s =>
  obind (take_digits 2 s 0) (fun '(Mi, s) =>
  obind (expect ":" s) (fun s =>
  obind (take_digits 2 s 0) (fun '(Sec, s) =>
  obind (expect "." s) (fun s =>
  obind (take_digits 3 s 0) (fun '(Ms, s) =>
  obind (expect "Z" s) (fun s =>
    match s with
    | EmptyString =>
        if (1 <=? Mo) && (Mo <=? 12) && (1 <=? D) && (D <=? DaysInMonth Y (Mo - 1))
           && (H <=? 23) && (Mi <=? 59) && (Sec <=? 59)
        then Some (MakeDate (MakeDay Y (Mo - 1) D) (MakeTime H Mi Sec Ms))
        else None
    | _ => None
    end)))))))))))))).

(** A parser that knows the interchange format and nothing else. *)
Definition parse_iso (s : string) : JsNum :=
  match parse_iso_fields s with
  | Some t => TimeClip t
  | None => NaN
  end.

Definition utc_range : - msPerDay < 0 < msPerDay :=
  conj eq_refl eq_refl.

Definition msk_range : - msPerDay < 3 * msPerHour < msPerDay :=
  conj eq_refl eq_refl.

(** A device on UTC, and one three hours east of it. *)
Definition utc : Runtime :=
  {| LocalTZA := 0; LocalTZA_range := utc_range; Date_parse := parse_iso |}.

Definition msk : Runtime :=
  {| LocalTZA := 3 * msPerHour; LocalTZA_range := msk_range;
     Date_parse := parse_iso |}.
End Hosts.

(* ================================================================== *)
(** * Notions the statements use *)
(* ================================================================== *)

(** The grace period of the retention policy, in the words of the
    rule: one day, seven days, thirty-one days; none for [never] and
    for any other value of the setting. *)
Definition retentionLimit (autoDelete : JsVal) : option Z :=
  match autoDelete with
  | VStr s =>
      if String.eqb s "day" then Some (24 * HOUR_MS)%Z
      else if String.eqb s "week" then Some (7 * (24 * HOUR_MS))%Z
      else if String.eqb s "month" then Some (31 * (24 * HOUR_MS))%Z
      else None
  | _ => None
  end.

(** A character that can begin no numeric literal. *)
Definition no_literal_start (c : ascii) : Prop :=
  Text.is_ws c = false /\ Text.ws_lead c = false
  /\ Text.digit_val c = None
  /\ Ascii.eqb c "+" = false /\ Ascii.eqb c "-" = false.

(** What [setHours(0)], [setMinutes(0)], [setSeconds(0)] and
    [setMilliseconds(0)] make of a local time. *)
Definition clearHours (t : Z) : Z :=
  Calendar.MakeDate (Calendar.Day t)
    (Calendar.MakeTime 0 (Calendar.MinFromTime t) (Calendar.SecFromTime t)
       (Calendar.msFromTime t)).

Definition clearMinutes (t : Z) : Z :=
  Calendar.MakeDate (Calendar.Day t)
    (Calendar.MakeTime (Calendar.HourFromTime t) 0 (Calendar.SecFromTime t)
       (Calendar.msFromTime t)).

Definition clearSeconds (t : Z) : Z :=
  Calendar.MakeDate (Calendar.Day t)
    (Calendar.MakeTime (Calendar.HourFromTime t) (Calendar.MinFromTime t) 0
       (Calendar.msFromTime t)).

Definition clearMilliseconds (t : Z) : Z :=
  Calendar.MakeDate (Calendar.Day t)
    (Calendar.MakeTime (Calendar.HourFromTime t) (Calendar.MinFromTime t)
       (Calendar.SecFromTime t) 0).

(** The stored array as [loadEvents] reads it. *)
Definition stored (s : Service) : list Entry :=
  match events_file s with Some l => l | None => [] end.

(** The identifiers [generateEventId] tries, in order: the one the
    event came with, then the generated ones. *)
Definition candidate (gen : nat -> string) (event : Event) (n : nat) : JsVal :=
  match n with
  | O => id event
  | S j => VStr (gen j)
  end.

(** The entry is an event whose identifier is not strictly equal to
    [v]. *)
Definition differs_from (v : JsVal) (en : Entry) : Prop :=
  match en with
  | EObj e => JsOps.strict_eq (id e) v = false
  | ENull => False
  end.

Definition differ (a b : Entry) : Prop :=
  match b with
  | EObj e => differs_from (id e) a
  | ENull => False
  end.

(** No two stored events have strictly equal identifiers. *)
Definition unique_ids (l : list Entry) : Prop := ForallOrdPairs differ l.

(** The method returns, with or without an exception, and leaves the
    stored events as they are. *)
Definition keeps_events {A} (m : M A) : Prop :=
  forall s, exists r s', m s = Some (r, s') /\ events_file s' = events_file s.

(** The record passes validation. *)
Definition valid {rt : Runtime} (en : Entry) : Prop :=
  EventService.checkEventFields en = Ok true.

(** The settings [loadSettings] writes when the file gives none. *)
Definition defaultSettings : Settings :=
  mkSettings (VStr "never") (VStr "standard").

(** A stored record that [deleteEvent v] keeps. *)
Definition other_id (v : JsVal) (en : Entry) : bool :=
  match en with
  | EObj e => negb (JsOps.strict_eq (id e) v)
  | ENull => false
  end.

(** What [editEvent event] writes in the place of a stored record. *)
Definition edited (event : Event) (en : Entry) : Entry :=
  match en with
  | EObj e => if JsOps.strict_eq (id event) (id e) then EObj event else en
  | ENull => en
  end.

(** A stored record that the retention sweep keeps. *)
Definition retained {rt : Runtime} (now : Z) (autoDelete : JsVal)
           (en : Entry) : bool :=
  match en with
  | EObj e => negb (EventService.deleteFilter now e autoDelete)
  | ENull => false
  end.

(** What the derived view shows of a stored record: the record with
    its angles when it is actual, nothing otherwise. *)
Definition shown {rt : Runtime} (now : Z) (en : Entry) : list Event :=
  match en with
  | EObj e =>
      if EventService.actualEventsFilter now e then
        match EventService.addAnglesToEvent now e with
        | Ok e' => [e']
        | Throw _ => []
        end
      else []
  | ENull => []
  end.

(** What the week list takes of a stored record. *)
Definition listed {rt : Runtime} (week : Period) (en : Entry) : list Event :=
  match en with
  | EObj e =>
      if JsOps.strict_eq (repeat e) (VStr "never")
         && JsOps.js_ge (VDate (JsOps.new_Date (start e))) (p_start week)
      then [set_checkRepeat (VStr "never") e]
      else []
  | ENull => []
  end.

(** The starts are valid dates in ascending order. *)
Definition starts_ascend {rt : Runtime} (a b : Event) : Prop :=
  exists x y : Z,
    JsOps.new_Date (start a) = Num x /\ JsOps.new_Date (start b) = Num y
    /\ (x <= y)%Z.

(** The start is a valid date. *)
Definition dated {rt : Runtime} (e : Event) : Prop :=
  exists x : Z, JsOps.new_Date (start e) = Num x.

(** The event ended before [now]; an end that is no valid date is
    not before anything. *)
Definition is_past {rt : Runtime} (now : Z) (e : Event) : bool :=
  match JsOps.new_Date (end_ e) with
  | Num y => (y <? now)%Z
  | NaN => false
  end.

(** The event is not past and starts after [now]. *)
Definition is_future {rt : Runtime} (now : Z) (e : Event) : bool :=
  negb (is_past now e)
  && match JsOps.new_Date (start e) with
     | Num x => (now <? x)%Z
     | NaN => false
     end.

Definition is_current {rt : Runtime} (now : Z) (e : Event) : bool :=
  negb (is_past now e) && negb (is_future now e).

(** The arc [drawEvent] draws for an event when the counter is [c]. *)
Definition arc_of (event : Calculate.DialEvent) (c : nat) : Page.Arc :=
  Page.mkArc 240 240 225 225
    (Calculate.startAngle (Calculate.calculateAngles event) - 90)%Q
    (Calculate.endAngle (Calculate.calculateAngles event) - 90)%Q
    (nth_error Page.EVENT_COLORS c).

(** Minutes since midnight of a time of day. *)
Definition minutes (time : Calculate.Time) : Z :=
  (Calculate.h time * 60 + Calculate.m time)%Z.

(* ================================================================== *)
(** * Sample data *)
(* ================================================================== *)

Module Examples.
Local Open Scope string_scope.

Definition event (i d s e r : string) : Event :=
  mkEvent (VStr i) (VStr d) (VStr s) (VStr e) (VStr "0x2E8B57") (VStr r)
          VUndef None None.

Definition keep_all : Settings := mkSettings (VStr "never") (VStr "standard").
Definition empty_store : Service := mkService None None [].

(** Tuesday 18 November 2025, 12:00 UTC, and 01:00 UTC of that day. *)
Definition noon : Z := 1763467200000.
Definition one_am : Z := 1763427600000.
Definition tuesday : JsVal := VStr "2025-11-18T12:00:00.000Z".

(** A daily quarter of an hour, and four days that begin with its
    first day. *)
Definition standup : Event :=
  event "e1" "stand-up" "2025-11-18T10:00:00.000Z" "2025-11-18T10:15:00.000Z" "day".

Definition four_days : Period :=
  mkPeriod (VDate (Hosts.parse_iso "2025-11-18T00:00:00.000Z"))
           (VDate (Hosts.parse_iso "2025-11-21T23:59:59.999Z")).

(** An evening five weeks after that Tuesday. *)
Definition party : Event :=
  event "e2" "party" "2025-12-25T18:00:00.000Z" "2025-12-25T23:00:00.000Z" "never".

Definition party_store : Service :=
  mkService (Some [EObj party]) (Some keep_all) [].

(** From 20:00 on Monday to 14:00 on Tuesday. *)
Definition night_shift : Event :=
  event "e3" "night shift" "2025-11-17T20:00:00.000Z" "2025-11-18T14:00:00.000Z" "never".

(** From 01:00 to 14:00 on Tuesday. *)
Definition long_day : Event :=
  event "e4" "long day" "2025-11-18T01:00:00.000Z" "2025-11-18T14:00:00.000Z" "never".

(** A record whose description is blank, and a lunch that is moved by
    an hour. *)
Definition blank : Event :=
  event "e5" "   " "2025-11-18T09:00:00.000Z" "2025-11-18T09:30:00.000Z" "never".

Definition lunch : Event :=
  event "e6" "lunch" "2025-11-18T12:00:00.000Z" "2025-11-18T13:00:00.000Z" "never".

Definition lunch_moved : Event :=
  event "e6" "lunch" "2025-11-18T13:00:00.000Z" "2025-11-18T14:00:00.000Z" "never".

Definition lunch_store : Service :=
  mkService (Some [EObj lunch; EObj blank]) (Some keep_all) [].

(** An event that comes with an identifier of the caller's. *)
Definition dentist : Event :=
  event "my-id" "dentist" "2025-11-19T08:00:00.000Z" "2025-11-19T09:00:00.000Z" "never".

Definition counter_ids (k : nat) : string :=
  "id" ++ Text.Z_to_string (Z.of_nat k).

Definition taken : Event :=
  event "id0" "taken" "2025-11-19T10:00:00.000Z" "2025-11-19T11:00:00.000Z" "never".

Definition dentist_store : Service :=
  mkService (Some [EObj dentist; EObj taken]) (Some keep_all) [].

(** The rent, due on the 31st. *)
Definition rent : Event :=
  event "e7" "rent" "2024-01-31T09:30:00.000Z" "2024-01-31T10:00:00.000Z" "month".

(** An event that ended a day and a millisecond before [noon]. *)
Definition finished : Event :=
  event "e8" "review" "2025-11-17T11:00:00.000Z" "2025-11-17T11:59:59.999Z" "never".

(** The third of the dial application's sample events. *)
Definition tea : Calculate.DialEvent :=
  Calculate.mkDialEvent (Calculate.mkTime 11 0) (Calculate.mkTime 0 0).

(** Settings that purge after a day. *)
Definition purge_daily : Settings := mkSettings (VStr "day") (VStr "standard").

(** A store of three valid records, and one of a single record. *)
Definition agenda : Service :=
  mkService (Some [EObj lunch; EObj standup; EObj party]) (Some keep_all) [].

Definition lunch_only : Service :=
  mkService (Some [EObj lunch]) (Some keep_all) [].

(** A store that holds a record that ended more than a day before
    [noon], under the daily purge. *)
Definition archive : Service :=
  mkService (Some [EObj finished; EObj lunch]) (Some purge_daily) [].

(** The lunch with its description blanked. *)
Definition lunch_blank : Event :=
  event "e6" "  " "2025-11-18T12:00:00.000Z" "2025-11-18T13:00:00.000Z" "never".

(** A store with an event that, at [one_am], starts now and ends
    thirteen hours later. *)
Definition long_day_store : Service :=
  mkService (Some [EObj lunch; EObj long_day]) (Some keep_all) [].

(** The night shift with the angles it has at [one_am]. *)
Definition night_sector : Event :=
  set_angles (Some (-60 # 2)%Q) (Some (120 # 2)%Q) night_shift.

(** Monthly, on the last evening of the year. *)
Definition fireworks : Event :=
  event "e9" "fireworks" "2025-12-31T20:00:00.000Z" "2025-12-31T23:00:00.000Z" "month".

(** Monthly from 31 January of the year 50, and from 31 January of the
    year 0, which is a leap year. *)
Definition tithe : Event :=
  event "e10" "tithe" "0050-01-31T09:30:00.000Z" "0050-01-31T10:00:00.000Z" "month".

Definition census : Event :=
  event "e11" "census" "0000-01-31T09:30:00.000Z" "0000-01-31T10:00:00.000Z" "month".

(** A call at 13:00 whose end is no date. *)
Definition call : Event :=
  event "e12" "call" "2025-11-18T13:00:00.000Z" "garbage" "never".

(** A record whose description is a no-break space, U+00A0. *)
Definition no_break_space : string :=
  String (ascii_of_nat 194) (String (ascii_of_nat 160) EmptyString).

Definition unnamed : Event :=
  event "e13" no_break_space "2025-11-18T09:00:00.000Z" "2025-11-18T09:30:00.000Z" "never".

(** A store without settings that pass validation: the colour theme
    is a number. *)
Definition odd_settings : Service :=
  mkService (Some [EObj lunch]) (Some (mkSettings (VStr "day") (VNum (Num 1)))) [].
End Examples.

(* ================================================================== *)
(** * Tactics *)
(* ================================================================== *)

(** A month written as a numeral or as a sum of numerals. *)
Ltac month_literal c :=
  lazymatch c with
  | Z0 => idtac
  | Zpos _ => idtac
  | (?a + ?b)%Z => month_literal a; month_literal b
  end.

(** Replaces [monthStart l c], for a literal [c], by its value. *)
Ltac eval_monthStart :=
  repeat match goal with
         | |- context [Calendar.monthStart ?l ?c] =>
             month_literal c;
             let v := eval vm_compute in (Calendar.monthStart l c) in
             change (Calendar.monthStart l c) with v
         | H : context [Calendar.monthStart ?l ?c] |- _ =>
             month_literal c;
             let v := eval vm_compute in (Calendar.monthStart l c) in
             change (Calendar.monthStart l c) with v in H
         end.

(** Linear arithmetic once the lengths of the units of time are
    written out. *)
Ltac time_lia :=
  unfold Calendar.maxTime, Calendar.msPerDay, Calendar.msPerHour,
    Calendar.msPerMinute, Calendar.msPerSecond, HOUR_MS in *;
  lia.

(** Equality of two results that hold a triple of counters. *)
Ltac triple_eq :=
  apply f_equal; apply f_equal2; [ apply f_equal2 | ]; lia.

(** Decides the tests [a <? b] of the goal, one after the other. *)
Ltac split_ltb :=
  repeat match goal with
         | |- context [(?a <? ?b)%Z] => destruct (Z.ltb_spec a b); try lia
         end.

(* ================================================================== *)
(** * Properties *)
(* ================================================================== *)

Unset Implicit Arguments.

(** ** The calendar *)

Module CalendarFacts.
Import Calendar.
Local Open Scope Z_scope.

Lemma isLeap_true_iff (y : Z) :
  isLeap y = true <-> y mod 4 = 0 /\ (y mod 100 <> 0 \/ y mod 400 = 0).
Proof.
  unfold isLeap.
  rewrite andb_true_iff, orb_true_iff, negb_true_iff, !Z.eqb_eq, Z.eqb_neq.
  tauto.
Qed.

Lemma DayFromYear_succ (y : Z) :
  DayFromYear (y + 1) = DayFromYear y + DaysInYear y.
Proof.
  unfold DayFromYear, DaysInYear.
  destruct (isLeap y) eqn:L.
  - apply isLeap_true_iff in L. Z.div_mod_to_equations. lia.
  - assert (N : ~ (y mod 4 = 0 /\ (y mod 100 <> 0 \/ y mod 400 = 0))).
    { rewrite <- isLeap_true_iff. congruence. }
    Z.div_mod_to_equations. lia.
Qed.

Lemma DayFromYear_mono (y1 y2 : Z) :
  y1 <= y2 -> DayFromYear y1 + 365 * (y2 - y1) <= DayFromYear y2.
Proof.
  intros H. unfold DayFromYear. Z.div_mod_to_equations. lia.
Qed.

Lemma YearFromDay_bracket (n : Z) :
  DayFromYear (YearFromDay n) <= n < DayFromYear (YearFromDay n + 1).
Proof.
  unfold YearFromDay.
  set (y := 1970 + 400 * n / 146097).
  assert (Hlo : DayFromYear (y - 1) <= n).
  { unfold y, DayFromYear. Z.div_mod_to_equations. lia. }
  assert (Hhi : n < DayFromYear (y + 1 + 1)).
  { unfold y, DayFromYear. Z.div_mod_to_equations. lia. }
  destruct (n <? DayFromYear y) eqn:E1.
  - apply Z.ltb_lt in E1. replace (y - 1 + 1) with y by lia. lia.
  - apply Z.ltb_ge in E1.
    destruct (DayFromYear (y + 1) <=? n) eqn:E2.
    + apply Z.leb_le in E2. lia.
    + apply Z.leb_gt in E2. lia.
Qed.

Lemma YearFromDay_unique (n y : Z) :
  DayFromYear y <= n < DayFromYear (y + 1) -> YearFromDay n = y.
Proof.
  intros H. pose proof (YearFromDay_bracket n) as B.
  destruct (Z.lt_trichotomy (YearFromDay n) y) as [L | [E | G]]; [ | exact E | ].
  - pose proof (DayFromYear_mono (YearFromDay n + 1) y ltac:(lia)). lia.
  - pose proof (DayFromYear_mono (y + 1) (YearFromDay n) ltac:(lia)). lia.
Qed.

Lemma YearFromDay_in_year (y k : Z) :
  0 <= k < DaysInYear y -> YearFromDay (DayFromYear y + k) = y.
Proof.
  intros H. apply YearFromDay_unique. rewrite DayFromYear_succ. lia.
Qed.

Lemma month_cases (m : Z) :
  0 <= m <= 11 ->
  m = 0 \/ m = 1 \/ m = 2 \/ m = 3 \/ m = 4 \/ m = 5 \/ m = 6
  \/ m = 7 \/ m = 8 \/ m = 9 \/ m = 10 \/ m = 11.
Proof. lia. Qed.

Lemma monthStart_DaysInYear (y : Z) : monthStart (isLeap y) 12 = DaysInYear y.
Proof. unfold DaysInYear. destruct (isLeap y); reflexivity. Qed.

(** Day [d] of month [m] is the [monthStart + d - 1]-th day of its
    year, and [monthOfDay] finds the month again. *)
Lemma monthOfDay_monthStart (l : bool) (m d : Z) :
  0 <= m <= 11 ->
  1 <= d <= monthStart l (m + 1) - monthStart l m ->
  monthOfDay l (monthStart l m + d - 1) = m
  /\ 0 <= monthStart l m + d - 1 < monthStart l 12.
Proof.
  intros Hm Hd.
  destruct (month_cases m Hm) as [E|[E|[E|[E|[E|[E|[E|[E|[E|[E|[E|E]]]]]]]]]]];
    subst m; destruct l; unfold monthOfDay; eval_monthStart;
    (split; [ split_ltb | lia ]).
Qed.

Lemma fields_of_day (y m d n : Z) :
  0 <= m <= 11 ->
  1 <= d <= DaysInMonth y m ->
  n = DayFromYear y + monthStart (isLeap y) m + d - 1 ->
  YearFromDay n = y
  /\ monthOfDay (isLeap y) (n - DayFromYear y) = m
  /\ n - DayFromYear y - monthStart (isLeap y) m + 1 = d.
Proof.
  intros Hm Hd ->. unfold DaysInMonth in Hd.
  destruct (monthOfDay_monthStart (isLeap y) m d Hm Hd) as [M R].
  rewrite monthStart_DaysInYear in R.
  split; [ | split ].
  - replace (DayFromYear y + monthStart (isLeap y) m + d - 1)
      with (DayFromYear y + (monthStart (isLeap y) m + d - 1)) by lia.
    apply YearFromDay_in_year. exact R.
  - replace (DayFromYear y + monthStart (isLeap y) m + d - 1 - DayFromYear y)
      with (monthStart (isLeap y) m + d - 1) by lia.
    exact M.
  - lia.
Qed.

Lemma fields_of_time (y m d t : Z) :
  0 <= m <= 11 ->
  1 <= d <= DaysInMonth y m ->
  Day t = DayFromYear y + monthStart (isLeap y) m + d - 1 ->
  YearFromTime t = y /\ MonthFromTime t = m /\ DateFromTime t = d.
Proof.
  intros Hm Hd Ht.
  destruct (fields_of_day y m d (Day t) Hm Hd Ht) as (Y & Mo & D).
  unfold DateFromTime, MonthFromTime, InLeapYear, DayWithinYear, YearFromTime.
  rewrite Y.
  split; [ reflexivity | split; [ exact Mo | rewrite Mo; exact D ] ].
Qed.

(** Conversely, the fields of a time give its day number. *)
Lemma monthOfDay_range (l : bool) (k : Z) :
  0 <= k < monthStart l 12 ->
  0 <= monthOfDay l k <= 11
  /\ monthStart l (monthOfDay l k) <= k < monthStart l (monthOfDay l k + 1).
Proof.
  intros H.
  assert (C : k < monthStart l 1
              \/ monthStart l 1 <= k < monthStart l 2
              \/ monthStart l 2 <= k < monthStart l 3
              \/ monthStart l 3 <= k < monthStart l 4
              \/ monthStart l 4 <= k < monthStart l 5
              \/ monthStart l 5 <= k < monthStart l 6
              \/ monthStart l 6 <= k < monthStart l 7
              \/ monthStart l 7 <= k < monthStart l 8
              \/ monthStart l 8 <= k < monthStart l 9
              \/ monthStart l 9 <= k < monthStart l 10
              \/ monthStart l 10 <= k < monthStart l 11
              \/ monthStart l 11 <= k).
  { destruct l; eval_monthStart; lia. }
  unfold monthOfDay.
  destruct l; eval_monthStart;
    destruct C as [C|[C|[C|[C|[C|[C|[C|[C|[C|[C|[C|C]]]]]]]]]]];
    split_ltb; cbv iota; eval_monthStart; lia.
Qed.

Lemma day_of_fields (t : Z) :
  let y := YearFromTime t in
  let m := MonthFromTime t in
  let d := DateFromTime t in
  0 <= m <= 11 /\ 1 <= d <= DaysInMonth y m
  /\ Day t = DayFromYear y + monthStart (isLeap y) m + d - 1.
Proof.
  intros y m d.
  pose proof (YearFromDay_bracket (Day t)) as B.
  fold (YearFromTime t) in B. fold y in B.
  rewrite DayFromYear_succ, <- monthStart_DaysInYear in B.
  assert (R : 0 <= Day t - DayFromYear y < monthStart (isLeap y) 12) by lia.
  destruct (monthOfDay_range (isLeap y) _ R) as [Rm Rk].
  unfold DaysInMonth.
  subst d m. unfold DateFromTime, MonthFromTime, DayWithinYear, InLeapYear.
  fold y. lia.
Qed.
End CalendarFacts.

Import Calendar JsOps JsDate EventService CalendarFacts.
Local Open Scope Z_scope.

(** ** Dates *)

Section DateFacts.
Context {rt : Runtime}.

Lemma TimeClip_in_range (t : Z) :
  - maxTime <= t <= maxTime -> TimeClip t = Num t.
Proof.
  intros H. unfold TimeClip.
  destruct (Z.leb_spec (Z.abs t) maxTime); [ reflexivity | lia ].
Qed.

Lemma TimeClip_Num (t u : Z) :
  TimeClip t = Num u -> u = t /\ - maxTime <= t <= maxTime.
Proof.
  unfold TimeClip. destruct (Z.leb_spec (Z.abs t) maxTime); [ | discriminate ].
  intros E. injection E as <-. lia.
Qed.

Lemma clip_Num (n : JsNum) (u : Z) :
  clip n = Num u -> n = Num u /\ - maxTime <= u <= maxTime.
Proof.
  destruct n as [ | t]; [ discriminate | ]. cbn.
  intros E. apply TimeClip_Num in E. destruct E as [-> R]. auto.
Qed.

Lemma new_Date_in_range (v : JsVal) (t : Z) :
  new_Date v = Num t -> - maxTime <= t <= maxTime.
Proof.
  unfold new_Date. destruct v; intros E; apply clip_Num in E; tauto.
Qed.

Lemma MakeDay_in_year (y m d : Z) :
  0 <= m <= 11 ->
  MakeDay y m d = DayFromYear y + monthStart (isLeap y) m + d - 1.
Proof.
  intros H. unfold MakeDay.
  rewrite Z.div_small, Z.mod_small by lia.
  rewrite Z.add_0_r. reflexivity.
Qed.

Lemma Day_midnight (n : Z) : Day (n * msPerDay) = n.
Proof. unfold Day. apply Z.div_mul. discriminate. Qed.

Lemma Day_bounds (t : Z) : Day t * msPerDay <= t < Day t * msPerDay + msPerDay.
Proof. unfold Day, msPerDay. Z.div_mod_to_equations. lia. Qed.

Lemma Date_ymd_midnight (y m d : Z) :
  MakeFullYear y = y ->
  - maxTime <= MakeDay y m d * msPerDay - LocalTZA <= maxTime ->
  Date_ymd (Num y) (Num m) (Num d) = Num (MakeDay y m d * msPerDay - LocalTZA).
Proof.
  intros Hy R. unfold Date_ymd, UTC, MakeDate, MakeTime. rewrite Hy.
  replace (MakeDay y m d * msPerDay + (0 * msPerHour + 0 * msPerMinute + 0 * msPerSecond + 0) - LocalTZA)
    with (MakeDay y m d * msPerDay - LocalTZA) by lia.
  apply TimeClip_in_range. exact R.
Qed.

(** No year starts in the last two months of the range of time values. *)
Lemma DayFromYear_not_near_end (y : Z) :
  ~ (100000000 - 62 <= DayFromYear y <= 100000000 - 29).
Proof.
  unfold DayFromYear. Z.div_mod_to_equations. lia.
Qed.

Lemma end_of_february_in_range (t y l : Z) :
  - maxTime <= t <= maxTime ->
  Day (LocalTime t) = DayFromYear y + 30 ->
  0 <= l <= 1 ->
  - maxTime <= (DayFromYear y + 58 + l) * msPerDay - LocalTZA <= maxTime.
Proof.
  intros Rt Hd Hl.
  pose proof (Day_bounds (LocalTime t)) as B. rewrite Hd in B.
  pose proof LocalTZA_range as TZ.
  pose proof (DayFromYear_not_near_end y) as N.
  unfold LocalTime in B. unfold maxTime, msPerDay in *. lia.
Qed.

Lemma getter_Num (f : Z -> Z) (t v : Z) :
  getter f (Num t) = Num v -> f (LocalTime t) = v.
Proof. cbn. congruence. Qed.

Lemma fields_at_local_midnight (y m d : Z) :
  0 <= m <= 11 -> 1 <= d <= DaysInMonth y m ->
  let T := MakeDay y m d * msPerDay - LocalTZA in
  getFullYear (Num T) = Num y /\ getMonth (Num T) = Num m
  /\ getDate (Num T) = Num d.
Proof.
  intros Hm Hd T.
  assert (L : LocalTime T = MakeDay y m d * msPerDay) by (unfold LocalTime, T; lia).
  assert (D : Day (LocalTime T) = DayFromYear y + monthStart (isLeap y) m + d - 1).
  { rewrite L, Day_midnight. apply MakeDay_in_year. exact Hm. }
  destruct (fields_of_time y m d (LocalTime T) Hm Hd D) as (Y & Mo & Da).
  unfold getFullYear, getMonth, getDate, getter. rewrite Y, Mo, Da. auto.
Qed.
End DateFacts.

(** ** The monthly step *)

Section MonthlyStep.
Context {rt : Runtime}.

(** An occurrence that starts on 31 January of a year that
    [new Date(year, month, day)] takes as written, not one from 0 to
    99, which it reads as 1900 + year: the step that
    [getMsToSameDateInNextMonth] returns leads from its start to a time
    of the same year whose local date is in February, on the 29th in a
    leap year and on the 28th otherwise, the last day of that month,
    to which the day of the month is clamped. *)
Theorem getMsToSameDateInNextMonth_jan31 (event : Event) (t y : Z) :
  new_Date (start event) = Num t ->
  getFullYear (Num t) = Num y ->
  y < 0 \/ 99 < y ->
  getMonth (Num t) = Num 0 ->
  getDate (Num t) = Num 31 ->
  exists d : Z,
    getMsToSameDateInNextMonth event = Num d
    /\ getFullYear (Num (t + d)) = Num y
    /\ getMonth (Num (t + d)) = Num 1
    /\ getDate (Num (t + d)) = Num (if isLeap y then 29 else 28).
Proof.
  intros Hs Hy Hc Hm Hd.
  pose proof (new_Date_in_range _ _ Hs) as Rt.
  pose proof Hy as Hy0. pose proof Hm as Hm0. pose proof Hd as Hd0.
  apply getter_Num in Hy. apply getter_Num in Hm. apply getter_Num in Hd.
  destruct (day_of_fields (LocalTime t)) as (_ & _ & Dt).
  rewrite Hy, Hm, Hd in Dt.
  change (monthStart (isLeap y) 0) with 0 in Dt.
  assert (Dt' : Day (LocalTime t) = DayFromYear y + 30) by lia.
  set (l := if isLeap y then 1 else 0).
  set (last := if isLeap y then 29 else 28).
  assert (Hl : 0 <= l <= 1) by (unfold l; destruct (isLeap y); lia).
  pose proof (end_of_february_in_range t y l Rt Dt' Hl) as RT.
  assert (Fy : MakeFullYear y = y).
  { unfold MakeFullYear.
    destruct (Z.leb_spec 0 y), (Z.leb_spec y 99); cbn; try reflexivity. lia. }
  assert (M0 : MakeDay y 2 0 = DayFromYear y + 58 + l).
  { rewrite MakeDay_in_year by lia. unfold l. destruct (isLeap y); cbn; lia. }
  assert (M1 : MakeDay y 1 last = DayFromYear y + 58 + l).
  { rewrite MakeDay_in_year by lia. unfold l, last. destruct (isLeap y); cbn; lia. }
  assert (Dim : 1 <= last <= DaysInMonth y 1).
  { unfold DaysInMonth, last. destruct (isLeap y); cbn; lia. }
  destruct (fields_at_local_midnight y 1 last ltac:(lia) Dim) as (Y1 & Mo1 & Da1).
  rewrite M1 in Y1, Mo1, Da1.
  exists ((DayFromYear y + 58 + l) * msPerDay - LocalTZA - t).
  replace (t + ((DayFromYear y + 58 + l) * msPerDay - LocalTZA - t))
    with ((DayFromYear y + 58 + l) * msPerDay - LocalTZA) by lia.
  split; [ | auto ].
  unfold getMsToSameDateInNextMonth. rewrite Hs.
  rewrite Hy0, Hm0, Hd0. cbn [JsNumOps.add JsNumOps.gt JsNumOps.lt].
  change (0 + 1) with 1. change (11 <? 1) with false. cbv iota beta.
  change (JsNumOps.add (Num 1) (Num 1)) with (Num 2).
  rewrite (Date_ymd_midnight y 2 0 Fy) by (rewrite M0; exact RT).
  rewrite M0, Da1. cbn [JsNumOps.min].
  replace (Z.min 31 last) with last by (unfold last; destruct (isLeap y); lia).
  rewrite (Date_ymd_midnight y 1 last Fy) by (rewrite M1; exact RT).
  rewrite M1. reflexivity.
Qed.

Lemma DaysInMonth_bounds (y m : Z) :
  0 <= m <= 11 -> 28 <= DaysInMonth y m <= 31.
Proof.
  intros Hm. unfold DaysInMonth.
  destruct (month_cases m Hm) as [E|[E|[E|[E|[E|[E|[E|[E|[E|[E|[E|E]]]]]]]]]]];
    subst m; destruct (isLeap y); eval_monthStart; lia.
Qed.

(** Day 0 of the month after [m] is the last day of [m]. *)
Lemma MakeDay_month_end (y m : Z) :
  0 <= m <= 11 -> MakeDay y (m + 1) 0 = MakeDay y m (DaysInMonth y m).
Proof.
  intros Hm. rewrite (MakeDay_in_year y m) by exact Hm. unfold DaysInMonth.
  destruct (Z.eq_dec m 11) as [-> | N].
  - unfold MakeDay. change ((11 + 1) / 12) with 1. change ((11 + 1) mod 12) with 0.
    rewrite DayFromYear_succ, <- monthStart_DaysInYear.
    change (monthStart (isLeap (y + 1)) 0) with 0.
    change (11 + 1) with 12. lia.
  - rewrite MakeDay_in_year by lia. lia.
Qed.

(** From a day of month [m] to a day of the month after it there are
    at least one and at most 61 days. *)
Lemma next_month_distance (y m d d' : Z) :
  0 <= m <= 11 -> 1 <= d <= DaysInMonth y m ->
  let y' := if m =? 11 then y + 1 else y in
  let m' := if m =? 11 then 0 else m + 1 in
  1 <= d' <= DaysInMonth y' m' ->
  0 <= m' <= 11
  /\ 1 <= MakeDay y' m' d' - (DayFromYear y + monthStart (isLeap y) m + d - 1) <= 61.
Proof.
  intros Hm Hd y' m'. unfold y', m', DaysInMonth in *. clear y' m'.
  destruct (month_cases m Hm) as [E|[E|[E|[E|[E|[E|[E|[E|[E|[E|[E|E]]]]]]]]]]];
    subst m; cbn [Z.eqb Pos.eqb]; intros Hd';
    (split; [ lia | ]);
    rewrite MakeDay_in_year by lia;
    try rewrite DayFromYear_succ; unfold DaysInYear;
    repeat match goal with
           | H : context [isLeap ?x] |- _ => destruct (isLeap x)
           | |- context [isLeap ?x] => destruct (isLeap x)
           end;
    eval_monthStart; lia.
Qed.

(** X17.  From any day of a month, [getMsToSameDateInNextMonth] steps
    to the same day of the month after it, or to the last day of that
    month when it is shorter, in January of the next year after
    December, and always to local midnight of that day. *)
Lemma getMsToSameDateInNextMonth_lands (event : Event) (t y m d : Z) :
  new_Date (start event) = Num t ->
  getFullYear (Num t) = Num y ->
  getMonth (Num t) = Num m ->
  getDate (Num t) = Num d ->
  let y' := if m =? 11 then y + 1 else y in
  let m' := if m =? 11 then 0 else m + 1 in
  let d' := Z.min d (DaysInMonth y' m') in
  y' < 0 \/ 99 < y' ->
  t <= maxTime - 62 * msPerDay ->
  exists delta : Z,
    getMsToSameDateInNextMonth event = Num delta
    /\ getFullYear (Num (t + delta)) = Num y'
    /\ getMonth (Num (t + delta)) = Num m'
    /\ getDate (Num (t + delta)) = Num d'
    /\ TimeWithinDay (LocalTime (t + delta)) = 0.
Proof.
  intros Hs Hy Hm Hd y' m' d' Hc Ru.
  pose proof (new_Date_in_range _ _ Hs) as Rt.
  pose proof Hy as Hy0. pose proof Hm as Hm0. pose proof Hd as Hd0.
  apply getter_Num in Hy. apply getter_Num in Hm. apply getter_Num in Hd.
  pose proof (day_of_fields (LocalTime t)) as F. cbv zeta in F.
  rewrite Hy, Hm, Hd in F. destruct F as (Rm & Rd & Dt).
  pose proof (Day_bounds (LocalTime t)) as B.
  pose proof LocalTZA_range as TZ.
  assert (Fy : MakeFullYear y' = y').
  { unfold MakeFullYear.
    destruct (Z.leb_spec 0 y'), (Z.leb_spec y' 99); cbn; try reflexivity. lia. }
  assert (Rm' : 0 <= m' <= 11) by (unfold m'; destruct (Z.eqb_spec m 11); lia).
  pose proof (DaysInMonth_bounds y' m' Rm') as Bd.
  assert (Rd' : 1 <= d' <= DaysInMonth y' m') by (unfold d'; lia).
  assert (Rl : 1 <= DaysInMonth y' m' <= DaysInMonth y' m') by lia.
  destruct (next_month_distance y m d d' Rm Rd Rd') as [_ N1].
  destruct (next_month_distance y m d (DaysInMonth y' m') Rm Rd Rl) as [_ N2].
  fold y' m' in N1, N2. rewrite <- Dt in N1, N2.
  assert (R1 : - maxTime <= MakeDay y' m' d' * msPerDay - LocalTZA <= maxTime)
    by (unfold LocalTime in *; time_lia).
  assert (R2 : - maxTime <= MakeDay y' (m' + 1) 0 * msPerDay - LocalTZA <= maxTime).
  { rewrite MakeDay_month_end by exact Rm'. unfold LocalTime in *. time_lia. }
  destruct (fields_at_local_midnight y' m' d' Rm' Rd') as (Y1 & Mo1 & Da1).
  destruct (fields_at_local_midnight y' m' (DaysInMonth y' m') Rm' Rl) as (_ & _ & Da2).
  exists (MakeDay y' m' d' * msPerDay - LocalTZA - t).
  replace (t + (MakeDay y' m' d' * msPerDay - LocalTZA - t))
    with (MakeDay y' m' d' * msPerDay - LocalTZA) by lia.
  split; [ | split; [ exact Y1 | split; [ exact Mo1 | split; [ exact Da1 | ] ] ] ].
  - unfold getMsToSameDateInNextMonth. rewrite Hs, Hy0, Hm0, Hd0.
    cbn [JsNumOps.add JsNumOps.gt JsNumOps.lt].
    assert (E : (if 11 <? m + 1 then (Num 0, Num (y + 1)) else (Num (m + 1), Num y))
                = (Num m', Num y')).
    { unfold m', y'. destruct (Z.eqb_spec m 11) as [-> | N].
      - reflexivity.
      - destruct (Z.ltb_spec 11 (m + 1)); [ lia | reflexivity ]. }
    rewrite E. cbn [JsNumOps.add].
    rewrite (Date_ymd_midnight y' (m' + 1) 0 Fy R2).
    rewrite MakeDay_month_end by exact Rm'. rewrite Da2.
    cbn [JsNumOps.min]. fold d'.
    rewrite (Date_ymd_midnight y' m' d' Fy R1). reflexivity.
  - unfold TimeWithinDay, LocalTime.
    replace (MakeDay y' m' d' * msPerDay - LocalTZA + LocalTZA)
      with (MakeDay y' m' d' * msPerDay) by lia.
    apply Z.mod_mul. discriminate.
Qed.
End MonthlyStep.

(** ** Operators on dates and on text *)

Section OperatorFacts.
Context {rt : Runtime}.

Lemma js_le_dates (a b : JsNum) :
  js_le (VDate a) (VDate b) = JsNumOps.le a b.
Proof.
  unfold js_le, js_less. cbn.
  destruct a as [ | x], b as [ | y]; cbn; try reflexivity.
  rewrite Z.leb_antisym. reflexivity.
Qed.

Lemma js_lt_dates (a b : JsNum) :
  js_lt (VDate a) (VDate b) = JsNumOps.lt a b.
Proof.
  unfold js_lt, js_less. cbn.
  destruct a as [ | x], b as [ | y]; reflexivity.
Qed.

Lemma js_ge_dates (a b : JsNum) :
  js_ge (VDate a) (VDate b) = JsNumOps.le b a.
Proof. apply js_le_dates. Qed.

Lemma js_gt_dates (a b : JsNum) :
  js_gt (VDate a) (VDate b) = JsNumOps.lt b a.
Proof. apply js_lt_dates. Qed.

Lemma StringToNumber_no_literal (c : ascii) (r : string) :
  no_literal_start c -> Text.StringToNumber (String c r) = NaN.
Proof.
  intros (W & L & D & P & M).
  assert (E : Text.skip_ws (String c r) = String c r).
  { cbn [Text.skip_ws]. rewrite W.
    destruct r as [ | c1 [ | c2 r2]]; try reflexivity;
      unfold Text.is_ws2, Text.is_ws3; rewrite L; reflexivity. }
  unfold Text.StringToNumber. rewrite E, P, M.
  unfold Text.read_unsigned. rewrite D. reflexivity.
Qed.

Lemma weekDayName_head (wd : Z) :
  exists c r, weekDayName wd = String c r /\ no_literal_start c.
Proof.
  unfold weekDayName.
  repeat match goal with
         | |- context [?a =? ?b] => destruct (a =? b)
         end;
    eexists; eexists; (split; [ reflexivity | repeat split ]).
Qed.

Lemma Date_toString_head (tv : JsNum) :
  exists c r, Date_toString tv = String c r /\ no_literal_start c.
Proof.
  destruct tv as [ | t].
  - eexists; eexists. split; [ reflexivity | repeat split ].
  - unfold Date_toString, DateString.
    destruct (weekDayName_head (WeekDay (LocalTime t))) as (c & r & E & N).
    rewrite E. cbn [append]. eexists; eexists. split; [ reflexivity | exact N ].
Qed.

(** A [Date] plus a number is text: the date as [toString] prints it,
    followed by the digits of the number. *)
Lemma js_add_Date_number (tv n : JsNum) :
  js_add (VDate tv) (VNum n)
  = VStr (Date_toString tv ++ Text.NumberToString n).
Proof. reflexivity. Qed.

(** Such a text is not a number, and no comparison with it holds. *)
Lemma date_text_not_le (tv n d : JsNum) :
  js_le (js_add (VDate tv) (VNum n)) (VDate d) = false.
Proof.
  rewrite js_add_Date_number.
  destruct (Date_toString_head tv) as (c & r & E & N).
  unfold js_le, js_less. cbn [ToPrimitive_number ToNumber].
  rewrite E. cbn [append]. rewrite (StringToNumber_no_literal _ _ N).
  destruct d; reflexivity.
Qed.

Lemma ex_Num (a : Z) (P : Z -> Prop) :
  (exists x, Num a = Num x /\ P x) <-> P a.
Proof.
  split.
  - intros (x & E & H). injection E as <-. exact H.
  - intros H. exists a. auto.
Qed.

Lemma ex_NaN (P : Z -> Prop) :
  (exists x, NaN = Num x /\ P x) <-> False.
Proof. split; [ intros (x & E & _); discriminate | tauto ]. Qed.
End OperatorFacts.


(** ** Recurrence *)

Section Recurrence.
Context {rt : Runtime}.

Lemma repeateRule_appends_nothing (fuel : nat) (event : Event)
      (period : Period) (listToAdd : list Event) :
  repeateRule (S fuel) event period listToAdd = Some listToAdd.
Proof.
  unfold repeateRule.
  destruct (negb (strict_eq (repeat event) (VStr "never"))); [ | reflexivity ].
  cbn [repeateRule_loop]. cbn [start set_start_end].
  rewrite date_text_not_le. reflexivity.
Qed.
End Recurrence.


(** ** The actuality predicate *)

Section Actuality.
Context {rt : Runtime}.

(** C8.  [actualEventsFilter] holds exactly when the event starts at
    most ten hours after now and not before now, or ends at most two
    hours before now and not after now, or has now between its start
    and its end, both included. *)
Theorem actualEventsFilter_spec (now : Z) (event : Event) :
  actualEventsFilter now event = true <->
  (exists s, new_Date (start event) = Num s
             /\ s - now <= 10 * HOUR_MS /\ now <= s)
  \/ (exists e, new_Date (end_ event) = Num e
                /\ now - e <= 2 * HOUR_MS /\ e <= now)
  \/ (exists s, new_Date (start event) = Num s
                /\ exists e, new_Date (end_ event) = Num e
                             /\ s <= now <= e).
Proof.
  unfold actualEventsFilter, getTime.
  rewrite !js_ge_dates, !js_le_dates.
  rewrite !orb_true_iff, !andb_true_iff.
  destruct (new_Date (start event)) as [ | s], (new_Date (end_ event)) as [ | e];
    cbn [JsNumOps.le JsNumOps.sub];
    rewrite ?ex_Num, ?ex_NaN, ?Z.leb_le;
    intuition (try discriminate; try lia).
Qed.
End Actuality.

(** ** Retention *)

Section Retention.
Context {rt : Runtime}.

Lemma checkEventFields_repeat (event : Event) :
  checkEventFields (EObj event) = Ok true ->
  repeat event = VStr "never" \/ repeat event = VStr "day"
  \/ repeat event = VStr "week" \/ repeat event = VStr "month".
Proof.
  unfold checkEventFields.
  destruct (description event); try discriminate.
  destruct (Text.all_ws s); try discriminate.
  cbn [instanceof_Date negb].
  destruct (repeat event) as [ | | | | r | ]; try discriminate.
  cbn [existsb].
  destruct (String.eqb_spec r "never") as [-> | _]; [ auto | ].
  destruct (String.eqb_spec r "day") as [-> | _]; [ auto | ].
  destruct (String.eqb_spec r "week") as [-> | _]; [ auto | ].
  destruct (String.eqb_spec r "month") as [-> | _]; [ auto | ].
  discriminate.
Qed.

(** What [deleteFilter] tests once the event is known not to repeat. *)
Lemma older_spec (now limit : Z) (endD : JsNum) :
  0 <= limit ->
  (js_gt (VDate (Num now)) (VDate endD)
   && JsNumOps.gt (JsNumOps.sub (getTime (Num now)) (getTime endD)) (Num limit)
   = true
   <-> exists e, endD = Num e /\ limit < now - e).
Proof.
  intros Hl. rewrite js_gt_dates. unfold getTime, JsNumOps.gt.
  destruct endD as [ | e]; cbn [JsNumOps.lt JsNumOps.sub andb].
  - rewrite ex_NaN. split; [ discriminate | tauto ].
  - rewrite ex_Num, andb_true_iff, !Z.ltb_lt. lia.
Qed.

(** C7.  For a valid event and any setting, [deleteFilter] marks the
    event exactly when it does not repeat and now minus its end is
    strictly more than the grace period of the setting: 24 hours for
    [day], 7 days for [week], 31 days for [month].  Under [never]
    nothing is marked, and a repeating event never is.  Under [day] an
    event that ended exactly 24 hours ago is kept and one that ended a
    millisecond earlier is marked. *)
Theorem deleteFilter_spec (now : Z) (event : Event) (autoDelete : JsVal) :
  checkEventFields (EObj event) = Ok true ->
  (deleteFilter now event autoDelete = true <->
   repeat event = VStr "never"
   /\ exists limit, retentionLimit autoDelete = Some limit
      /\ exists e, new_Date (end_ event) = Num e /\ limit < now - e)
  /\ (autoDelete = VStr "never" -> deleteFilter now event autoDelete = false)
  /\ (repeat event <> VStr "never" -> deleteFilter now event autoDelete = false)
  /\ (forall e, repeat event = VStr "never" ->
                new_Date (end_ event) = Num e ->
                (now - e = 24 * HOUR_MS ->
                 deleteFilter now event (VStr "day") = false)
                /\ (now - e = 24 * HOUR_MS + 1 ->
                    deleteFilter now event (VStr "day") = true)).
Proof.
  intros V.
  assert (Main : forall ad,
    deleteFilter now event ad = true <->
    repeat event = VStr "never"
    /\ exists limit, retentionLimit ad = Some limit
       /\ exists e, new_Date (end_ event) = Num e /\ limit < now - e).
  { intros ad. unfold deleteFilter.
    destruct (checkEventFields_repeat event V) as [R | [R | [R | R]]];
      rewrite R; cbn [ToBoolean loose_eq_str ToPrimitive_default String.eqb
                      Ascii.eqb Bool.eqb negb andb];
      try (split; [ discriminate | intros [E _]; discriminate ]).
    unfold retentionLimit, strict_eq.
    destruct ad as [ | | b | n | s | tv ];
      try (split; [ discriminate | intros (_ & l & E & _); discriminate ]).
    destruct (String.eqb s "day"); [ | destruct (String.eqb s "week");
      [ | destruct (String.eqb s "month") ] ];
      try (rewrite older_spec by time_lia;
           split;
           [ intros H; split;
             [ reflexivity | eexists; split; [ reflexivity | exact H ] ]
           | intros (_ & l & E & H); injection E as <-; exact H ]).
    split; [ discriminate | intros (_ & l & E & _); discriminate ]. }
  split; [ apply Main | ].
  split; [ | split ].
  - intros ->. apply not_true_is_false. rewrite Main.
    intros (_ & l & E & _). discriminate.
  - intros N. apply not_true_is_false. rewrite Main. tauto.
  - intros e R E. split; intros D.
    + apply not_true_is_false. rewrite Main.
      intros (_ & l & L & e' & E' & H). cbn in L. injection L as <-.
      rewrite E in E'. injection E' as <-. time_lia.
    + apply Main. split; [ exact R | ].
      exists (24 * HOUR_MS). split; [ reflexivity | ].
      exists e. split; [ exact E | lia ].
Qed.

(** On a collection whose records are all valid the sweep keeps, in
    order, the records that [deleteFilter] does not mark. *)
Lemma autoDeleteEvents_scan_valid (now : Z) (autoDelete : JsVal) (l : list Entry) :
  forall deleteFilterDone : list Entry,
    Forall (fun ev => checkEventFields ev = Ok true) l ->
    autoDeleteEvents_scan now autoDelete l deleteFilterDone
    = Ok (deleteFilterDone
          ++ filter (fun ev => match ev with
                               | EObj e => negb (deleteFilter now e autoDelete)
                               | ENull => false
                               end) l).
Proof.
  induction l as [ | ev l IH]; intros acc V; cbn [autoDeleteEvents_scan filter].
  - rewrite app_nil_r. reflexivity.
  - inversion V as [ | ? ? Vev Vl ]; subst. rewrite Vev. cbn [andb].
    destruct ev as [ | e]; [ discriminate | ].
    destruct (deleteFilter now e autoDelete); cbn [negb].
    + apply IH. exact Vl.
    + rewrite IH by exact Vl. rewrite <- app_assoc. reflexivity.
Qed.

End Retention.

(** ** The dial *)

Section Geometry.

Lemma Qrem_360 (a : Q) :
  (0 <= a)%Q ->
  (0 <= DegOps.Qrem a 360 < 360)%Q
  /\ exists k : Z, (DegOps.Qrem a 360 == a - 360 * inject_Z k)%Q.
Proof.
  intros Ha. unfold DegOps.Qrem.
  set (q := (a / 360)%Q).
  assert (Hqa : (360 * q == a)%Q).
  { unfold q. apply Qmult_div_r. intros C. discriminate C. }
  assert (Hq : (0 <= q)%Q) by Lqa.lra.
  assert (Hn : (0 <= Qnum q)%Z).
  { unfold Qle in Hq. change (Qnum 0) with 0%Z in Hq. change (QDen 0) with 1%Z in Hq. lia. }
  rewrite Z.quot_div_nonneg by (try exact Hn; reflexivity).
  change (Qnum q / Zpos (Qden q))%Z with (Qfloor q).
  pose proof (Qfloor_le q) as L. pose proof (Qlt_floor q) as U.
  rewrite inject_Z_plus in U. change (inject_Z 1) with 1%Q in U.
  clearbody q.
  split; [ split; Lqa.lra | ].
  exists (Qfloor q). reflexivity.
Qed.

Lemma convertTimeToAngle_range (time : Calculate.Time) :
  (0 <= Calculate.h time < 24)%Z -> (0 <= Calculate.m time < 60)%Z ->
  (0 <= Calculate.convertTimeToAngle time < 360)%Q.
Proof.
  intros Hh Hm. unfold Calculate.convertTimeToAngle.
  set (n := (Calculate.h time * 60 + Calculate.m time)%Z).
  assert (Hn : (0 <= n)%Z) by (unfold n; lia).
  assert (H0 : (0 <= inject_Z n * (1 # 2))%Q).
  { assert (inject_Z 0 <= inject_Z n)%Q by (rewrite <- Zle_Qle; exact Hn).
    change (inject_Z 0) with 0%Q in H. Lqa.lra. }
  destruct (Qle_bool 360 (inject_Z n * (1 # 2))) eqn:E.
  - apply Qrem_360. exact H0.
  - split; [ exact H0 | ].
    apply Qnot_le_lt. intros C. apply Qle_bool_iff in C. congruence.
Qed.

(** C10.  For times of day with hours from 0 to 23 and minutes from
    0 to 59, [calculateAngles] returns an end angle in [0, 360) and a
    start angle in [-360, 360) that is not greater than the end angle.
    Hence an event that carries such a pair never meets the test
    [startAngle > endAngle]: [isThisEvent] decides it in the branch of
    the plain sector. *)
Theorem calculateAngles_range (event : Calculate.DialEvent) :
  (0 <= Calculate.h (Calculate.start event) < 24)%Z ->
  (0 <= Calculate.m (Calculate.start event) < 60)%Z ->
  (0 <= Calculate.h (Calculate.end_ event) < 24)%Z ->
  (0 <= Calculate.m (Calculate.end_ event) < 60)%Z ->
  let a := Calculate.calculateAngles event in
  (0 <= Calculate.endAngle a < 360)%Q
  /\ (- (360) <= Calculate.startAngle a < 360)%Q
  /\ (Calculate.startAngle a <= Calculate.endAngle a)%Q
  /\ forall (x y : R) (e : Event),
       startAngle e = Some (Calculate.startAngle a) ->
       endAngle e = Some (Calculate.endAngle a) ->
       DegOps.gt (startAngle e) (endAngle e) = false
       /\ isThisEvent x y e
          = if Rltb 200 (sqrt ((x - 240) ^ 2 + (y - 240) ^ 2))
            then false
            else inPlainSector (pointAngleOf x y) e.
Proof.
  intros Hh1 Hm1 Hh2 Hm2 a.
  pose proof (convertTimeToAngle_range _ Hh1 Hm1) as S.
  pose proof (convertTimeToAngle_range _ Hh2 Hm2) as E.
  assert (B : (0 <= Calculate.endAngle a < 360)%Q
              /\ (- (360) <= Calculate.startAngle a < 360)%Q
              /\ (Calculate.startAngle a <= Calculate.endAngle a)%Q).
  { unfold a, Calculate.calculateAngles. cbn [Calculate.startAngle Calculate.endAngle].
    unfold DegOps.Qltb.
    destruct (Qle_bool (Calculate.convertTimeToAngle (Calculate.start event))
                       (Calculate.convertTimeToAngle (Calculate.end_ event))) eqn:C;
      cbn [negb].
    - apply Qle_bool_iff in C. repeat split; Lqa.lra.
    - repeat split; Lqa.lra. }
  destruct B as (B1 & B2 & B3).
  split; [ exact B1 | split; [ exact B2 | split; [ exact B3 | ] ] ].
  intros x y e Hs He. apply Qle_bool_iff in B3. split.
  - rewrite Hs, He. unfold DegOps.gt, DegOps.lt, DegOps.Qltb.
    rewrite B3. reflexivity.
  - unfold isThisEvent. rewrite Hs, He. unfold DegOps.le.
    rewrite B3. reflexivity.
Qed.

(** C9.  Whatever the angles of the event, [isThisEvent] is false at a
    point whose distance from the centre (240, 240) of the dial is more
    than the radius, 200. *)
Theorem isThisEvent_outside_radius (x y : R) (event : Event) :
  (200 < sqrt ((x - 240) ^ 2 + (y - 240) ^ 2))%R ->
  isThisEvent x y event = false.
Proof.
  intros H. unfold isThisEvent, Rltb.
  destruct (Rlt_dec 200 (sqrt ((x - 240) ^ 2 + (y - 240) ^ 2)));
    [ reflexivity | contradiction ].
Qed.

End Geometry.

(** ** Identifiers *)

Section Identifiers.
Context {rt : Runtime}.

Lemma some_same_id_false (l : list Entry) (v : JsVal) :
  some_same_id l v = Ok false <-> Forall (differs_from v) l.
Proof.
  induction l as [ | en l IH]; cbn.
  - split; [ constructor | reflexivity ].
  - destruct en as [ | e].
    + split; [ discriminate | ]. intros H. inversion H as [ | ? ? F _ ]. destruct F.
    + cbn. destruct (strict_eq (id e) v) eqn:E.
      * split; [ discriminate | ].
        intros H. inversion H as [ | ? ? F _ ]. cbn in F. congruence.
      * rewrite IH. split.
        -- intros H. constructor; [ exact E | exact H ].
        -- intros H. inversion H. assumption.
Qed.

Lemma unique_ids_snoc (l : list Entry) (e : Event) :
  unique_ids l -> Forall (differs_from (id e)) l -> unique_ids (l ++ [EObj e]).
Proof.
  unfold unique_ids. intros U. induction U as [ | a l Ha U IH]; intros F; cbn.
  - constructor; constructor.
  - inversion F as [ | ? ? Fa Fl ]; subst. constructor.
    + apply Forall_app. split; [ exact Ha | ].
      constructor; [ exact Fa | constructor ].
    + apply IH. exact Fl.
Qed.

Lemma set_id_same (e : Event) : set_id (id e) e = e.
Proof. destruct e; reflexivity. Qed.

(** The loop settles on the first candidate that collides with no
    stored identifier. *)
Lemma generateEventId_loop_finds (gen : nat -> string) (l : list Entry) (n : nat) :
  forall (fuel k : nat) (event : Event),
    (forall j, (j < n)%nat ->
       some_same_id l (candidate (fun i => gen (k + i)%nat) event j) = Ok true) ->
    some_same_id l (candidate (fun i => gen (k + i)%nat) event n) = Ok false ->
    (n < fuel)%nat ->
    generateEventId_loop fuel gen k event l
    = Some (Ok (set_id (candidate (fun i => gen (k + i)%nat) event n) event)).
Proof.
  induction n as [ | n IH]; intros fuel k event Hc Hf Hn.
  - destruct fuel as [ | fuel]; [ lia | ]. cbn in Hf |- *.
    rewrite Hf, set_id_same. reflexivity.
  - destruct fuel as [ | fuel]; [ lia | ]. cbn [generateEventId_loop].
    pose proof (Hc 0%nat ltac:(lia)) as H0. cbn [candidate] in H0. rewrite H0.
    rewrite (IH fuel (S k) (set_id (VStr (gen k)) event)).
    + destruct n as [ | n]; cbn [candidate]; cbn [id set_id].
      * rewrite Nat.add_0_r. reflexivity.
      * rewrite Nat.add_succ_r. reflexivity.
    + intros j Hj. specialize (Hc (S j) ltac:(lia)).
      destruct j as [ | j]; cbn [candidate] in Hc |- *; cbn [id set_id].
      * rewrite Nat.add_0_r in Hc. exact Hc.
      * rewrite Nat.add_succ_r in Hc. exact Hc.
    + destruct n as [ | n]; cbn [candidate] in Hf |- *; cbn [id set_id].
      * rewrite Nat.add_0_r in Hf. exact Hf.
      * rewrite Nat.add_succ_r in Hf. exact Hf.
    + lia.
Qed.

(** Rebuilding the derived view leaves the stored events as they are,
    and does not run out of fuel. *)
Lemma keeps_ret {A} (a : A) : keeps_events (ret a).
Proof. intros s. exists (Ok a), s. auto. Qed.

Lemma keeps_throw {A} (e : JsError) : keeps_events (@throw A e).
Proof. intros s. exists (Throw e), s. auto. Qed.

Lemma keeps_bind {A B} (m : M A) (k : A -> M B) :
  keeps_events m -> (forall a, keeps_events (k a)) -> keeps_events (bind m k).
Proof.
  intros Hm Hk s. destruct (Hm s) as (r & s1 & E & F).
  unfold bind. rewrite E. destruct r as [a | e].
  - destruct (Hk a s1) as (r2 & s2 & E2 & F2). exists r2, s2.
    split; [ exact E2 | congruence ].
  - exists (Throw e), s1. auto.
Qed.

Lemma keeps_loadEvents : keeps_events loadEvents.
Proof.
  intros s. unfold loadEvents.
  destruct (events_file s) eqn:E; eexists; exists s; (split; [ reflexivity | exact E ]).
Qed.

Lemma uploadActualEvents_step_keeps (fuel : nat) (now : Z) (ev : Entry) :
  keeps_events (uploadActualEvents_step (S fuel) now ev).
Proof.
  intros s. unfold uploadActualEvents_step.
  destruct ev as [ | e]; [ apply keeps_throw | ].
  unfold bind at 1. cbn [get_service].
  rewrite repeateRule_appends_nothing.
  unfold bind at 1. cbn [put_service].
  destruct (checkEventFields (EObj e)) as [ok | err]; cbn [lift_result].
  - unfold bind at 1. cbn [ret].
    destruct (ok && actualEventsFilter now e).
    + destruct (addAnglesToEvent now e) as [e' | err]; cbn [lift_result];
        unfold bind; cbn; eexists; eexists; split; reflexivity.
    + eexists; eexists; split; reflexivity.
  - eexists; eexists; split; reflexivity.
Qed.

Lemma for_each_keeps {A} (f : A -> M unit) (l : list A) :
  (forall a, keeps_events (f a)) -> keeps_events (for_each f l).
Proof.
  intros H. induction l as [ | a l IH]; cbn.
  - apply keeps_ret.
  - apply keeps_bind; [ apply H | intros _; exact IH ].
Qed.

Lemma uploadActualEvents_keeps (fuel : nat) (now : Z) :
  keeps_events (uploadActualEvents (S fuel) now).
Proof.
  intros s. unfold uploadActualEvents.
  unfold bind at 1. cbn [get_service].
  unfold bind at 1. cbn [put_service].
  destruct (keeps_bind loadEvents
              (fun l => for_each (uploadActualEvents_step (S fuel) now) l)
              keeps_loadEvents
              (fun l => for_each_keeps _ l (uploadActualEvents_step_keeps fuel now))
              (set_actualEvents [] s)) as (r & s' & E & F).
  exists r, s'. split; [ exact E | exact F ].
Qed.

(** C5, amended.  [createNewEvent] keeps the identifier the event
    comes with when that is strictly equal to no stored identifier;
    otherwise it draws generated identifiers until one is strictly
    equal to none.  The event is stored under the identifier the loop
    settles on, which differs from every stored identifier, so that
    identifiers that were pairwise distinct stay so. *)
Theorem createNewEvent_id (fuel : nat) (now : Z) (gen : nat -> string)
        (event : Event) (s : Service) (n : nat) :
  checkEventFields (EObj event) = Ok true ->
  (forall j, (j < n)%nat ->
     some_same_id (stored s) (candidate gen event j) = Ok true) ->
  some_same_id (stored s) (candidate gen event n) = Ok false ->
  (n < fuel)%nat ->
  exists r s',
    createNewEvent fuel now gen (EObj event) s = Some (r, s')
    /\ events_file s'
       = Some (stored s ++ [EObj (set_id (candidate gen event n) event)])
    /\ Forall (differs_from (candidate gen event n)) (stored s)
    /\ (unique_ids (stored s) ->
        unique_ids (stored s ++ [EObj (set_id (candidate gen event n) event)])).
Proof.
  intros V Hc Hf Hn.
  destruct fuel as [ | fuel]; [ lia | ].
  pose proof (generateEventId_loop_finds gen (stored s) n (S fuel) 0 event) as L.
  cbn [Nat.add] in L.
  assert (Eg : (fun i : nat => gen i) = gen) by reflexivity.
  rewrite Eg in L. specialize (L Hc Hf Hn).
  set (e' := set_id (candidate gen event n) event) in *.
  destruct (uploadActualEvents_keeps fuel now
              (set_events_file (stored s ++ [EObj e']) s)) as (r & s' & E & F).
  exists r, s'.
  split; [ | split; [ | split ] ].
  - unfold createNewEvent. rewrite V. cbn [lift_result].
    unfold bind at 1. cbn [ret].
    unfold bind at 1.
    assert (El : loadEvents s = Some (Ok (stored s), s)).
    { unfold loadEvents, stored. destruct (events_file s); reflexivity. }
    rewrite El.
    unfold bind at 1. unfold generateEventId. rewrite L. cbn [lift_result ret].
    unfold bind at 1. cbn [saveEvents]. exact E.
  - rewrite F. reflexivity.
  - apply some_same_id_false. exact Hf.
  - intros U. apply unique_ids_snoc; [ exact U | ].
    apply some_same_id_false. unfold e'. cbn [id set_id]. exact Hf.
Qed.
End Identifiers.

(** ** The week *)

Section Week.
Context {rt : Runtime}.

Lemma clearHours_spec (t : Z) :
  Day t * msPerDay <= clearHours t <= t
  /\ clearHours t < Day t * msPerDay + msPerHour.
Proof.
  unfold clearHours, MakeDate, MakeTime, Day, HourFromTime, MinFromTime, SecFromTime,
    msFromTime, msPerDay, msPerHour, msPerMinute, msPerSecond.
  Z.div_mod_to_equations. lia.
Qed.

Lemma clearMinutes_spec (t d : Z) :
  d * msPerDay <= t < d * msPerDay + msPerHour ->
  d * msPerDay <= clearMinutes t <= t
  /\ clearMinutes t < d * msPerDay + msPerMinute.
Proof.
  unfold clearMinutes, MakeDate, MakeTime, Day, HourFromTime, MinFromTime, SecFromTime,
    msFromTime, msPerDay, msPerHour, msPerMinute, msPerSecond.
  intros H. Z.div_mod_to_equations. lia.
Qed.

Lemma clearSeconds_spec (t d : Z) :
  d * msPerDay <= t < d * msPerDay + msPerMinute ->
  d * msPerDay <= clearSeconds t <= t
  /\ clearSeconds t < d * msPerDay + msPerSecond.
Proof.
  unfold clearSeconds, MakeDate, MakeTime, Day, HourFromTime, MinFromTime, SecFromTime,
    msFromTime, msPerDay, msPerHour, msPerMinute, msPerSecond.
  intros H. Z.div_mod_to_equations. lia.
Qed.

Lemma clearMilliseconds_spec (t d : Z) :
  d * msPerDay <= t < d * msPerDay + msPerSecond ->
  clearMilliseconds t = d * msPerDay.
Proof.
  unfold clearMilliseconds, MakeDate, MakeTime, Day, HourFromTime, MinFromTime, SecFromTime,
    msFromTime, msPerDay, msPerHour, msPerMinute, msPerSecond.
  intros H. Z.div_mod_to_equations. lia.
Qed.

Lemma setDate_shift (t k : Z) :
  - maxTime <= t + k * msPerDay <= maxTime ->
  setDate (Num t) (JsNumOps.add (getDate (Num t)) (Num k))
  = Num (t + k * msPerDay).
Proof.
  intros R. unfold getDate, getter, setDate. cbn [JsNumOps.add].
  destruct (day_of_fields (LocalTime t)) as (Hm & _ & Hd).
  rewrite MakeDay_in_year by exact Hm.
  assert (E : UTC (MakeDate
                (DayFromYear (YearFromTime (LocalTime t))
                 + monthStart (isLeap (YearFromTime (LocalTime t)))
                     (MonthFromTime (LocalTime t))
                 + (DateFromTime (LocalTime t) + k) - 1)
                (TimeWithinDay (LocalTime t)))
              = t + k * msPerDay).
  { unfold UTC, MakeDate, TimeWithinDay.
    pose proof (Z.div_mod (LocalTime t) msPerDay ltac:(discriminate)) as DM.
    fold (Day (LocalTime t)) in DM. unfold LocalTime in *. lia. }
  rewrite E. apply TimeClip_in_range. exact R.
Qed.

Lemma start_of_day (t : Z) :
  - maxTime <= Day (LocalTime t) * msPerDay - LocalTZA ->
  t <= maxTime ->
  setMilliseconds (setSeconds (setMinutes (setHours (Num t) 0) 0) 0) 0
  = Num (Day (LocalTime t) * msPerDay - LocalTZA).
Proof.
  intros Rl Ru.
  set (d := Day (LocalTime t)) in *.
  pose proof (Day_bounds (LocalTime t)) as B. fold d in B.
  destruct (clearHours_spec (LocalTime t)) as [H1 H1']. fold d in H1, H1'.
  assert (A1 : d * msPerDay <= clearHours (LocalTime t) < d * msPerDay + msPerHour)
    by lia.
  destruct (clearMinutes_spec _ d A1) as [H2 H2'].
  assert (A2 : d * msPerDay <= clearMinutes (clearHours (LocalTime t))
               < d * msPerDay + msPerMinute) by lia.
  destruct (clearSeconds_spec _ d A2) as [H3 H3'].
  assert (A3 : d * msPerDay <= clearSeconds (clearMinutes (clearHours (LocalTime t)))
               < d * msPerDay + msPerSecond) by lia.
  pose proof (clearMilliseconds_spec _ d A3) as H4.
  assert (L : forall u, LocalTime (UTC u) = u) by (intros; unfold LocalTime, UTC; lia).
  unfold setHours. fold (clearHours (LocalTime t)).
  rewrite TimeClip_in_range by (unfold UTC, LocalTime in *; time_lia).
  unfold setMinutes. rewrite L. fold (clearMinutes (clearHours (LocalTime t))).
  rewrite TimeClip_in_range by (unfold UTC, LocalTime in *; time_lia).
  unfold setSeconds. rewrite L.
  fold (clearSeconds (clearMinutes (clearHours (LocalTime t)))).
  rewrite TimeClip_in_range by (unfold UTC, LocalTime in *; time_lia).
  unfold setMilliseconds. rewrite L.
  fold (clearMilliseconds (clearSeconds (clearMinutes (clearHours (LocalTime t))))).
  rewrite H4. apply TimeClip_in_range. unfold UTC, LocalTime in *. time_lia.
Qed.

(** X16.  For a valid date [getWeekRange] returns the Monday at
    00:00, local time, on or before the date, and as the end the Monday
    seven days later: the date lies in that half-open week. *)
Lemma getWeekRange_week (date : JsVal) (t : Z) :
  new_Date date = Num t ->
  - maxTime + 7 * msPerDay <= t <= maxTime - 7 * msPerDay ->
  exists monday : Z,
    getWeekRange date
    = mkPeriod (VDate (Num monday)) (VDate (Num (monday + 7 * msPerDay)))
    /\ getDay (Num monday) = Num 1
    /\ TimeWithinDay (LocalTime monday) = 0
    /\ monday <= t < monday + 7 * msPerDay.
Proof.
  intros Hd R.
  set (n := Day (LocalTime t)).
  set (wd := WeekDay (LocalTime t)).
  set (diff := if wd =? 0 then -6 else 1 - wd).
  assert (Hwd : 0 <= wd < 7) by (apply Z.mod_pos_bound; lia).
  assert (Hdiff : -6 <= diff <= 0) by (unfold diff; destruct (Z.eqb_spec wd 0); lia).
  pose proof (Day_bounds (LocalTime t)) as B. fold n in B.
  pose proof LocalTZA_range as TZ.
  assert (Dm : Day (LocalTime (t + diff * msPerDay)) = n + diff).
  { unfold LocalTime, Day in *. unfold n, Day, LocalTime.
    replace (t + diff * msPerDay + LocalTZA) with (t + LocalTZA + diff * msPerDay) by lia.
    apply Z.div_add. discriminate. }
  exists ((n + diff) * msPerDay - LocalTZA).
  split; [ | split; [ | split ] ].
  - unfold getWeekRange. rewrite Hd.
    change (getDay (Num t)) with (Num wd).
    assert (E0 : (if JsNumOps.eq (Num wd) (Num 0) then Num (-6)
                  else JsNumOps.sub (Num 1) (Num wd)) = Num diff).
    { unfold diff. cbn [JsNumOps.eq JsNumOps.sub]. destruct (wd =? 0); reflexivity. }
    rewrite E0.
    rewrite setDate_shift by (unfold maxTime, msPerDay in *; lia).
    rewrite start_of_day;
      try (rewrite Dm; unfold LocalTime, maxTime, msPerDay in *; lia);
      try (unfold LocalTime, maxTime, msPerDay in *; lia).
    rewrite Dm.
    rewrite setDate_shift by (unfold LocalTime, maxTime, msPerDay in *; lia).
    reflexivity.
  - unfold getDay, getter, WeekDay, LocalTime.
    replace ((n + diff) * msPerDay - LocalTZA + LocalTZA) with ((n + diff) * msPerDay) by lia.
    rewrite Day_midnight. f_equal.
    unfold diff, wd, WeekDay. fold n.
    destruct (Z.eqb_spec ((n + 4) mod 7) 0) as [E | E];
      Z.div_mod_to_equations; lia.
  - unfold TimeWithinDay, LocalTime.
    replace ((n + diff) * msPerDay - LocalTZA + LocalTZA) with ((n + diff) * msPerDay) by lia.
    apply Z.mod_mul. discriminate.
  - unfold LocalTime, msPerDay in *. lia.
Qed.
End Week.

(** ** Display angles *)

Section Angles.
Context {rt : Runtime}.

(** C3, amended.  When the start of the event is more than two hours
    before now, the start angle that [calculateEventAngles] returns is
    the angle of now - 2h, lowered by 360 when that angle is greater
    than the end angle returned with it. *)
Theorem calculateEventAngles_start_clamp (event : Event) (timeNow s : Z) :
  - maxTime <= timeNow <= maxTime ->
  new_Date (start event) = Num s ->
  s < timeNow - 2 * HOUR_MS ->
  let A := convertTimeToAngle (VDate (Num (timeNow - 2 * HOUR_MS))) in
  exists endA : Deg,
    calculateEventAngles event timeNow
    = Ok (if DegOps.gt A endA then DegOps.sub A 360 else A, endA).
Proof.
  intros Rn Hs Hlt A.
  pose proof (new_Date_in_range _ _ Hs) as Rs.
  assert (R2 : - maxTime <= timeNow - 2 * HOUR_MS <= maxTime)
    by (unfold HOUR_MS in *; lia).
  exists (convertTimeToAngle (end_ event)).
  unfold calculateEventAngles.
  assert (N : new_Date (VNum (Num timeNow)) = Num timeNow).
  { cbn. apply TimeClip_in_range. exact Rn. }
  rewrite N. cbn [getTime JsNumOps.sub].
  assert (D : new_Date (VNum (Num (timeNow - 2 * HOUR_MS)))
              = Num (timeNow - 2 * HOUR_MS)).
  { cbn [new_Date ToNumber clip]. apply TimeClip_in_range. exact R2. }
  rewrite D, Hs, js_lt_dates. cbn [JsNumOps.lt].
  destruct (Z.ltb_spec s (timeNow - 2 * HOUR_MS)) as [_ | C]; [ | lia ].
  reflexivity.
Qed.

(** An event that has not started more than two hours ago and ends
    more than ten hours ahead: the branch that would clamp the end
    angle throws. *)
Lemma calculateEventAngles_end_clamp (event : Event) (timeNow s e : Z) :
  - maxTime <= timeNow <= maxTime ->
  new_Date (start event) = Num s ->
  timeNow - 2 * HOUR_MS <= s ->
  new_Date (end_ event) = Num e ->
  timeNow + 10 * HOUR_MS < e ->
  calculateEventAngles event timeNow = Throw (ReferenceError "EventsManager").
Proof.
  intros Rn Hs Hge He Hlt.
  unfold calculateEventAngles.
  assert (N : new_Date (VNum (Num timeNow)) = Num timeNow).
  { cbn. apply TimeClip_in_range. exact Rn. }
  rewrite N, Hs, He. cbn [getTime JsNumOps.sub JsNumOps.gt JsNumOps.lt].
  rewrite js_lt_dates.
  assert (L : JsNumOps.lt (Num s) (new_Date (VNum (Num (timeNow - 2 * HOUR_MS)))) = false).
  { destruct (new_Date (VNum (Num (timeNow - 2 * HOUR_MS)))) as [ | d] eqn:D;
      [ reflexivity | ].
    cbn [new_Date ToNumber clip] in D. apply TimeClip_Num in D. destruct D as [-> _].
    cbn [JsNumOps.lt]. apply Z.ltb_ge. exact Hge. }
  rewrite L.
  destruct (Z.ltb_spec (timeNow + 10 * HOUR_MS) e) as [_ | C]; [ reflexivity | lia ].
Qed.
End Angles.


(** ** Scans of the stored events *)

Section Scans.
Context {rt : Runtime}.

(** A record that fails validation ends the scan of [editEvent],
    wherever it stands. *)
Lemma editEvent_scan_throws (event : Event) (l : list Entry) :
  forall (result : list Entry) (bad : Entry) (e : JsError),
    In bad l -> checkEventFields bad = Throw e ->
    exists e', editEvent_scan event l result = Throw e'.
Proof.
  induction l as [ | ev l IH]; intros result bad e Hin Hbad.
  - destruct Hin.
  - cbn [editEvent_scan].
    destruct (checkEventFields ev) as [ok | e0] eqn:C.
    + destruct Hin as [-> | Hin]; [ congruence | ].
      destruct (ok && _); eapply IH; eassumption.
    + exists e0. reflexivity.
Qed.

Lemma editEvent_aborts (fuel : nat) (now : Z) (event : Event) (s : Service)
      (bad : Entry) (e : JsError) :
  In bad (stored s) -> checkEventFields bad = Throw e ->
  exists e', editEvent fuel now event s = Some (Throw e', s).
Proof.
  intros Hin Hbad.
  destruct (editEvent_scan_throws event (stored s) [] bad e Hin Hbad) as (e' & E).
  exists e'. unfold editEvent, bind, loadEvents, stored in *.
  destruct (events_file s); rewrite E; reflexivity.
Qed.

(** What the loop of [getWeekListOfEvents] does with an event that does
    not repeat: the end of the week is not looked at. *)
Lemma getWeekListOfEvents_step_single (fuel : nat) (week : Period)
      (e : Event) (resultList : list Event) :
  repeat e = VStr "never" ->
  getWeekListOfEvents_step fuel week (EObj e) resultList
  = Some (Ok (if js_ge (VDate (new_Date (start e))) (p_start week)
              then resultList ++ [set_checkRepeat (VStr "never") e]
              else resultList)).
Proof.
  intros R. unfold getWeekListOfEvents_step.
  cbn [repeat set_checkRepeat start]. rewrite R.
  cbn [loose_eq_str ToPrimitive_default negb ToBoolean].
  change (String.eqb "never" "never") with true. cbn [negb].
  rewrite andb_true_r. unfold new_Event.
  destruct (js_ge _ _); reflexivity.
Qed.
End Scans.

(** ** Settings *)

Section SettingsFacts.

(** X1.  When the file holds settings that pass validation,
    [loadSettings] returns them and writes nothing.  Whenever
    [loadSettings] returns, what it returns passes validation and is
    what the settings file then holds, and the events and the derived
    view are untouched; when the file held no settings that pass
    validation, what it returns is the defaults, autoDelete never and
    colorTheme standard, and the store is the one that [saveSettings]
    left on writing them. *)
Theorem loadSettings_returns_valid (s : Service) :
  (forall x : Settings,
     settings_file s = Some x ->
     SettingsService.validateSettings (Some x) = Ok tt ->
     SettingsService.loadSettings s = Some (Ok x, s))
  /\ (forall (st : Settings) (s' : Service),
        SettingsService.loadSettings s = Some (Ok st, s') ->
        SettingsService.validateSettings (Some st) = Ok tt
        /\ settings_file s' = Some st
        /\ events_file s' = events_file s
        /\ actualEvents s' = actualEvents s
        /\ match SettingsService.validateSettings (settings_file s) with
           | Ok _ => settings_file s = Some st /\ s' = s
           | Throw _ =>
               st = defaultSettings
               /\ SettingsService.saveSettings defaultSettings s = Some (Ok tt, s')
           end).
Proof.
  split.
  - intros x F V. unfold SettingsService.loadSettings. rewrite F, V. reflexivity.
  - intros st s'. unfold SettingsService.loadSettings.
    destruct (settings_file s) as [st0 | ] eqn:F.
    + destruct (SettingsService.validateSettings (Some st0)) as [[] | e] eqn:V.
      * intros H. injection H as <- <-. repeat split; assumption.
      * intros H. injection H as <- <-. repeat split.
    + intros H. injection H as <- <-. repeat split.
Qed.

(** X2.  Settings that pass validation are saved, and [loadSettings]
    then returns them and writes nothing; saving does not touch the
    events or the derived view. *)
Theorem saveSettings_then_loadSettings (x : Settings) (s : Service) :
  SettingsService.validateSettings (Some x) = Ok tt ->
  exists s',
    SettingsService.saveSettings x s = Some (Ok tt, s')
    /\ SettingsService.loadSettings s' = Some (Ok x, s')
    /\ events_file s' = events_file s
    /\ actualEvents s' = actualEvents s.
Proof.
  intros V. exists (set_settings_file x s).
  unfold SettingsService.saveSettings, SettingsService.loadSettings.
  cbn [settings_file set_settings_file]. rewrite V. repeat split.
Qed.

End SettingsFacts.

(** ** Validation *)

Section ValidationFacts.
Context {rt : Runtime}.

Lemma valid_object (en : Entry) :
  valid en ->
  exists e d r,
    en = EObj e /\ description e = VStr d /\ Text.all_ws d = false
    /\ repeat e = VStr r /\ In r ["never"; "day"; "week"; "month"]%string.
Proof.
  unfold valid, checkEventFields. destruct en as [ | e]; [ discriminate | ].
  destruct (description e) as [ | | | | d | ] eqn:D; try discriminate.
  destruct (Text.all_ws d) eqn:W; [ discriminate | ].
  cbn [instanceof_Date negb].
  destruct (repeat e) as [ | | | | r | ] eqn:R; try discriminate.
  destruct (existsb (String.eqb r) ["never"; "day"; "week"; "month"]%string) eqn:X;
    [ | discriminate ].
  intros _. exists e, d, r. repeat split; try assumption.
  apply existsb_exists in X. destruct X as (x & Hin & E).
  apply String.eqb_eq in E. subst x. exact Hin.
Qed.

(** X3.  [checkEventFields] returns true exactly for an object whose
    description is a string with a character that is no white space and
    whose repeat is one of never, day, week, month.  It never returns
    false: every other record makes it throw an [Error].  The id, the
    start, the end and the color play no part, so that a record whose
    start and end are no dates passes. *)
Theorem checkEventFields_spec (en : Entry) :
  (checkEventFields en = Ok true <->
   exists e d r,
     en = EObj e /\ description e = VStr d /\ Text.all_ws d = false
     /\ repeat e = VStr r /\ In r ["never"; "day"; "week"; "month"]%string)
  /\ (checkEventFields en = Ok true
      \/ exists msg, checkEventFields en = Throw (Error msg))
  /\ (forall e i s x c,
        checkEventFields (EObj (set_id i (set_start_end s x e)))
        = checkEventFields (EObj e)
        /\ checkEventFields
             (EObj (mkEvent (id e) (description e) (start e) (end_ e) c
                            (repeat e) (checkRepeat e) (startAngle e) (endAngle e)))
           = checkEventFields (EObj e)).
Proof.
  split; [ split | split ].
  - apply valid_object.
  - intros (e & d & r & -> & D & W & R & Hin).
    unfold checkEventFields. rewrite D, W, R. cbn [instanceof_Date negb].
    assert (X : existsb (String.eqb r) ["never"; "day"; "week"; "month"]%string = true).
    { apply existsb_exists. exists r. split; [ exact Hin | apply String.eqb_refl ]. }
    rewrite X. reflexivity.
  - unfold checkEventFields. destruct en as [ | e]; [ right; eexists; reflexivity | ].
    destruct (description e) as [ | | | | d | ]; try (right; eexists; reflexivity).
    destruct (Text.all_ws d); [ right; eexists; reflexivity | ].
    cbn [instanceof_Date negb].
    destruct (repeat e) as [ | | | | r | ]; try (right; eexists; reflexivity).
    destruct (existsb _ _); [ left; reflexivity | right; eexists; reflexivity ].
  - intros e i s x c. split; reflexivity.
Qed.

End ValidationFacts.

(** ** The stored collection under create, edit and delete *)

Section StoreFacts.
Context {rt : Runtime}.

Lemma strict_eq_sym (a b : JsVal) : strict_eq a b = strict_eq b a.
Proof.
  destruct a as [ | | x | x | x | x ], b as [ | | y | y | y | y ]; cbn; try reflexivity.
  - destruct x, y; reflexivity.
  - destruct x as [ | x], y as [ | y]; cbn; try reflexivity. apply Z.eqb_sym.
  - apply String.eqb_sym.
Qed.

Lemma loadEvents_stored (s : Service) : loadEvents s = Some (Ok (stored s), s).
Proof. unfold loadEvents, stored. destruct (events_file s); reflexivity. Qed.

Lemma stored_set_events_file (l : list Entry) (s : Service) :
  stored (set_events_file l s) = l.
Proof. reflexivity. Qed.

Lemma deleteEvent_scan_valid (v : JsVal) (l : list Entry) :
  forall result : list Entry,
    Forall valid l ->
    deleteEvent_scan v l result = Ok (result ++ filter (other_id v) l).
Proof.
  induction l as [ | ev l IH]; intros acc V; cbn [deleteEvent_scan filter].
  - rewrite app_nil_r. reflexivity.
  - inversion V as [ | ? ? Vev Vl ]; subst. unfold valid in Vev. rewrite Vev.
    cbn [andb]. destruct ev as [ | e]; [ discriminate | ]. cbn [other_id].
    destruct (negb (strict_eq (id e) v)).
    + rewrite IH by exact Vl. rewrite <- app_assoc. reflexivity.
    + apply IH. exact Vl.
Qed.

Lemma editEvent_scan_valid (event : Event) (l : list Entry) :
  forall result : list Entry,
    Forall valid l ->
    editEvent_scan event l result = Ok (result ++ map (edited event) l).
Proof.
  induction l as [ | ev l IH]; intros acc V; cbn [editEvent_scan map].
  - rewrite app_nil_r. reflexivity.
  - inversion V as [ | ? ? Vev Vl ]; subst. unfold valid in Vev. rewrite Vev.
    cbn [andb]. destruct ev as [ | e]; [ discriminate | ]. cbn [edited].
    destruct (strict_eq (id event) (id e));
      rewrite IH by exact Vl; rewrite <- app_assoc; reflexivity.
Qed.

Lemma deleteEvent_scan_throws (v : JsVal) (l : list Entry) :
  forall (result : list Entry) (bad : Entry) (e : JsError),
    In bad l -> checkEventFields bad = Throw e ->
    exists e', deleteEvent_scan v l result = Throw e'.
Proof.
  induction l as [ | ev l IH]; intros result bad e Hin Hbad.
  - destruct Hin.
  - cbn [deleteEvent_scan].
    destruct (checkEventFields ev) as [ok | e0] eqn:C.
    + destruct Hin as [-> | Hin]; [ congruence | ].
      destruct (ok && _); eapply IH; eassumption.
    + exists e0. reflexivity.
Qed.



Lemma filter_other_id_all (v : JsVal) (l : list Entry) :
  Forall (differs_from v) l -> filter (other_id v) l = l.
Proof.
  induction 1 as [ | x l Hx _ IH]; cbn [filter]; [ reflexivity | ].
  destruct x as [ | e]; [ destruct Hx | ]. cbn in Hx |- *. rewrite Hx. cbn.
  rewrite IH. reflexivity.
Qed.

Lemma map_edited_none (event : Event) (l : list Entry) :
  Forall (differs_from (id event)) l -> map (edited event) l = l.
Proof.
  induction 1 as [ | x l Hx _ IH]; cbn [map]; [ reflexivity | ].
  destruct x as [ | e]; [ destruct Hx | ]. cbn in Hx |- *.
  rewrite strict_eq_sym, Hx, IH. reflexivity.
Qed.

Lemma generateEventId_loop_id (gen : nat -> string) (l : list Entry) :
  forall (fuel k : nat) (event e' : Event),
    generateEventId_loop fuel gen k event l = Some (Ok e') ->
    exists v, e' = set_id v event.
Proof.
  induction fuel as [ | fuel IH]; intros k event e' H; [ discriminate | ].
  cbn [generateEventId_loop] in H.
  destruct (some_same_id l (id event)) as [[ | ] | err].
  - apply IH in H. destruct H as (v & ->). exists v. destruct event; reflexivity.
  - injection H as <-. exists (id event). destruct event; reflexivity.
  - discriminate.
Qed.

(** X4.  Whenever [createNewEvent] returns, normally or by an
    exception, the stored collection is what it was, or what it was
    followed by one record: the event under some identifier.  No stored
    record is removed or altered.  When the validation of the event
    fails, that error is thrown and nothing changes. *)
Theorem createNewEvent_appends (fuel : nat) (now : Z) (gen : nat -> string)
        (en : Entry) (s s' : Service) (r : Result unit) :
  createNewEvent fuel now gen en s = Some (r, s') ->
  (stored s' = stored s
   \/ exists e v, en = EObj e /\ stored s' = stored s ++ [EObj (set_id v e)])
  /\ (forall err, checkEventFields en = Throw err -> r = Throw err /\ s' = s).
Proof.
  unfold createNewEvent.
  destruct (checkEventFields en) as [ok | err] eqn:V; cbn [lift_result].
  - intros H. split; [ | discriminate ]. revert H.
    unfold bind at 1. cbn [ret]. unfold bind at 1. rewrite loadEvents_stored.
    unfold bind at 1. unfold generateEventId.
    destruct en as [ | e]; [ discriminate | ].
    destruct (generateEventId_loop fuel gen 0 e (stored s)) as [[e' | err] | ] eqn:G;
      cbn [lift_result ret throw out_of_fuel]; try discriminate.
    + destruct fuel as [ | fuel]; [ discriminate G | ].
      apply generateEventId_loop_id in G. destruct G as (v & ->).
      unfold bind at 1. cbn [saveEvents].
      intros H. right. exists e, v. split; [ reflexivity | ].
      destruct (uploadActualEvents_keeps fuel now
                  (set_events_file (stored s ++ [EObj (set_id v e)]) s))
        as (r0 & s0 & E & F).
      rewrite E in H. injection H as _ <-. unfold stored at 1. rewrite F. reflexivity.
    + intros H. injection H as _ <-. left. reflexivity.
  - intros H. injection H as <- <-. split; [ left; reflexivity | ].
    intros err' E. injection E as <-. split; reflexivity.
Qed.
End StoreFacts.

Section EditDeleteFacts.
Context {rt : Runtime}.


Lemma deleteEvent_invalid (fuel : nat) (now : Z) (v : JsVal) (s : Service)
        (bad : Entry) (e : JsError) :
  In bad (stored s) -> checkEventFields bad = Throw e ->
  exists e', deleteEvent fuel now v s = Some (Throw e', s).
Proof.
  intros Hin Hbad.
  destruct (deleteEvent_scan_throws v (stored s) [] bad e Hin Hbad) as (e' & E).
  exists e'. unfold deleteEvent. unfold bind at 1. rewrite loadEvents_stored.
  rewrite E. reflexivity.
Qed.

Lemma strict_eq_true (a b : JsVal) : strict_eq a b = true -> a = b.
Proof.
  destruct a as [ | | x | x | x | x ], b as [ | | y | y | y | y ]; cbn;
    try discriminate; try reflexivity.
  - intros H. apply Bool.eqb_prop in H. congruence.
  - destruct x as [ | x], y as [ | y]; cbn; try discriminate.
    intros H. apply Z.eqb_eq in H. congruence.
  - intros H. apply String.eqb_eq in H. congruence.
Qed.

Lemma differs_from_edited (event : Event) (v : JsVal) (en : Entry) :
  differs_from v en -> differs_from v (edited event en).
Proof.
  destruct en as [ | e]; [ exact (fun H => H) | ]. cbn [edited].
  destruct (strict_eq (id event) (id e)) eqn:E; [ | exact (fun H => H) ].
  apply strict_eq_true in E. cbn [differs_from]. rewrite E. exact (fun H => H).
Qed.

Lemma differ_edited (event : Event) (a b : Entry) :
  differ a b -> differ (edited event a) (edited event b).
Proof.
  destruct b as [ | e]; [ exact (fun H => H) | ]. cbn [edited].
  destruct (strict_eq (id event) (id e)) eqn:E; cbn [differ].
  - apply strict_eq_true in E. rewrite E. apply differs_from_edited.
  - apply differs_from_edited.
Qed.

Lemma unique_ids_edited (event : Event) (l : list Entry) :
  unique_ids l -> unique_ids (map (edited event) l).
Proof.
  unfold unique_ids. intros U. induction U as [ | a l Ha U IH]; cbn [map].
  - constructor.
  - constructor; [ | exact IH ].
    apply Forall_forall. intros x Hx. apply in_map_iff in Hx.
    destruct Hx as (b & <- & Hb). apply differ_edited.
    rewrite Forall_forall in Ha. apply Ha. exact Hb.
Qed.

(** X6.  On a collection of valid records [editEvent] writes the
    collection with every record whose id is strictly equal to the
    event's replaced by the event.  The number of records does not
    change and distinct ids stay distinct; when no record has that id
    the event is not stored: the collection is unchanged. *)
Theorem editEvent_replaces (fuel : nat) (now : Z) (event : Event) (s : Service) :
  Forall valid (stored s) ->
  exists r s',
    editEvent (S fuel) now event s = Some (r, s')
    /\ events_file s' = Some (map (edited event) (stored s))
    /\ List.length (stored s') = List.length (stored s)
    /\ (unique_ids (stored s) -> unique_ids (stored s'))
    /\ (Forall (differs_from (id event)) (stored s) -> stored s' = stored s).
Proof.
  intros V.
  destruct (uploadActualEvents_keeps fuel now
              (set_events_file (map (edited event) (stored s)) s))
    as (r0 & s0 & E & F).
  cbn [events_file set_events_file] in F.
  assert (St : stored s0 = map (edited event) (stored s))
    by (unfold stored at 1; rewrite F; reflexivity).
  exists r0, s0.
  split; [ | split; [ exact F | split; [ | split ] ] ].
  - unfold editEvent. unfold bind at 1. rewrite loadEvents_stored.
    rewrite (editEvent_scan_valid event (stored s) [] V). cbn [app lift_result ret].
    unfold bind at 1. cbn [ret]. unfold bind at 1. cbn [saveEvents]. exact E.
  - rewrite St. apply length_map.
  - intros U. rewrite St. apply unique_ids_edited. exact U.
  - intros D. rewrite St. apply map_edited_none. exact D.
Qed.

(** A loop over the stored records throws as soon as one turn does,
    when no turn runs out of fuel. *)
Lemma for_each_throws {A} (f : A -> M unit) (l : list A) (bad : A) :
  (forall a s, exists r s', f a s = Some (r, s')) ->
  (forall s, exists e s', f bad s = Some (Throw e, s')) ->
  In bad l ->
  forall s, exists e s', for_each f l s = Some (Throw e, s').
Proof.
  intros T B. induction l as [ | a l IH]; intros Hin s; [ destruct Hin | ].
  cbn [for_each]. unfold bind.
  destruct Hin as [-> | Hin].
  - destruct (B s) as (e & s' & E). rewrite E. exists e, s'. reflexivity.
  - destruct (T a s) as (r & s' & E). rewrite E. destruct r as [[] | e].
    + apply IH. exact Hin.
    + exists e, s'. reflexivity.
Qed.

Lemma uploadActualEvents_step_returns (fuel : nat) (now : Z) (ev : Entry) (s : Service) :
  exists r s', uploadActualEvents_step (S fuel) now ev s = Some (r, s').
Proof.
  destruct (uploadActualEvents_step_keeps fuel now ev s) as (r & s' & E & _).
  exists r, s'. exact E.
Qed.

Lemma uploadActualEvents_step_invalid (fuel : nat) (now : Z) (ev : Entry)
      (err : JsError) (s : Service) :
  checkEventFields ev = Throw err ->
  exists e s', uploadActualEvents_step (S fuel) now ev s = Some (Throw e, s').
Proof.
  intros V. unfold uploadActualEvents_step.
  destruct ev as [ | e0]; [ eexists; eexists; reflexivity | ].
  unfold bind at 1. cbn [get_service].
  rewrite repeateRule_appends_nothing.
  unfold bind at 1. cbn [put_service]. rewrite V.
  eexists; eexists; reflexivity.
Qed.

Lemma uploadActualEvents_loop (fuel : nat) (now : Z) (s : Service) :
  uploadActualEvents fuel now s
  = for_each (uploadActualEvents_step fuel now) (stored s) (set_actualEvents [] s).
Proof.
  unfold uploadActualEvents, bind, get_service, put_service, loadEvents, stored.
  cbn [events_file set_actualEvents]. destruct (events_file s); reflexivity.
Qed.

Lemma uploadActualEvents_invalid (fuel : nat) (now : Z) (bad : Entry)
      (err : JsError) (s : Service) :
  In bad (stored s) -> checkEventFields bad = Throw err ->
  exists e s', uploadActualEvents (S fuel) now s = Some (Throw e, s')
               /\ events_file s' = events_file s.
Proof.
  intros Hin V.
  destruct (uploadActualEvents_keeps fuel now s) as (r & s' & E & F).
  rewrite uploadActualEvents_loop in *.
  destruct (for_each_throws (uploadActualEvents_step (S fuel) now) (stored s) bad
              (uploadActualEvents_step_returns fuel now)
              (fun s0 => uploadActualEvents_step_invalid fuel now bad err s0 V)
              Hin (set_actualEvents [] s)) as (e & s1 & E1).
  rewrite E1 in E. injection E as <- <-.
  exists e, s1. split; [ exact E1 | exact F ].
Qed.

Lemma edited_in (event e0 : Event) (l : list Entry) :
  In (EObj e0) l -> strict_eq (id event) (id e0) = true ->
  In (EObj event) (map (edited event) l).
Proof.
  intros Hin E. apply in_map_iff. exists (EObj e0). split; [ | exact Hin ].
  cbn. rewrite E. reflexivity.
Qed.

(** X7.  [editEvent] does not validate the event it is given.  When
    the event fails validation and its id is that of a stored record,
    the record is replaced all the same; the call then throws while it
    rebuilds the view, and from then on every [deleteEvent] and every
    [editEvent] throws and leaves the store as it is. *)
Theorem editEvent_stores_unvalidated (fuel : nat) (now : Z) (event e0 : Event)
        (s : Service) (err : JsError) :
  Forall valid (stored s) ->
  In (EObj e0) (stored s) ->
  strict_eq (id event) (id e0) = true ->
  checkEventFields (EObj event) = Throw err ->
  exists e' s',
    editEvent (S fuel) now event s = Some (Throw e', s')
    /\ events_file s' = Some (map (edited event) (stored s))
    /\ In (EObj event) (stored s')
    /\ (forall fuel' v, exists e'', deleteEvent fuel' now v s' = Some (Throw e'', s'))
    /\ (forall fuel' ev, exists e'', editEvent fuel' now ev s' = Some (Throw e'', s')).
Proof.
  intros V Hin Hid Hbad.
  pose proof (edited_in event e0 (stored s) Hin Hid) as Hin'.
  destruct (uploadActualEvents_invalid fuel now (EObj event) err
              (set_events_file (map (edited event) (stored s)) s) Hin' Hbad)
    as (e' & s' & E & F).
  cbn [events_file set_events_file] in F.
  assert (St : stored s' = map (edited event) (stored s))
    by (unfold stored at 1; rewrite F; reflexivity).
  exists e', s'.
  split; [ | split; [ exact F | split; [ | split ] ] ].
  - unfold editEvent. unfold bind at 1. rewrite loadEvents_stored.
    rewrite (editEvent_scan_valid event (stored s) [] V). cbn [app lift_result ret].
    unfold bind at 1. cbn [ret]. unfold bind at 1. cbn [saveEvents]. exact E.
  - rewrite St. exact Hin'.
  - intros fuel' v. apply (deleteEvent_invalid fuel' now v s' (EObj event) err).
    + rewrite St. exact Hin'.
    + exact Hbad.
  - intros fuel' ev. apply (editEvent_aborts fuel' now ev s' (EObj event) err).
    + rewrite St. exact Hin'.
    + exact Hbad.
Qed.

End EditDeleteFacts.

(** ** Create, then delete *)

Section RoundTrip.
Context {rt : Runtime}.

Lemma createNewEvent_saves (fuel : nat) (now : Z) (gen : nat -> string)
      (event : Event) (s : Service) (n : nat) :
  valid (EObj event) ->
  (forall j, (j < n)%nat ->
     some_same_id (stored s) (candidate gen event j) = Ok true) ->
  some_same_id (stored s) (candidate gen event n) = Ok false ->
  (n < fuel)%nat ->
  exists r s',
    createNewEvent fuel now gen (EObj event) s = Some (r, s')
    /\ events_file s'
       = Some (stored s ++ [EObj (set_id (candidate gen event n) event)]).
Proof.
  intros V Hc Hf Hn.
  destruct fuel as [ | fuel]; [ lia | ].
  pose proof (generateEventId_loop_finds gen (stored s) n (S fuel) 0 event) as L.
  cbn [Nat.add] in L.
  assert (Eg : (fun i : nat => gen i) = gen) by reflexivity.
  rewrite Eg in L. specialize (L Hc Hf Hn).
  set (e' := set_id (candidate gen event n) event) in *.
  destruct (uploadActualEvents_keeps fuel now
              (set_events_file (stored s ++ [EObj e']) s)) as (r & s' & E & F).
  exists r, s'. split; [ | rewrite F; reflexivity ].
  unfold createNewEvent. unfold valid in V. rewrite V. cbn [lift_result].
  unfold bind at 1. cbn [ret]. unfold bind at 1. rewrite loadEvents_stored.
  unfold bind at 1. unfold generateEventId. rewrite L. cbn [lift_result ret].
  unfold bind at 1. cbn [saveEvents]. exact E.
Qed.

Lemma deleteEvent_valid (fuel : nat) (now : Z) (v : JsVal) (s : Service) :
  Forall valid (stored s) ->
  exists r s',
    deleteEvent (S fuel) now v s = Some (r, s')
    /\ events_file s' = Some (filter (other_id v) (stored s)).
Proof.
  intros V.
  destruct (uploadActualEvents_keeps fuel now
              (set_events_file (filter (other_id v) (stored s)) s))
    as (r0 & s0 & E & F).
  exists (match r0 with
          | Ok _ => Ok (filter (other_id v) (stored s))
          | Throw e => Throw e
          end), s0.
  split; [ | exact F ].
  unfold deleteEvent. unfold bind at 1. rewrite loadEvents_stored.
  rewrite (deleteEvent_scan_valid v (stored s) [] V). cbn [app lift_result ret].
  unfold bind at 1. cbn [ret]. unfold bind at 1. cbn [saveEvents].
  unfold bind at 1. rewrite E. destruct r0; reflexivity.
Qed.

Lemma valid_set_id (v : JsVal) (e : Event) : valid (EObj e) -> valid (EObj (set_id v e)).
Proof. unfold valid. intros H. exact H. Qed.

(** X27.  An event created and then deleted under the identifier it
    was stored with leaves the collection as it was before the two
    calls, when the collection and the event are valid. *)
Theorem createNewEvent_then_deleteEvent (fuel : nat) (now : Z) (gen : nat -> string)
        (event : Event) (s : Service) (n : nat) :
  Forall valid (stored s) ->
  valid (EObj event) ->
  (forall j, (j < n)%nat ->
     some_same_id (stored s) (candidate gen event j) = Ok true) ->
  some_same_id (stored s) (candidate gen event n) = Ok false ->
  (n < fuel)%nat ->
  strict_eq (candidate gen event n) (candidate gen event n) = true ->
  exists r1 s1 r2 s2,
    createNewEvent fuel now gen (EObj event) s = Some (r1, s1)
    /\ In (EObj (set_id (candidate gen event n) event)) (stored s1)
    /\ deleteEvent fuel now (candidate gen event n) s1 = Some (r2, s2)
    /\ stored s2 = stored s.
Proof.
  intros Vs V Hc Hf Hn Hv.
  destruct (createNewEvent_saves fuel now gen event s n V Hc Hf Hn)
    as (r1 & s1 & E1 & F1).
  assert (St1 : stored s1 = stored s ++ [EObj (set_id (candidate gen event n) event)])
    by (unfold stored at 1; rewrite F1; reflexivity).
  destruct fuel as [ | fuel]; [ lia | ].
  destruct (deleteEvent_valid fuel now (candidate gen event n) s1)
    as (r2 & s2 & E2 & F2).
  { rewrite St1. apply Forall_app. split; [ exact Vs | ].
    constructor; [ apply valid_set_id; exact V | constructor ]. }
  exists r1, s1, r2, s2.
  split; [ exact E1 | ]. split; [ rewrite St1; apply in_or_app; right; left; reflexivity | ].
  split; [ exact E2 | ].
  unfold stored at 1. rewrite F2, St1, filter_app.
  rewrite filter_other_id_all by (apply some_same_id_false; exact Hf).
  cbn [filter other_id id set_id]. rewrite Hv. cbn [negb]. apply app_nil_r.
Qed.

End RoundTrip.

(** ** The retention sweep and the derived view *)

Section SweepFacts.
Context {rt : Runtime}.

Lemma loadSettings_keeps (s s1 : Service) (r : Result Settings) :
  SettingsService.loadSettings s = Some (r, s1) ->
  events_file s1 = events_file s /\ actualEvents s1 = actualEvents s.
Proof.
  unfold SettingsService.loadSettings.
  destruct (settings_file s) as [st | ];
    [ destruct (SettingsService.validateSettings (Some st)) as [[] | e] | ];
    intros H; injection H as _ <-; split; reflexivity.
Qed.

Lemma loadSettings_returns (s : Service) :
  exists st s1, SettingsService.loadSettings s = Some (Ok st, s1).
Proof.
  unfold SettingsService.loadSettings.
  destruct (settings_file s) as [st | ];
    [ destruct (SettingsService.validateSettings (Some st)) as [[] | e] | ];
    eexists; eexists; reflexivity.
Qed.

Lemma stored_eq (s s1 : Service) :
  events_file s1 = events_file s -> stored s1 = stored s.
Proof. unfold stored. intros ->. reflexivity. Qed.

Lemma autoDeleteEvents_valid (now : Z) (s s1 : Service) (st : Settings) :
  SettingsService.loadSettings s = Some (Ok st, s1) ->
  Forall valid (stored s) ->
  autoDeleteEvents now s
  = Some (Ok tt, set_events_file (filter (retained now (autoDelete st)) (stored s)) s1).
Proof.
  intros L V. destruct (loadSettings_keeps s s1 _ L) as [F _].
  unfold autoDeleteEvents. unfold bind at 1. rewrite L.
  unfold bind at 1. rewrite loadEvents_stored. rewrite (stored_eq s s1 F).
  rewrite (autoDeleteEvents_scan_valid now (autoDelete st) (stored s) [] V).
  reflexivity.
Qed.

Lemma loadSettings_again (s s1 : Service) (st : Settings) :
  SettingsService.loadSettings s = Some (Ok st, s1) ->
  forall l, SettingsService.loadSettings (set_events_file l s1)
            = Some (Ok st, set_events_file l s1).
Proof.
  unfold SettingsService.loadSettings.
  destruct (settings_file s) as [st0 | ] eqn:F;
    [ destruct (SettingsService.validateSettings (Some st0)) as [[] | e] eqn:V | ];
    intros H l; injection H as <- <-; cbn [settings_file set_events_file set_settings_file].
  - rewrite F, V. reflexivity.
  - reflexivity.
  - reflexivity.
Qed.

Lemma filter_twice {A} (f : A -> bool) (l : list A) :
  filter f (filter f l) = filter f l.
Proof.
  induction l as [ | x l IH]; [ reflexivity | ]. cbn [filter].
  destruct (f x) eqn:E; [ | exact IH ]. cbn [filter]. rewrite E, IH. reflexivity.
Qed.

Lemma Forall_filter {A} (P : A -> Prop) (f : A -> bool) (l : list A) :
  Forall P l -> Forall P (filter f l).
Proof.
  intros H. apply Forall_forall. intros x Hx. apply filter_In in Hx.
  rewrite Forall_forall in H. apply H. tauto.
Qed.

(** X9.  On a collection of valid records the retention sweep writes,
    in their order, the records that [deleteFilter] does not mark under
    the autoDelete setting that [loadSettings] gives.  A second sweep
    at the same time changes nothing. *)
Theorem autoDeleteEvents_sweeps (now : Z) (s s1 : Service) (st : Settings) :
  SettingsService.loadSettings s = Some (Ok st, s1) ->
  Forall valid (stored s) ->
  let s' := set_events_file (filter (retained now (autoDelete st)) (stored s)) s1 in
  autoDeleteEvents now s = Some (Ok tt, s')
  /\ autoDeleteEvents now s' = Some (Ok tt, s').
Proof.
  intros L V s'. split; [ apply autoDeleteEvents_valid; assumption | ].
  rewrite (autoDeleteEvents_valid now s' s' st).
  - unfold s'. rewrite stored_set_events_file, filter_twice. reflexivity.
  - apply (loadSettings_again s s1 st L).
  - unfold s'. rewrite stored_set_events_file. apply Forall_filter. exact V.
Qed.

Lemma deleteFilter_repeating (now : Z) (e : Event) (ad : JsVal) :
  valid (EObj e) -> repeat e <> VStr "never" -> deleteFilter now e ad = false.
Proof.
  intros V N. unfold deleteFilter.
  destruct (checkEventFields_repeat e V) as [R | [R | [R | R]]];
    [ contradiction | | | ]; rewrite R; reflexivity.
Qed.

Lemma deleteFilter_recent (now : Z) (e : Event) (ad : JsVal) :
  (new_Date (end_ e) = NaN
   \/ exists x, new_Date (end_ e) = Num x /\ now - x <= 24 * HOUR_MS) ->
  deleteFilter now e ad = false.
Proof.
  intros H. unfold deleteFilter.
  destruct (ToBoolean (repeat e) && negb (loose_eq_str (repeat e) "never"));
    [ reflexivity | ].
  assert (O : forall limit, 24 * HOUR_MS <= limit ->
            js_gt (VDate (Num now)) (VDate (new_Date (end_ e)))
            && JsNumOps.gt (JsNumOps.sub (getTime (Num now)) (getTime (new_Date (end_ e))))
                           (Num limit) = false).
  { intros limit Hl. apply not_true_is_false. rewrite older_spec by time_lia.
    intros (x & E & Hx). destruct H as [H | (x' & H & Hx')]; rewrite H in E.
    - discriminate.
    - injection E as ->. lia. }
  destruct (strict_eq ad (VStr "day")); [ apply O; time_lia | ].
  destruct (strict_eq ad (VStr "week")); [ apply O; time_lia | ].
  destruct (strict_eq ad (VStr "month")); [ apply O; time_lia | ].
  reflexivity.
Qed.

Lemma deleteFilter_never (now : Z) (e : Event) :
  deleteFilter now e (VStr "never") = false.
Proof.
  unfold deleteFilter.
  destruct (ToBoolean (repeat e) && negb (loose_eq_str (repeat e) "never"));
    reflexivity.
Qed.

Lemma filter_retained_never (now : Z) (l : list Entry) :
  Forall valid l -> filter (retained now (VStr "never")) l = l.
Proof.
  induction 1 as [ | x l Hx _ IH]; cbn [filter]; [ reflexivity | ].
  destruct x as [ | e]; [ discriminate Hx | ]. cbn [retained].
  rewrite deleteFilter_never, IH. reflexivity.
Qed.

(** X10.  The retention sweep only removes records: what it leaves is
    the stored list without the records that the setting marks, the
    others in the order and the number in which they were stored.
    Whatever the setting, it keeps a record that repeats, a record
    whose end is no valid date, and a record that ended at most 24
    hours before now.  When the setting is never, or there is no
    settings file, the collection is unchanged. *)
Theorem autoDeleteEvents_spares (now : Z) (s : Service) :
  Forall valid (stored s) ->
  exists st s',
    autoDeleteEvents now s = Some (Ok tt, s')
    /\ settings_file s' = Some st
    /\ stored s' = filter (retained now (autoDelete st)) (stored s)
    /\ (forall e, In (EObj e) (stored s) ->
          repeat e <> VStr "never"
          \/ new_Date (end_ e) = NaN
          \/ (exists x, new_Date (end_ e) = Num x /\ now - x <= 24 * HOUR_MS) ->
          In (EObj e) (stored s'))
    /\ (autoDelete st = VStr "never" -> stored s' = stored s)
    /\ (settings_file s = None -> stored s' = stored s).
Proof.
  intros V.
  destruct (loadSettings_returns s) as (st & s1 & L).
  exists st, (set_events_file (filter (retained now (autoDelete st)) (stored s)) s1).
  split; [ apply autoDeleteEvents_valid; assumption | ].
  rewrite stored_set_events_file. cbn [settings_file set_events_file].
  split; [ | split; [ | split; [ | split ] ] ].
  - revert L. unfold SettingsService.loadSettings.
    destruct (settings_file s) as [st0 | ] eqn:F;
      [ destruct (SettingsService.validateSettings (Some st0)) as [[] | e] | ];
      intros H; injection H as <- <-; try reflexivity. exact F.
  - reflexivity.
  - intros e Hin H. apply filter_In. split; [ exact Hin | ].
    cbn [retained]. apply negb_true_iff.
    rewrite Forall_forall in V.
    destruct H as [H | H].
    + apply deleteFilter_repeating; [ apply V; exact Hin | exact H ].
    + apply deleteFilter_recent. exact H.
  - intros ->. apply filter_retained_never. exact V.
  - intros F. revert L. unfold SettingsService.loadSettings. rewrite F.
    intros H. injection H as <- _. apply filter_retained_never. exact V.
Qed.

Lemma autoDeleteEvents_scan_throws (now : Z) (ad : JsVal) (l : list Entry) :
  forall (done : list Entry) (bad : Entry) (e : JsError),
    In bad l -> checkEventFields bad = Throw e ->
    exists e', autoDeleteEvents_scan now ad l done = Throw e'.
Proof.
  induction l as [ | ev l IH]; intros done bad e Hin Hbad.
  - destruct Hin.
  - cbn [autoDeleteEvents_scan].
    destruct (checkEventFields ev) as [ok | e0] eqn:C.
    + destruct Hin as [-> | Hin]; [ congruence | ].
      destruct (ok && _); eapply IH; eassumption.
    + exists e0. reflexivity.
Qed.

Lemma autoDeleteEvents_invalid (now : Z) (s : Service) (bad : Entry) (e : JsError) :
  In bad (stored s) -> checkEventFields bad = Throw e ->
  exists e' s', autoDeleteEvents now s = Some (Throw e', s')
                /\ events_file s' = events_file s
                /\ actualEvents s' = actualEvents s.
Proof.
  intros Hin Hbad.
  destruct (loadSettings_returns s) as (st & s1 & L).
  destruct (loadSettings_keeps s s1 _ L) as [F A].
  destruct (autoDeleteEvents_scan_throws now (autoDelete st) (stored s) [] bad e Hin Hbad)
    as (e' & E).
  exists e', s1. split; [ | split; assumption ].
  unfold autoDeleteEvents. unfold bind at 1. rewrite L.
  unfold bind at 1. rewrite loadEvents_stored. rewrite (stored_eq s s1 F).
  rewrite E. reflexivity.
Qed.

(** X8.  When a stored record fails validation, [deleteEvent],
    [getActualEvents] and [getWeekListOfEvents] throw, and the stored
    collection and the derived view are left as they were. *)
Theorem invalid_record_blocks (fuel : nat) (now : Z) (date v : JsVal)
        (s : Service) (bad : Entry) (e : JsError) :
  In bad (stored s) -> checkEventFields bad = Throw e ->
  (exists e', deleteEvent fuel now v s = Some (Throw e', s))
  /\ (exists e' s', getActualEvents fuel now s = Some (Throw e', s')
                    /\ events_file s' = events_file s
                    /\ actualEvents s' = actualEvents s)
  /\ (exists e' s', getWeekListOfEvents fuel now date s = Some (Throw e', s')
                    /\ events_file s' = events_file s
                    /\ actualEvents s' = actualEvents s).
Proof.
  intros Hin Hbad.
  destruct (autoDeleteEvents_invalid now s bad e Hin Hbad) as (e' & s' & E & F & A).
  split; [ apply (deleteEvent_invalid fuel now v s bad e Hin Hbad) | ].
  split; exists e', s'; (split; [ | split; assumption ]).
  - unfold getActualEvents. unfold bind at 1. rewrite E. reflexivity.
  - unfold getWeekListOfEvents. unfold bind at 1. rewrite E. reflexivity.
Qed.

End SweepFacts.

Section ViewFacts.
Context {rt : Runtime}.

Lemma set_actualEvents_same (s : Service) : set_actualEvents (actualEvents s) s = s.
Proof. destruct s; reflexivity. Qed.

(** One turn of the loop of [uploadActualEvents] on a valid record. *)
Lemma uploadActualEvents_step_valid (fuel : nat) (now : Z) (e : Event) (s : Service) :
  valid (EObj e) ->
  uploadActualEvents_step (S fuel) now (EObj e) s
  = if actualEventsFilter now e then
      match addAnglesToEvent now e with
      | Ok e' => Some (Ok tt, set_actualEvents (actualEvents s ++ [e']) s)
      | Throw err => Some (Throw err, s)
      end
    else Some (Ok tt, s).
Proof.
  intros V. unfold uploadActualEvents_step.
  unfold bind at 1. cbn [get_service].
  rewrite repeateRule_appends_nothing.
  unfold bind at 1. cbn [put_service]. rewrite set_actualEvents_same.
  unfold valid in V. rewrite V. cbn [lift_result]. unfold bind at 1. cbn [ret andb].
  destruct (actualEventsFilter now e); [ | reflexivity ].
  destruct (addAnglesToEvent now e) as [e' | err]; reflexivity.
Qed.

Lemma set_actualEvents_twice (l l' : list Event) (s : Service) :
  set_actualEvents l (set_actualEvents l' s) = set_actualEvents l s.
Proof. reflexivity. Qed.

Lemma for_each_view (fuel : nat) (now : Z) (l : list Entry) :
  Forall valid l ->
  (forall e, In (EObj e) l -> actualEventsFilter now e = true ->
             exists ab, calculateEventAngles e now = Ok ab) ->
  forall s,
    for_each (uploadActualEvents_step (S fuel) now) l s
    = Some (Ok tt, set_actualEvents (actualEvents s ++ flat_map (shown now) l) s).
Proof.
  induction 1 as [ | x l Hx _ IH]; intros N s; cbn [for_each flat_map].
  - rewrite app_nil_r, set_actualEvents_same. reflexivity.
  - destruct x as [ | e]; [ discriminate Hx | ].
    unfold bind. rewrite (uploadActualEvents_step_valid fuel now e s Hx).
    cbn [shown].
    destruct (actualEventsFilter now e) eqn:A.
    + destruct (N e (or_introl eq_refl) A) as ([a b] & C).
      unfold addAnglesToEvent. rewrite C.
      rewrite IH by (intros e0 H0; apply N; right; exact H0).
      cbn [actualEvents set_actualEvents]. rewrite set_actualEvents_twice.
      rewrite <- app_assoc. reflexivity.
    + rewrite IH by (intros e0 H0; apply N; right; exact H0). reflexivity.
Qed.

(** X11.  On a collection of valid records [getActualEvents] returns,
    and keeps as the derived view, the records kept by the sweep that
    pass [actualEventsFilter], in their stored order, each with the
    angles [calculateEventAngles] gives it, provided that computation
    throws for none of them.  What the view held before is dropped, and
    a repeating record contributes itself and no occurrence. *)
Theorem getActualEvents_view (fuel : nat) (now : Z) (s s1 : Service) (st : Settings) :
  SettingsService.loadSettings s = Some (Ok st, s1) ->
  Forall valid (stored s) ->
  (forall e, In (EObj e) (stored s) -> actualEventsFilter now e = true ->
             exists ab, calculateEventAngles e now = Ok ab) ->
  let kept := filter (retained now (autoDelete st)) (stored s) in
  exists s',
    getActualEvents (S fuel) now s = Some (Ok (flat_map (shown now) kept), s')
    /\ actualEvents s' = flat_map (shown now) kept
    /\ events_file s' = Some kept.
Proof.
  intros L V N kept.
  exists (set_actualEvents (flat_map (shown now) kept) (set_events_file kept s1)).
  split; [ | split; reflexivity ].
  unfold getActualEvents. unfold bind at 1.
  rewrite (autoDeleteEvents_valid now s s1 st L V). fold kept.
  unfold bind at 1. rewrite uploadActualEvents_loop. rewrite stored_set_events_file.
  rewrite (for_each_view fuel now kept).
  - reflexivity.
  - apply Forall_filter. exact V.
  - intros e Hin. apply N. apply filter_In in Hin. tauto.
Qed.

Lemma calculateEventAngles_error (e : Event) (now : Z) :
  (exists ab, calculateEventAngles e now = Ok ab)
  \/ calculateEventAngles e now = Throw (ReferenceError "EventsManager").
Proof.
  unfold calculateEventAngles.
  destruct (js_lt _ _); [ left; eexists; reflexivity | ].
  destruct (JsNumOps.gt _ _); [ right; reflexivity | left; eexists; reflexivity ].
Qed.

Lemma for_each_throws_all {A} (f : A -> M unit) (l : list A) (bad : A) (err : JsError) :
  (forall a s, In a l ->
     exists r s', f a s = Some (r, s') /\ (r = Ok tt \/ r = Throw err)) ->
  (forall s, exists s', f bad s = Some (Throw err, s')) ->
  In bad l ->
  forall s, exists s', for_each f l s = Some (Throw err, s').
Proof.
  induction l as [ | a l IH]; intros T B Hin s; [ destruct Hin | ].
  cbn [for_each]. unfold bind.
  destruct (T a s (or_introl eq_refl)) as (r & s' & E & R).
  destruct R as [-> | ->].
  - destruct Hin as [-> | Hin].
    + destruct (B s) as (s2 & E2). rewrite E2 in E. discriminate.
    + rewrite E. apply IH; [ | exact B | exact Hin ].
      intros a0 s0 H0. apply T. right. exact H0.
  - rewrite E. exists s'. reflexivity.
Qed.

(** X12.  [getActualEvents] throws a [ReferenceError] when the
    collection, all valid, holds an event that starts between two hours
    before now and ten hours after now and ends more than ten hours
    after now. *)
Theorem getActualEvents_throws (fuel : nat) (now : Z) (s : Service) (e : Event)
        (x y : Z) :
  - maxTime <= now <= maxTime ->
  Forall valid (stored s) ->
  In (EObj e) (stored s) ->
  new_Date (start e) = Num x -> new_Date (end_ e) = Num y ->
  now - 2 * HOUR_MS <= x <= now + 10 * HOUR_MS ->
  now + 10 * HOUR_MS < y ->
  exists s',
    getActualEvents (S fuel) now s = Some (Throw (ReferenceError "EventsManager"), s').
Proof.
  intros Rn V Hin Hx Hy Bx By.
  destruct (loadSettings_returns s) as (st & s1 & L).
  set (kept := filter (retained now (autoDelete st)) (stored s)).
  assert (Vk : Forall valid kept) by (apply Forall_filter; exact V).
  assert (Hk : In (EObj e) kept).
  { apply filter_In. split; [ exact Hin | ]. cbn [retained]. apply negb_true_iff.
    apply deleteFilter_recent. right. exists y. split; [ exact Hy | time_lia ]. }
  assert (Ve : valid (EObj e)) by (rewrite Forall_forall in V; apply V; exact Hin).
  assert (A : actualEventsFilter now e = true).
  { unfold actualEventsFilter, getTime. rewrite Hx, Hy.
    rewrite !js_ge_dates, !js_le_dates. cbn [JsNumOps.le JsNumOps.sub].
    destruct (Z.le_ge_cases now x) as [C | C].
    - replace (x - now <=? 10 * HOUR_MS) with true by (symmetry; apply Z.leb_le; lia).
      replace (now <=? x) with true by (symmetry; apply Z.leb_le; lia).
      reflexivity.
    - replace (x <=? now) with true by (symmetry; apply Z.leb_le; lia).
      replace (now <=? y) with true by (symmetry; apply Z.leb_le; time_lia).
      rewrite !orb_true_r. reflexivity. }
  destruct (for_each_throws_all (uploadActualEvents_step (S fuel) now) kept (EObj e)
              (ReferenceError "EventsManager")) with
      (s := set_actualEvents [] (set_events_file kept s1)) as (s' & E).
  - intros a s0 Ha. rewrite Forall_forall in Vk. specialize (Vk a Ha).
    destruct a as [ | e0]; [ discriminate Vk | ].
    rewrite (uploadActualEvents_step_valid fuel now e0 s0 Vk).
    destruct (actualEventsFilter now e0);
      [ | eexists; eexists; split; [ reflexivity | left; reflexivity ] ].
    unfold addAnglesToEvent.
    destruct (calculateEventAngles_error e0 now) as [([a b] & C) | C]; rewrite C;
      eexists; eexists; (split; [ reflexivity | ]); [ left | right ]; reflexivity.
  - intros s0. rewrite (uploadActualEvents_step_valid fuel now e s0 Ve). rewrite A.
    unfold addAnglesToEvent.
    rewrite (calculateEventAngles_end_clamp e now x y Rn Hx (proj1 Bx) Hy By).
    eexists. reflexivity.
  - exact Hk.
  - exists s'. unfold getActualEvents. unfold bind at 1.
    rewrite (autoDeleteEvents_valid now s s1 st L V). fold kept.
    unfold bind at 1. rewrite uploadActualEvents_loop, stored_set_events_file.
    rewrite E. reflexivity.
Qed.

End ViewFacts.

(** ** The week list *)

Section WeekListFacts.
Context {rt : Runtime}.

Lemma loose_eq_str_VStr (r s : string) : loose_eq_str (VStr r) s = String.eqb r s.
Proof. reflexivity. Qed.

(** One turn of the loop of [getWeekListOfEvents] on a valid record. *)
Lemma getWeekListOfEvents_step_valid (fuel : nat) (week : Period) (en : Entry)
      (resultList : list Event) :
  valid en ->
  getWeekListOfEvents_step (S fuel) week en resultList
  = Some (Ok (resultList ++ listed week en)).
Proof.
  intros V. destruct (valid_object en V) as (e & d & r & -> & _ & _ & R & _).
  unfold getWeekListOfEvents_step, listed. cbn [repeat set_checkRepeat start].
  rewrite R. cbn [loose_eq_str ToPrimitive_default strict_eq].
  destruct (String.eqb r "never") eqn:E; cbn [negb andb].
  - apply String.eqb_eq in E. subst r.
    cbn [ToBoolean]. rewrite andb_true_r. unfold new_Event.
    destruct (js_ge _ _); [ reflexivity | rewrite app_nil_r; reflexivity ].
  - rewrite repeateRule_appends_nothing. rewrite app_nil_r. reflexivity.
Qed.

Lemma getWeekListOfEvents_scan_valid (fuel : nat) (week : Period) (l : list Entry) :
  Forall valid l ->
  forall resultList,
    getWeekListOfEvents_scan (S fuel) week l resultList
    = Some (Ok (resultList ++ flat_map (listed week) l)).
Proof.
  induction 1 as [ | x l Hx _ IH]; intros acc; cbn [getWeekListOfEvents_scan flat_map].
  - rewrite app_nil_r. reflexivity.
  - rewrite (getWeekListOfEvents_step_valid fuel week x acc Hx).
    rewrite IH, <- app_assoc. reflexivity.
Qed.

Lemma getWeekListOfEvents_valid (fuel : nat) (now : Z) (date : JsVal)
      (s s1 : Service) (st : Settings) :
  SettingsService.loadSettings s = Some (Ok st, s1) ->
  Forall valid (stored s) ->
  let kept := filter (retained now (autoDelete st)) (stored s) in
  getWeekListOfEvents (S fuel) now date s
  = Some (Ok (sort_by_start (flat_map (listed (getWeekRange date)) kept)),
          set_events_file kept s1).
Proof.
  intros L V kept. unfold getWeekListOfEvents. unfold bind at 1.
  rewrite (autoDeleteEvents_valid now s s1 st L V). fold kept.
  unfold bind at 1. rewrite loadEvents_stored, stored_set_events_file.
  rewrite (getWeekListOfEvents_scan_valid fuel (getWeekRange date) kept)
    by (apply Forall_filter; exact V).
  reflexivity.
Qed.

(** The sort *)

Lemma sort_insert_perm (x : Event) (l : list Event) :
  Permutation (sort_insert x l) (x :: l).
Proof.
  induction l as [ | y l IH]; cbn [sort_insert]; [ reflexivity | ].
  destruct (before_or_same x y); [ reflexivity | ].
  rewrite IH. apply perm_swap.
Qed.

Lemma sort_by_start_perm (l : list Event) : Permutation (sort_by_start l) l.
Proof.
  unfold sort_by_start. induction l as [ | x l IH]; cbn [fold_right]; [ reflexivity | ].
  rewrite sort_insert_perm. constructor. exact IH.
Qed.

Lemma before_or_same_true (a b : Event) :
  dated a -> dated b -> before_or_same a b = true -> starts_ascend a b.
Proof.
  intros (x & Hx) (y & Hy). unfold before_or_same. rewrite Hx, Hy.
  cbn [JsNumOps.sub]. intros H. apply Z.leb_le in H.
  exists x, y. repeat split; try assumption. lia.
Qed.

Lemma before_or_same_false (a b : Event) :
  dated a -> dated b -> before_or_same a b = false -> starts_ascend b a.
Proof.
  intros (x & Hx) (y & Hy). unfold before_or_same. rewrite Hx, Hy.
  cbn [JsNumOps.sub]. intros H. apply Z.leb_gt in H.
  exists y, x. repeat split; try assumption. lia.
Qed.

Lemma starts_ascend_trans (a b c : Event) :
  starts_ascend a b -> starts_ascend b c -> starts_ascend a c.
Proof.
  intros (x & y & Hx & Hy & L1) (y' & z & Hy' & Hz & L2).
  rewrite Hy in Hy'. injection Hy' as <-.
  exists x, z. repeat split; try assumption. lia.
Qed.

Lemma sort_insert_sorted (x : Event) (l : list Event) :
  dated x -> Forall dated l ->
  StronglySorted starts_ascend l -> StronglySorted starts_ascend (sort_insert x l).
Proof.
  intros Dx Dl S. induction S as [ | y l S IH Hy]; cbn [sort_insert].
  - constructor; constructor.
  - inversion Dl as [ | ? ? Dy Dl' ]; subst.
    destruct (before_or_same x y) eqn:B.
    + apply before_or_same_true in B; try assumption.
      constructor; [ constructor; assumption | ].
      constructor; [ exact B | ].
      eapply Forall_impl; [ | exact Hy ].
      intros c Hc. eapply starts_ascend_trans; eassumption.
    + apply before_or_same_false in B; try assumption.
      constructor; [ apply IH; exact Dl' | ].
      apply Forall_forall. intros c Hc.
      apply (Permutation_in _ (sort_insert_perm x l)) in Hc.
      destruct Hc as [<- | Hc]; [ exact B | ].
      rewrite Forall_forall in Hy. apply Hy. exact Hc.
Qed.

Lemma sort_by_start_sorted (l : list Event) :
  Forall dated l -> StronglySorted starts_ascend (sort_by_start l).
Proof.
  unfold sort_by_start. induction 1 as [ | x l Dx Dl IH]; cbn [fold_right].
  - constructor.
  - apply sort_insert_sorted; [ exact Dx | | exact IH ].
    apply Forall_forall. intros c Hc.
    apply (Permutation_in _ (sort_by_start_perm l)) in Hc.
    rewrite Forall_forall in Dl. apply Dl. exact Hc.
Qed.

Lemma listed_dated (week : Period) (t : JsNum) (l : list Entry) :
  p_start week = VDate t ->
  Forall dated (flat_map (listed week) l).
Proof.
  intros W. apply Forall_forall. intros c Hc. apply in_flat_map in Hc.
  destruct Hc as (en & _ & Hc). destruct en as [ | e]; [ destruct Hc | ].
  cbn [listed] in Hc.
  destruct (strict_eq (repeat e) (VStr "never")); [ | destruct Hc ].
  cbn [andb] in Hc. destruct (js_ge _ _) eqn:G; [ | destruct Hc ].
  destruct Hc as [<- | []]. unfold dated. cbn [start set_checkRepeat].
  rewrite W, js_ge_dates in G.
  destruct (new_Date (start e)) as [ | x]; [ | exists x; reflexivity ].
  destruct t; discriminate G.
Qed.

Lemma getWeekRange_dates (date : JsVal) :
  exists a b, getWeekRange date = mkPeriod (VDate a) (VDate b).
Proof. unfold getWeekRange. eexists; eexists; reflexivity. Qed.

(** X13.  On a collection of valid records [getWeekListOfEvents]
    returns a list sorted by start, ascending, that is a rearrangement
    of the following: the records kept by the sweep that do not repeat
    and start at or after the start of the week of the date, each with
    checkRepeat never.  A repeating record contributes nothing, and the
    end of the week is not applied. *)
Theorem getWeekListOfEvents_lists (fuel : nat) (now : Z) (date : JsVal)
        (s s1 : Service) (st : Settings) :
  SettingsService.loadSettings s = Some (Ok st, s1) ->
  Forall valid (stored s) ->
  let kept := filter (retained now (autoDelete st)) (stored s) in
  exists l s',
    getWeekListOfEvents (S fuel) now date s = Some (Ok l, s')
    /\ events_file s' = Some kept
    /\ Permutation l (flat_map (listed (getWeekRange date)) kept)
    /\ StronglySorted starts_ascend l.
Proof.
  intros L V kept.
  exists (sort_by_start (flat_map (listed (getWeekRange date)) kept)),
         (set_events_file kept s1).
  split; [ apply getWeekListOfEvents_valid; assumption | ].
  split; [ reflexivity | ].
  split; [ apply sort_by_start_perm | ].
  apply sort_by_start_sorted.
  destruct (getWeekRange_dates date) as (a & b & E). rewrite E.
  apply (listed_dated _ a). reflexivity.
Qed.

Lemma listed_invalid_week (en : Entry) (b : JsVal) :
  listed (mkPeriod (VDate NaN) b) en = [].
Proof.
  destruct en as [ | e]; [ reflexivity | ]. cbn [listed p_start].
  rewrite js_ge_dates.
  destruct (strict_eq _ _); [ | reflexivity ]. cbn [andb].
  destruct (new_Date (start e)); reflexivity.
Qed.

(** X14.  For a date that is no valid date both bounds of
    [getWeekRange] are invalid dates, and [getWeekListOfEvents], on a
    collection of valid records, returns the empty list. *)
Theorem getWeekListOfEvents_invalid_date (fuel : nat) (now : Z) (date : JsVal)
        (s : Service) :
  new_Date date = NaN ->
  Forall valid (stored s) ->
  getWeekRange date = mkPeriod (VDate NaN) (VDate NaN)
  /\ exists s', getWeekListOfEvents (S fuel) now date s = Some (Ok [], s').
Proof.
  intros D V.
  assert (W : getWeekRange date = mkPeriod (VDate NaN) (VDate NaN)).
  { unfold getWeekRange. rewrite D. reflexivity. }
  split; [ exact W | ].
  destruct (loadSettings_returns s) as (st & s1 & L).
  eexists. rewrite (getWeekListOfEvents_valid fuel now date s s1 st L V). rewrite W.
  replace (flat_map _ _) with (@nil Event); [ reflexivity | ].
  symmetry. induction (filter _ _) as [ | x l IH]; cbn [flat_map]; [ reflexivity | ].
  rewrite listed_invalid_week. exact IH.
Qed.

(** ** Clearing the history *)

(** X15.  Whenever [clearHistoryOfEvents] returns, on whatever store,
    the stored collection is empty and the settings and the view held
    in memory are as they were.  On the store it leaves,
    [getActualEvents] and [getWeekListOfEvents] come to an end with any
    fuel, and what they give when they return is the empty list. *)
Theorem clearHistoryOfEvents_empties (fuel : nat) (now : Z) (date : JsVal)
        (s s0 : Service) :
  clearHistoryOfEvents s = Some (Ok tt, s0) ->
  events_file s0 = Some []
  /\ settings_file s0 = settings_file s
  /\ actualEvents s0 = actualEvents s
  /\ (exists r s1, getActualEvents fuel now s0 = Some (r, s1)
                   /\ forall l, r = Ok l -> l = [])
  /\ (exists r s1, getWeekListOfEvents fuel now date s0 = Some (r, s1)
                   /\ forall l, r = Ok l -> l = []).
Proof.
  unfold clearHistoryOfEvents.
  destruct (saveEvents [] s) as [[[[] | err] s2] | ] eqn:W; try discriminate.
  intros H. injection H as <-.
  unfold saveEvents in W. injection W as <-.
  split; [ reflexivity | ]. split; [ reflexivity | ]. split; [ reflexivity | ].
  destruct (loadSettings_returns (set_events_file [] s)) as (st & s1 & L).
  destruct (loadSettings_keeps _ _ _ L) as [F _]. cbn [events_file set_events_file] in F.
  assert (A : autoDeleteEvents now (set_events_file [] s)
              = Some (Ok tt, set_events_file [] s1)).
  { unfold autoDeleteEvents. unfold bind at 1. rewrite L.
    unfold bind at 1. rewrite loadEvents_stored. unfold stored. rewrite F.
    reflexivity. }
  split.
  - exists (Ok []). eexists. split.
    + unfold getActualEvents. unfold bind at 1. rewrite A.
      unfold bind at 1. rewrite uploadActualEvents_loop. reflexivity.
    + intros l H. injection H as <-. reflexivity.
  - exists (Ok []). eexists. split.
    + unfold getWeekListOfEvents. unfold bind at 1. rewrite A.
      unfold bind at 1. rewrite loadEvents_stored. reflexivity.
    + intros l H. injection H as <-. reflexivity.
Qed.

End WeekListFacts.

(** ** Counting past, current and future events *)

Section CountFacts.
Context {rt : Runtime}.

Lemma js_gt_now_end (now : Z) (e : Event) :
  js_gt (VDate (Num now)) (VDate (new_Date (end_ e))) = is_past now e.
Proof.
  rewrite js_gt_dates. unfold is_past.
  destruct (new_Date (end_ e)); reflexivity.
Qed.

Lemma is_future_eq (now : Z) (e : Event) :
  is_future now e
  = negb (is_past now e) && JsNumOps.lt (Num now) (new_Date (start e)).
Proof. unfold is_future. destruct (new_Date (start e)); reflexivity. Qed.

Lemma is_current_eq (now : Z) (e : Event) :
  is_current now e = negb (is_past now e) && negb (is_future now e).
Proof. reflexivity. Qed.

Lemma separate_loop_counts (now : Z) (l : list Event) :
  forall p c f : nat,
    separate_loop now (map EObj l) p c f
    = Ok (p + List.length (filter (is_past now) l),
          c + List.length (filter (is_current now) l),
          f + List.length (filter (is_future now) l))%nat.
Proof.
  induction l as [ | e l IH]; intros p c f; cbn [map separate_loop filter].
  - cbn. rewrite !Nat.add_0_r. reflexivity.
  - rewrite js_gt_now_end, js_gt_dates, is_current_eq, is_future_eq.
    destruct (is_past now e), (JsNumOps.lt (Num now) (new_Date (start e)));
      cbn [negb andb List.length]; rewrite IH; triple_eq.
Qed.

Lemma filter_three (now : Z) (l : list Event) :
  (List.length (filter (is_past now) l) + List.length (filter (is_current now) l)
   + List.length (filter (is_future now) l) = List.length l)%nat.
Proof.
  induction l as [ | e l IH]; [ reflexivity | ]. cbn [filter List.length].
  rewrite is_current_eq, is_future_eq.
  destruct (is_past now e), (JsNumOps.lt (Num now) (new_Date (start e)));
    cbn [negb andb List.length]; lia.
Qed.

(** X18.  On a list of events [separateListToPastCurrentFutureEvents]
    returns running totals: [past] is the number of events that ended
    before now, [current] adds to it the events that are neither past
    nor future, and [future] is the length of the list.  An event whose
    end and start are no valid dates is neither past nor future. *)
Theorem separateListToPastCurrentFutureEvents_counts (now : Z) (l : list Event) :
  exists c : Counts,
    separateListToPastCurrentFutureEvents now (map EObj l) = Ok c
    /\ past c = List.length (filter (is_past now) l)
    /\ (current c = past c + List.length (filter (is_current now) l))%nat
    /\ future c = List.length l
    /\ (past c <= current c <= future c)%nat.
Proof.
  unfold separateListToPastCurrentFutureEvents. rewrite separate_loop_counts.
  pose proof (filter_three now l) as T.
  eexists. split; [ reflexivity | ]. cbn [past current future].
  repeat split; lia.
Qed.

End CountFacts.

(** ** Distance from the centre along an axis *)

(** X19.  [convertToCirCoord] is the distance of a coordinate from
    240: it is not negative, it is 0 at 240 only, and two coordinates
    mirrored about 240 have the same. *)
Theorem convertToCirCoord_distance (coordinate : Z) :
  convertToCirCoord coordinate = Z.abs (coordinate - 240)
  /\ 0 <= convertToCirCoord coordinate
  /\ (convertToCirCoord coordinate = 0 <-> coordinate = 240)
  /\ convertToCirCoord (240 + (240 - coordinate)) = convertToCirCoord coordinate.
Proof.
  unfold convertToCirCoord.
  destruct (Z.leb_spec 240 coordinate), (Z.leb_spec 240 (240 + (240 - coordinate)));
    lia.
Qed.

(** ** Half degrees *)

Section DialFacts.

(** The remainder of [n] half degrees by a full turn is [n mod 720]
    half degrees. *)
Lemma half_degrees_rem (n : Z) :
  (0 <= n)%Z ->
  (DegOps.Qrem (inject_Z n * (1 # 2)) 360 == inject_Z (n mod 720) * (1 # 2))%Q.
Proof.
  intros Hn.
  assert (H0 : (0 <= inject_Z n * (1 # 2))%Q).
  { assert (inject_Z 0 <= inject_Z n)%Q by (rewrite <- Zle_Qle; exact Hn).
    change (inject_Z 0) with 0%Q in H. Lqa.lra. }
  destruct (Qrem_360 _ H0) as [[L U] (k & E)].
  rewrite E in L, U. rewrite E.
  assert (Hk : (n mod 720 = n - 720 * k)%Z).
  { assert (A : (inject_Z (720 * k) <= inject_Z n)%Q).
    { rewrite inject_Z_mult. change (inject_Z 720) with 720%Q. Lqa.lra. }
    assert (B : (inject_Z n < inject_Z (720 * k + 720))%Q).
    { rewrite inject_Z_plus, inject_Z_mult. change (inject_Z 720) with 720%Q. Lqa.lra. }
    rewrite <- Zle_Qle in A. rewrite <- Zlt_Qlt in B.
    symmetry. apply (Z.mod_unique n 720 k); lia. }
  rewrite Hk. unfold Zminus. rewrite inject_Z_plus, inject_Z_opp, inject_Z_mult.
  change (inject_Z 720) with 720%Q. Lqa.lra.
Qed.

Lemma half_degrees (n : Z) :
  (0 <= n)%Z ->
  ((if Qle_bool 360 (inject_Z n * (1 # 2))
    then DegOps.Qrem (inject_Z n * (1 # 2)) 360
    else inject_Z n * (1 # 2))
   == inject_Z (n mod 720) * (1 # 2))%Q.
Proof.
  intros Hn. destruct (Qle_bool 360 (inject_Z n * (1 # 2))) eqn:C.
  - apply half_degrees_rem. exact Hn.
  - assert (L : (inject_Z n < inject_Z 720)%Q).
    { change (inject_Z 720) with 720%Q.
      apply Qnot_le_lt. intros H.
      assert (360 <= inject_Z n * (1 # 2))%Q by Lqa.lra.
      apply Qle_bool_iff in H0. congruence. }
    rewrite <- Zlt_Qlt in L. rewrite Z.mod_small by lia. reflexivity.
Qed.

Lemma half_degrees_bounds (n : Z) :
  (0 <= inject_Z (n mod 720) * (1 # 2) < 360)%Q.
Proof.
  pose proof (Z.mod_pos_bound n 720 ltac:(lia)) as [L U].
  rewrite Zle_Qle in L. rewrite Zlt_Qlt in U.
  change (inject_Z 0) with 0%Q in L. change (inject_Z 720) with 720%Q in U.
  split; Lqa.lra.
Qed.

(** X22.  In [calculate.js], [convertTimeToAngle] of a time of day
    that is not negative is half a degree for each of its minutes,
    counted modulo twelve hours: a number in [0, 360), the same for two
    times twelve hours apart. *)
Theorem convertTimeToAngle_half_degrees (time : Calculate.Time) :
  (0 <= minutes time)%Z ->
  (Calculate.convertTimeToAngle time == inject_Z (minutes time mod 720) * (1 # 2))%Q
  /\ (0 <= Calculate.convertTimeToAngle time < 360)%Q
  /\ (Calculate.convertTimeToAngle
        (Calculate.mkTime (Calculate.h time + 12) (Calculate.m time))
      == Calculate.convertTimeToAngle time)%Q.
Proof.
  intros H.
  assert (E : (Calculate.convertTimeToAngle time
               == inject_Z (minutes time mod 720) * (1 # 2))%Q)
    by exact (half_degrees (minutes time) H).
  split; [ exact E | ]. split.
  - rewrite E. apply half_degrees_bounds.
  - assert (H' : (0 <= minutes (Calculate.mkTime (Calculate.h time + 12)
                                                 (Calculate.m time)))%Z)
      by (unfold minutes in *; cbn [Calculate.h Calculate.m]; lia).
    assert (E' := half_degrees _ H').
    change (Calculate.convertTimeToAngle
              (Calculate.mkTime (Calculate.h time + 12) (Calculate.m time))
            == inject_Z (minutes (Calculate.mkTime (Calculate.h time + 12)
                                                   (Calculate.m time)) mod 720)
               * (1 # 2))%Q in E'.
    rewrite E', E.
    replace (minutes (Calculate.mkTime (Calculate.h time + 12) (Calculate.m time)))
      with (minutes time + 1 * 720)%Z
      by (unfold minutes; cbn [Calculate.h Calculate.m]; lia).
    rewrite Z_mod_plus_full. reflexivity.
Qed.

(** X23.  The sector that [calculateAngles] gives an event ends at
    the angle of its end and spans half a degree for each minute from
    its start to its end, counted modulo twelve hours. *)
Theorem calculateAngles_span (event : Calculate.DialEvent) :
  (0 <= minutes (Calculate.start event))%Z ->
  (0 <= minutes (Calculate.end_ event))%Z ->
  let a := Calculate.calculateAngles event in
  (Calculate.endAngle a
   == inject_Z (minutes (Calculate.end_ event) mod 720) * (1 # 2))%Q
  /\ (Calculate.endAngle a - Calculate.startAngle a
      == inject_Z ((minutes (Calculate.end_ event) - minutes (Calculate.start event))
                   mod 720) * (1 # 2))%Q.
Proof.
  intros Hs He a.
  assert (S : (Calculate.convertTimeToAngle (Calculate.start event)
               == inject_Z (minutes (Calculate.start event) mod 720) * (1 # 2))%Q)
    by exact (half_degrees (minutes (Calculate.start event)) Hs).
  assert (E : (Calculate.convertTimeToAngle (Calculate.end_ event)
               == inject_Z (minutes (Calculate.end_ event) mod 720) * (1 # 2))%Q)
    by exact (half_degrees (minutes (Calculate.end_ event)) He).
  split; [ exact E | ].
  unfold a, Calculate.calculateAngles. cbn [Calculate.startAngle Calculate.endAngle].
  set (ms := minutes (Calculate.start event)) in *.
  set (me := minutes (Calculate.end_ event)) in *.
  pose proof (Z.mod_pos_bound ms 720 ltac:(lia)) as Bs.
  pose proof (Z.mod_pos_bound me 720 ltac:(lia)) as Be.
  unfold DegOps.Qltb.
  destruct (Qle_bool (Calculate.convertTimeToAngle (Calculate.start event))
                     (Calculate.convertTimeToAngle (Calculate.end_ event))) eqn:C;
    cbn [negb].
  - apply Qle_bool_iff in C. rewrite S, E in C.
    assert (L : (inject_Z (ms mod 720) <= inject_Z (me mod 720))%Q) by Lqa.lra.
    rewrite <- Zle_Qle in L.
    assert (M : ((me - ms) mod 720 = me mod 720 - ms mod 720)%Z).
    { rewrite Zminus_mod. apply Z.mod_small. lia. }
    rewrite M, S, E. unfold Zminus. rewrite inject_Z_plus, inject_Z_opp. Lqa.lra.
  - assert (L : (inject_Z (me mod 720) < inject_Z (ms mod 720))%Q).
    { apply Qnot_le_lt. intros H.
      assert (Calculate.convertTimeToAngle (Calculate.start event)
              <= Calculate.convertTimeToAngle (Calculate.end_ event))%Q
        by (rewrite S, E; Lqa.lra).
      apply Qle_bool_iff in H0. congruence. }
    rewrite <- Zlt_Qlt in L.
    assert (M : ((me - ms) mod 720 = me mod 720 - ms mod 720 + 720)%Z).
    { rewrite Zminus_mod. symmetry.
      apply (Z.mod_unique _ 720 (-1)); lia. }
    rewrite M, S, E. unfold Zminus.
    rewrite !inject_Z_plus, inject_Z_opp. change (inject_Z 720) with 720%Q. Lqa.lra.
Qed.

End DialFacts.

Section DateAngleFacts.
Context {rt : Runtime}.

Lemma clock_fields (t : Z) :
  0 <= HourFromTime t < 24 /\ 0 <= MinFromTime t < 60.
Proof.
  unfold HourFromTime, MinFromTime.
  split; apply Z.mod_pos_bound; lia.
Qed.

Lemma convertTimeToAngle_valid (time : JsVal) (t : Z) :
  new_Date time = Num t ->
  exists a : Q,
    convertTimeToAngle time = Some a
    /\ (a == inject_Z ((HourFromTime (LocalTime t) * 60 + MinFromTime (LocalTime t))
                       mod 720) * (1 # 2))%Q
    /\ (0 <= a < 360)%Q.
Proof.
  intros D. unfold convertTimeToAngle. rewrite D. cbn [getHours getMinutes getter].
  destruct (clock_fields (LocalTime t)) as [Hh Hm].
  eexists. split; [ reflexivity | ].
  assert (N : 0 <= HourFromTime (LocalTime t) * 60 + MinFromTime (LocalTime t)) by lia.
  pose proof (half_degrees _ N) as E.
  split; [ exact E | ]. rewrite E. apply half_degrees_bounds.
Qed.

(** X20.  [convertTimeToAngle] of a value that is no valid date is
    [NaN].  Of a valid date it is half a degree for each minute of the
    local time of day, counted modulo twelve hours: a number in
    [0, 360). *)
Theorem convertTimeToAngle_dial (time : JsVal) :
  match new_Date time with
  | NaN => convertTimeToAngle time = None
  | Num t =>
      exists a : Q,
        convertTimeToAngle time = Some a
        /\ (a == inject_Z ((HourFromTime (LocalTime t) * 60 + MinFromTime (LocalTime t))
                           mod 720) * (1 # 2))%Q
        /\ (0 <= a < 360)%Q
  end.
Proof.
  destruct (new_Date time) as [ | t] eqn:D.
  - unfold convertTimeToAngle. rewrite D. reflexivity.
  - apply convertTimeToAngle_valid. exact D.
Qed.

(** X21.  When [calculateEventAngles] returns, the angles it gives
    depend on the dates of the event as follows.  With a start and an
    end that are valid dates, the end angle is in [0, 360), the start
    angle is in [-360, 360), and the start angle is not greater than
    the end angle: on such a pair [isThisEvent] takes the branch
    [startAngle <= endAngle].  With a start that is no valid date the
    start angle is [NaN], with an end that is no valid date the end
    angle is [NaN], the other angle being in [0, 360) when its date
    is valid; [startAngle <= endAngle] is then false, and
    [isThisEvent] takes its other branch. *)
Theorem calculateEventAngles_ordered (e : Event) (now : Z) (sa ea : Deg) :
  calculateEventAngles e now = Ok (sa, ea) ->
  match new_Date (start e), new_Date (end_ e) with
  | Num _, Num _ =>
      exists a b : Q,
        sa = Some a /\ ea = Some b
        /\ (0 <= b < 360)%Q /\ (- (360) <= a < 360)%Q /\ (a <= b)%Q
        /\ DegOps.le sa ea = true
  | NaN, _ =>
      sa = None /\ ea = convertTimeToAngle (end_ e)
      /\ DegOps.le sa ea = false
  | Num _, NaN =>
      (exists a : Q, sa = Some a /\ (0 <= a < 360)%Q)
      /\ ea = None /\ DegOps.le sa ea = false
  end.
Proof.
  unfold calculateEventAngles.
  set (deleteTime := new_Date (VNum (JsNumOps.sub (getTime (new_Date (VNum (Num now))))
                                                  (Num (2 * HOUR_MS))))).
  assert (G : forall d, deleteTime = Num d ->
            exists a1 : Q,
              convertTimeToAngle (VDate deleteTime) = Some a1 /\ (0 <= a1 < 360)%Q).
  { intros d Dd.
    assert (Nd : new_Date (VDate (Num d)) = Num d).
    { unfold deleteTime in Dd. cbn [new_Date ToNumber] in Dd |- *.
      destruct (JsNumOps.sub _ _) as [ | z]; [ discriminate Dd | ].
      cbn [clip] in Dd |- *. pose proof Dd as Dd'. apply TimeClip_Num in Dd'.
      destruct Dd' as [-> _]. exact Dd. }
    rewrite Dd.
    destruct (convertTimeToAngle_valid (VDate (Num d)) d Nd) as (a1 & E1 & _ & R1).
    exists a1. split; assumption. }
  rewrite js_lt_dates.
  destruct (new_Date (start e)) as [ | x] eqn:Hx.
  - (* the start is no date *)
    assert (Ea : convertTimeToAngle (start e) = None)
      by (unfold convertTimeToAngle; rewrite Hx; reflexivity).
    rewrite Ea. cbn [JsNumOps.lt].
    destruct (JsNumOps.gt _ _); [ discriminate | ].
    intros H. injection H as <- <-.
    destruct (convertTimeToAngle (end_ e)); repeat split.
  - destruct (new_Date (end_ e)) as [ | y] eqn:Hy.
    + (* the end is no date *)
      assert (Eb : convertTimeToAngle (end_ e) = None)
        by (unfold convertTimeToAngle; rewrite Hy; reflexivity).
      rewrite Eb.
      destruct (convertTimeToAngle_valid (start e) x Hx) as (a0 & Ea & _ & Ra).
      rewrite Ea.
      destruct (JsNumOps.lt (Num x) deleteTime) eqn:L.
      * destruct deleteTime as [ | d] eqn:Dd; [ discriminate L | ].
        destruct (G d eq_refl) as (a1 & E1 & R1). rewrite E1.
        intros H. injection H as <- <-.
        split; [ exists a1; split; [ reflexivity | exact R1 ] | split; reflexivity ].
      * cbn [getTime JsNumOps.gt JsNumOps.lt].
        intros H. injection H as <- <-.
        split; [ exists a0; split; [ reflexivity | exact Ra ] | split; reflexivity ].
    + (* both are dates *)
      destruct (convertTimeToAngle_valid (start e) x Hx) as (a0 & Ea & _ & Ra).
      destruct (convertTimeToAngle_valid (end_ e) y Hy) as (b & Eb & _ & Rb).
      rewrite Ea, Eb.
      assert (F : forall a1, (0 <= a1 < 360)%Q ->
                Ok (if DegOps.gt (Some a1) (Some b) then DegOps.sub (Some a1) 360
                    else Some a1, Some b) = Ok (sa, ea) ->
                exists a b0 : Q,
                  sa = Some a /\ ea = Some b0
                  /\ (0 <= b0 < 360)%Q /\ (- (360) <= a < 360)%Q /\ (a <= b0)%Q
                  /\ DegOps.le sa ea = true).
      { intros a1 R1 H. injection H as <- <-.
        unfold DegOps.gt, DegOps.lt, DegOps.Qltb, DegOps.sub.
        destruct (Qle_bool a1 b) eqn:C; cbn [negb].
        - exists a1, b. apply Qle_bool_iff in C.
          repeat split; try reflexivity; try Lqa.lra.
          cbn. apply Qle_bool_iff. exact C.
        - exists (a1 - 360)%Q, b.
          repeat split; try reflexivity; try Lqa.lra.
          cbn. apply Qle_bool_iff. Lqa.lra. }
      destruct (JsNumOps.lt (Num x) deleteTime) eqn:L.
      * destruct deleteTime as [ | d] eqn:Dd; [ discriminate L | ].
        destruct (G d eq_refl) as (a1 & E1 & R1). rewrite E1.
        apply F. exact R1.
      * destruct (JsNumOps.gt _ _); [ discriminate | ].
        apply F. exact Ra.
Qed.

End DateAngleFacts.

(** ** The dial page *)

Section PageFacts.

Lemma iterateEvents_canvas (events : list Calculate.DialEvent) :
  forall st : Page.State,
    Page.iterateEvents events st
    = Page.mkState (Page.color st + List.length events)
        (Page.canvas st
         ++ map (fun ec => arc_of (fst ec) (snd ec))
                (combine events (seq (Page.color st) (List.length events)))).
Proof.
  induction events as [ | e events IH]; intros st.
  - destruct st. cbn. rewrite Nat.add_0_r, app_nil_r. reflexivity.
  - cbn [Page.iterateEvents fold_left]. fold (Page.iterateEvents events (Page.drawEvent e st)).
    rewrite IH. cbn [Page.drawEvent Page.color Page.canvas List.length seq combine map fst snd].
    rewrite <- app_assoc. cbn [app]. f_equal. lia.
Qed.

(** X25.  [iterateEvents] draws one arc for each event, in order,
    after the arcs already on the canvas: centred at (240, 240), of
    radius 225, from startAngle - 90 to endAngle - 90 of
    [calculateAngles].  The counter advances by one for each event; the
    arc drawn when it is [c] takes entry [c] of the palette, which has
    eight entries, so that from 8 on the colour is [undefined]. *)
Theorem iterateEvents_draws (events : list Calculate.DialEvent) (st : Page.State) :
  let st' := Page.iterateEvents events st in
  Page.color st' = (Page.color st + List.length events)%nat
  /\ Page.canvas st'
     = Page.canvas st
       ++ map (fun ec => arc_of (fst ec) (snd ec))
              (combine events (seq (Page.color st) (List.length events)))
  /\ (forall c : nat, (c < 8)%nat ->
        exists rgb, nth_error Page.EVENT_COLORS c = Some rgb)
  /\ (forall c : nat, (8 <= c)%nat -> nth_error Page.EVENT_COLORS c = None).
Proof.
  intros st'. unfold st'. rewrite iterateEvents_canvas. cbn [Page.color Page.canvas].
  split; [ reflexivity | ]. split; [ reflexivity | ]. split.
  - intros c Hc.
    destruct (nth_error Page.EVENT_COLORS c) as [rgb | ] eqn:E; [ exists rgb; reflexivity | ].
    apply nth_error_None in E. cbn in E. lia.
  - intros c Hc. apply nth_error_None. cbn. lia.
Qed.

End PageFacts.

(** ** The angle of a tap *)

Section TapFacts.
Local Open Scope R_scope.

Lemma atan2_range (y x : R) : - PI < atan2 y x <= PI.
Proof.
  pose proof PI_RGT_0 as P. pose proof (atan_bound (y / x)) as [L U].
  unfold atan2.
  destruct (Rlt_dec 0 x) as [X | X]; [ lra | ].
  destruct (Rlt_dec x 0) as [X' | X'].
  - pose proof (Rinv_lt_0_compat x X') as I.
    destruct (Rle_dec 0 y) as [Y | Y].
    + assert (Q : y / x <= 0) by (unfold Rdiv; nra).
      assert (A : atan (y / x) <= 0).
      { destruct Q as [Q | Q].
        - left. rewrite <- atan_0. apply atan_increasing. exact Q.
        - rewrite Q, atan_0. lra. }
      lra.
    + assert (Q : 0 < y / x) by (unfold Rdiv; nra).
      assert (A : 0 < atan (y / x)).
      { rewrite <- atan_0. apply atan_increasing. exact Q. }
      lra.
  - destruct (Rlt_dec 0 y); [ lra | ].
    destruct (Rlt_dec y 0); lra.
Qed.

Lemma degrees (t : R) : t * (180 / PI) = t / PI * 180.
Proof. pose proof PI_RGT_0. field. lra. Qed.

Lemma pointAngleOf_range (x y : R) : 0 <= pointAngleOf x y < 360.
Proof.
  pose proof PI_RGT_0 as P.
  pose proof (atan2_range (240 - y) (x - 240)) as [L U].
  unfold pointAngleOf. rewrite degrees.
  set (t := atan2 (240 - y) (x - 240)) in *.
  assert (A : -1 < t / PI <= 1).
  { split.
    - apply Rmult_lt_reg_r with PI; [ exact P | ].
      unfold Rdiv. rewrite Rmult_assoc, Rinv_l by lra. lra.
    - apply Rmult_le_reg_r with PI; [ exact P | ].
      unfold Rdiv. rewrite Rmult_assoc, Rinv_l by lra. lra. }
  unfold Rltb. destruct (Rlt_dec (90 - t / PI * 180) 0); lra.
Qed.

Lemma pointAngleOf_axes (d : R) :
  0 < d ->
  pointAngleOf 240 (240 - d) = 0
  /\ pointAngleOf (240 + d) 240 = 90
  /\ pointAngleOf 240 (240 + d) = 180
  /\ pointAngleOf (240 - d) 240 = 270.
Proof.
  intros Hd. pose proof PI_RGT_0 as P.
  unfold pointAngleOf, atan2, Rltb.
  repeat split.
  - destruct (Rlt_dec 0 (240 - 240)); [ lra | ].
    destruct (Rlt_dec (240 - 240) 0); [ lra | ].
    destruct (Rlt_dec 0 (240 - (240 - d))); [ | lra ].
    replace (90 - PI / 2 * (180 / PI)) with 0 by (field; lra).
    destruct (Rlt_dec 0 0); lra.
  - destruct (Rlt_dec 0 (240 + d - 240)); [ | lra ].
    replace ((240 - 240) / (240 + d - 240)) with 0 by (field; lra).
    rewrite atan_0.
    replace (90 - 0 * (180 / PI)) with 90 by (field; lra).
    destruct (Rlt_dec 90 0); lra.
  - destruct (Rlt_dec 0 (240 - 240)); [ lra | ].
    destruct (Rlt_dec (240 - 240) 0); [ lra | ].
    destruct (Rlt_dec 0 (240 - (240 + d))); [ lra | ].
    destruct (Rlt_dec (240 - (240 + d)) 0); [ | lra ].
    replace (90 - - (PI / 2) * (180 / PI)) with 180 by (field; lra).
    destruct (Rlt_dec 180 0); lra.
  - destruct (Rlt_dec 0 (240 - d - 240)); [ lra | ].
    destruct (Rlt_dec (240 - d - 240) 0); [ | lra ].
    destruct (Rle_dec 0 (240 - 240)); [ | lra ].
    replace ((240 - 240) / (240 - d - 240)) with 0 by (field; lra).
    rewrite atan_0.
    replace (90 - (0 + PI) * (180 / PI)) with (-90) by (field; lra).
    destruct (Rlt_dec (-90) 0); lra.
Qed.

Lemma Rleb_true (a b : R) : Rleb a b = true <-> a <= b.
Proof. unfold Rleb. destruct (Rle_dec a b); split; intros; (discriminate || lra || reflexivity). Qed.

Lemma Rltb_false (a b : R) : Rltb a b = false <-> b <= a.
Proof. unfold Rltb. destruct (Rlt_dec a b); split; intros; (discriminate || lra || reflexivity). Qed.

(** X24.  The angle that [isThisEvent] gives a tap is in [0, 360); it
    is 0 straight above the centre (240, 240), 90 to its right, 180
    below it and 270 to its left.  For an event with angles
    0 <= a <= b a tap hits exactly when it is at most 200 from the
    centre and its angle is between a and b.  An event that has no
    angles is hit nowhere. *)
Theorem isThisEvent_clockwise :
  (forall x y : R, 0 <= pointAngleOf x y < 360)
  /\ (forall d : R, 0 < d ->
        pointAngleOf 240 (240 - d) = 0
        /\ pointAngleOf (240 + d) 240 = 90
        /\ pointAngleOf 240 (240 + d) = 180
        /\ pointAngleOf (240 - d) 240 = 270)
  /\ (forall (x y : R) (e : Event) (a b : Q),
        startAngle e = Some a -> endAngle e = Some b ->
        (0 <= a)%Q -> (a <= b)%Q ->
        (isThisEvent x y e = true <->
         sqrt ((x - 240) ^ 2 + (y - 240) ^ 2) <= 200
         /\ Q2R a <= pointAngleOf x y <= Q2R b))
  /\ (forall (x y : R) (e : Event),
        startAngle e = None -> endAngle e = None -> isThisEvent x y e = false).
Proof.
  split; [ exact pointAngleOf_range | ]. split; [ exact pointAngleOf_axes | ].
  split; [ | intros x y e Sa Sb; unfold isThisEvent, inWrappingSector;
             rewrite Sa, Sb; destruct (Rltb 200 _); reflexivity ].
  intros x y e a b Sa Sb Ha Hab. unfold isThisEvent.
  destruct (Rltb 200 (sqrt ((x - 240) ^ 2 + (y - 240) ^ 2))) eqn:D.
  - split; [ discriminate | ]. intros [H _].
    apply Rltb_false in H. congruence.
  - apply Rltb_false in D. rewrite Sa, Sb. cbn [DegOps.le].
    apply Qle_bool_iff in Hab. rewrite Hab. unfold inPlainSector. rewrite Sa, Sb.
    cbn [DegOps.lt]. unfold DegOps.Qltb.
    apply Qle_bool_iff in Ha. rewrite Ha. cbn [negb andb point_ge point_le].
    rewrite andb_true_iff, !Rleb_true. tauto.
Qed.

(** X26.  For an event whose sector runs through twelve o'clock, with
    angles a < 0 <= b, a tap hits exactly when it is at most 200 from
    the centre and its angle is at most 270 and at most b, or above 270
    and at least a + 360. *)
Theorem isThisEvent_through_twelve (x y : R) (e : Event) (a b : Q) :
  startAngle e = Some a -> endAngle e = Some b ->
  (a < 0)%Q -> (0 <= b)%Q ->
  (isThisEvent x y e = true <->
   sqrt ((x - 240) ^ 2 + (y - 240) ^ 2) <= 200
   /\ (pointAngleOf x y <= 270 /\ pointAngleOf x y <= Q2R b
       \/ 270 < pointAngleOf x y /\ Q2R a + 360 <= pointAngleOf x y)).
Proof.
  intros Sa Sb Ha Hb.
  pose proof (pointAngleOf_range x y) as [P0 P1].
  assert (Ra : Q2R a < 0)
    by (apply Qlt_Rlt in Ha; rewrite RMicromega.Q2R_0 in Ha; exact Ha).
  assert (Rb : 0 <= Q2R b)
    by (apply Qle_Rle in Hb; rewrite RMicromega.Q2R_0 in Hb; exact Hb).
  unfold isThisEvent.
  set (dist := sqrt ((x - 240) ^ 2 + (y - 240) ^ 2)).
  set (p := pointAngleOf x y) in *.
  destruct (Rltb 200 dist) eqn:D.
  - split; [ discriminate | ]. intros [H _].
    apply Rltb_false in H. congruence.
  - apply Rltb_false in D. rewrite Sa, Sb. cbn [DegOps.le].
    assert (Hab : Qle_bool a b = true) by (apply Qle_bool_iff; Lqa.lra).
    rewrite Hab. unfold inPlainSector. rewrite Sa, Sb.
    cbn [DegOps.lt]. unfold DegOps.Qltb.
    assert (N : Qle_bool 0 a = false).
    { apply not_true_is_false. intros C. apply Qle_bool_iff in C. Lqa.lra. }
    rewrite N. cbn [negb andb].
    unfold Rltb. destruct (Rlt_dec 270 p) as [G | G];
      cbn [point_ge point_le]; rewrite andb_true_iff, !Rleb_true;
      clearbody p dist; lra.
Qed.

End TapFacts.

(** ** The service on the sample data *)

(** C1 at a daily event.  The stand-up of 18 November 10:00 repeats
    daily; in a window that ends on 21 November at 23:59:59.999 the
    occurrences of the 19th, 20th and 21st start in time, the third at
    start + 3 * 24h.  [repeateRule] appends none of them. *)
Theorem repeateRule_standup_emits_nothing :
  @repeateRule Hosts.utc 8 Examples.standup Examples.four_days [] = Some []
  /\ @new_Date Hosts.utc (start Examples.standup) = Num 1763460000000
  /\ @new_Date Hosts.utc (p_end Examples.four_days) = Num 1763769599999
  /\ 1763460000000 + 3 * (24 * HOUR_MS) <= 1763769599999.
Proof. repeat split; vm_compute; (reflexivity || discriminate). Qed.

(** C2 at an event after the week.  The week of Tuesday 18 November
    2025 runs from Monday the 17th, 00:00, to Monday the 24th, 00:00.
    The party of 25 December does not repeat and starts after that
    week; [getWeekListOfEvents] lists it. *)
Theorem getWeekListOfEvents_lists_later_event :
  @getWeekListOfEvents Hosts.utc 1 Examples.noon Examples.tuesday Examples.party_store
  = Some (Ok [set_checkRepeat (VStr "never") Examples.party], Examples.party_store)
  /\ @getWeekRange Hosts.utc Examples.tuesday
     = mkPeriod (VDate (Num 1763337600000)) (VDate (Num 1763942400000))
  /\ @new_Date Hosts.utc (start Examples.party) = Num 1766685600000
  /\ 1763942400000 < 1766685600000.
Proof. repeat split; vm_compute; reflexivity. Qed.

(** C3 as stated fails.  At 01:00 an event from 20:00 of the day
    before to 14:00 started more than two hours ago and ends more than
    ten hours ahead.  The angle of now - 2h and the angle of now + 10h
    are both 330; the angles returned are -30 and 60. *)
Lemma calculateEventAngles_not_clamped :
  @new_Date Hosts.utc (start Examples.night_shift) = Num 1763409600000
  /\ 1763409600000 < Examples.one_am - 2 * HOUR_MS
  /\ @new_Date Hosts.utc (end_ Examples.night_shift) = Num 1763474400000
  /\ Examples.one_am + 10 * HOUR_MS < 1763474400000
  /\ @convertTimeToAngle Hosts.utc (VDate (Num (Examples.one_am - 2 * HOUR_MS)))
     = Some (660 # 2)%Q
  /\ @convertTimeToAngle Hosts.utc (VDate (Num (Examples.one_am + 10 * HOUR_MS)))
     = Some (660 # 2)%Q
  /\ @calculateEventAngles Hosts.utc Examples.night_shift Examples.one_am
     = Ok (Some (-60 # 2)%Q, Some (120 # 2)%Q)
  /\ ~ (-60 # 2 == 660 # 2)%Q
  /\ ~ (120 # 2 == 660 # 2)%Q.
Proof.
  repeat split; try (vm_compute; reflexivity); intros C; discriminate C.
Qed.

(** An event that starts now and ends thirteen hours later: the branch
    that would clamp the end angle throws. *)
Lemma calculateEventAngles_end_clamp_throws :
  @calculateEventAngles Hosts.utc Examples.long_day Examples.one_am
  = Throw (ReferenceError "EventsManager").
Proof. vm_compute. reflexivity. Qed.

(** C4 at a store with a blank description.  Editing the lunch, which
    is stored before the invalid record, throws the validation error of
    that record and writes nothing: the store is as it was. *)
Theorem editEvent_stops_at_invalid_entry :
  @editEvent Hosts.utc 1 Examples.noon Examples.lunch_moved Examples.lunch_store
  = Some (Throw (Error "Invalid description: must be a non-empty string"),
          Examples.lunch_store).
Proof. vm_compute. reflexivity. Qed.

(** C5 as stated fails.  An event created with the identifier
    [my-id] into an empty store is stored under [my-id]: no identifier
    is generated. *)
Lemma createNewEvent_keeps_supplied_id :
  exists r,
    @createNewEvent Hosts.utc 1 Examples.noon Examples.counter_ids
      (EObj Examples.dentist) Examples.empty_store
    = Some (r, mkService (Some [EObj Examples.dentist]) None [])
    /\ id Examples.dentist = VStr "my-id".
Proof. eexists. split; vm_compute; reflexivity. Qed.

(** C6 at a year below 100.  The tithe is a record that passes
    validation, repeats monthly and starts on 31 January of the year
    50, which is no leap year: the next occurrence is due on 28
    February of the year 50.  The step that
    [getMsToSameDateInNextMonth] returns, which is the step of
    [getRepeatTimeMs], leads from its start to 28 February 1950,
    [new Date(year, month, day)] reading the year 50 as 1950.  The
    census starts on 31 January of the year 0, a leap year, and is due
    on 29 February of that year: its step leads to 28 February 1900. *)
Theorem getMsToSameDateInNextMonth_two_digit_year :
  (@checkEventFields Hosts.utc (EObj Examples.tithe) = Ok true
   /\ @new_Date Hosts.utc (start Examples.tithe) = Num (-60586669800000)
   /\ @getFullYear Hosts.utc (Num (-60586669800000)) = Num 50
   /\ @getMonth Hosts.utc (Num (-60586669800000)) = Num 0
   /\ @getDate Hosts.utc (Num (-60586669800000)) = Num 31
   /\ isLeap 50 = false
   /\ @getMsToSameDateInNextMonth Hosts.utc Examples.tithe = Num 59960529000000
   /\ @getRepeatTimeMs Hosts.utc Examples.tithe = Num 59960529000000
   /\ @getFullYear Hosts.utc (Num (-60586669800000 + 59960529000000)) = Num 1950
   /\ @getMonth Hosts.utc (Num (-60586669800000 + 59960529000000)) = Num 1
   /\ @getDate Hosts.utc (Num (-60586669800000 + 59960529000000)) = Num 28)
  /\ (@checkEventFields Hosts.utc (EObj Examples.census) = Ok true
      /\ @new_Date Hosts.utc (start Examples.census) = Num (-62164593000000)
      /\ @getFullYear Hosts.utc (Num (-62164593000000)) = Num 0
      /\ @getMonth Hosts.utc (Num (-62164593000000)) = Num 0
      /\ @getDate Hosts.utc (Num (-62164593000000)) = Num 31
      /\ isLeap 0 = true
      /\ @getMsToSameDateInNextMonth Hosts.utc Examples.census = Num 59960615400000
      /\ @getRepeatTimeMs Hosts.utc Examples.census = Num 59960615400000
      /\ @getFullYear Hosts.utc (Num (-62164593000000 + 59960615400000)) = Num 1900
      /\ @getMonth Hosts.utc (Num (-62164593000000 + 59960615400000)) = Num 1
      /\ @getDate Hosts.utc (Num (-62164593000000 + 59960615400000)) = Num 28).
Proof. repeat split; vm_compute; reflexivity. Qed.

(** On a device three hours east of Greenwich the same week starts
    three hours earlier. *)
Example getWeekRange_three_hours_east :
  @getWeekRange Hosts.msk Examples.tuesday
  = mkPeriod (VDate (Num (1763337600000 - 3 * HOUR_MS)))
             (VDate (Num (1763942400000 - 3 * HOUR_MS))).
Proof. vm_compute. reflexivity. Qed.

(** White space is what [trim] strips: a description that is a
    no-break space is blank, and the same character around digits does
    not keep them from being a number. *)
Example checkEventFields_no_break_space :
  @checkEventFields Hosts.utc (EObj Examples.unnamed)
  = Throw (Error "Invalid description: must be a non-empty string")
  /\ Text.StringToNumber
       (Examples.no_break_space ++ "12" ++ Examples.no_break_space)%string
     = Num 12.
Proof. split; vm_compute; reflexivity. Qed.

(** ** Instances of the theorems that have hypotheses *)

Lemma calculateEventAngles_start_clamp_witness :
  @new_Date Hosts.utc (start Examples.night_shift) = Num 1763409600000
  /\ exists endA : Deg,
       @calculateEventAngles Hosts.utc Examples.night_shift Examples.one_am
       = Ok (if DegOps.gt (@convertTimeToAngle Hosts.utc
                             (VDate (Num (Examples.one_am - 2 * HOUR_MS)))) endA
             then DegOps.sub (@convertTimeToAngle Hosts.utc
                                (VDate (Num (Examples.one_am - 2 * HOUR_MS)))) 360
             else @convertTimeToAngle Hosts.utc
                    (VDate (Num (Examples.one_am - 2 * HOUR_MS))),
             endA).
Proof.
  split; [ vm_compute; reflexivity | ].
  apply (@calculateEventAngles_start_clamp Hosts.utc Examples.night_shift
           Examples.one_am 1763409600000).
  - unfold maxTime, Examples.one_am. lia.
  - vm_compute. reflexivity.
  - unfold HOUR_MS, Examples.one_am. lia.
Defined.

Lemma createNewEvent_id_witness :
  exists r s',
    @createNewEvent Hosts.utc 3 Examples.noon Examples.counter_ids
      (EObj Examples.dentist) Examples.dentist_store = Some (r, s')
    /\ events_file s'
       = Some [EObj Examples.dentist; EObj Examples.taken;
               EObj (set_id (VStr "id1") Examples.dentist)].
Proof.
  destruct (@createNewEvent_id Hosts.utc 3 Examples.noon Examples.counter_ids
              Examples.dentist Examples.dentist_store 2)
    as (r & s' & E & F & _).
  - vm_compute; reflexivity.
  - intros j Hj. destruct j as [ | [ | j ] ]; [ reflexivity | reflexivity | lia ].
  - vm_compute; reflexivity.
  - lia.
  - exists r, s'. split; [ exact E | exact F ].
Defined.

Lemma getMsToSameDateInNextMonth_jan31_witness :
  @new_Date Hosts.utc (start Examples.rent) = Num 1706693400000
  /\ exists d : Z,
       @getMsToSameDateInNextMonth Hosts.utc Examples.rent = Num d
       /\ @getFullYear Hosts.utc (Num (1706693400000 + d)) = Num 2024
       /\ @getMonth Hosts.utc (Num (1706693400000 + d)) = Num 1
       /\ @getDate Hosts.utc (Num (1706693400000 + d))
          = Num (if isLeap 2024 then 29 else 28).
Proof.
  split; [ vm_compute; reflexivity | ].
  apply (@getMsToSameDateInNextMonth_jan31 Hosts.utc Examples.rent
           1706693400000 2024).
  - vm_compute; reflexivity.
  - vm_compute; reflexivity.
  - right. lia.
  - vm_compute; reflexivity.
  - vm_compute; reflexivity.
Defined.

Lemma deleteFilter_spec_witness :
  @checkEventFields Hosts.utc (EObj Examples.finished) = Ok true
  /\ @deleteFilter Hosts.utc Examples.noon Examples.finished (VStr "day") = true.
Proof.
  assert (V : @checkEventFields Hosts.utc (EObj Examples.finished) = Ok true)
    by (vm_compute; reflexivity).
  split; [ exact V | ].
  apply (proj1 (@deleteFilter_spec Hosts.utc Examples.noon Examples.finished
                  (VStr "day") V)).
  split; [ reflexivity | ].
  exists (24 * HOUR_MS). split; [ reflexivity | ].
  exists 1763380799999. split; [ vm_compute; reflexivity | ].
  unfold HOUR_MS, Examples.noon. lia.
Defined.

Lemma isThisEvent_outside_radius_witness :
  isThisEvent 500 240 Examples.night_shift = false.
Proof.
  apply (isThisEvent_outside_radius 500 240 Examples.night_shift).
  replace ((500 - 240) ^ 2 + (240 - 240) ^ 2)%R with (260 * 260)%R by ring.
  rewrite sqrt_square by lra. lra.
Defined.

Lemma calculateAngles_range_witness :
  (0 <= Calculate.endAngle (Calculate.calculateAngles Examples.tea) < 360)%Q
  /\ (- (360) <= Calculate.startAngle (Calculate.calculateAngles Examples.tea) < 360)%Q
  /\ (Calculate.startAngle (Calculate.calculateAngles Examples.tea)
      <= Calculate.endAngle (Calculate.calculateAngles Examples.tea))%Q.
Proof.
  destruct (calculateAngles_range Examples.tea) as (A & B & C & _).
  - cbn. lia.
  - cbn. lia.
  - cbn. lia.
  - cbn. lia.
  - exact (conj A (conj B C)).
Defined.

(** ** Instances of the properties of the rest of the code *)

Lemma loadSettings_returns_valid_witness :
  SettingsService.loadSettings Examples.party_store
  = Some (Ok Examples.keep_all, Examples.party_store)
  /\ (SettingsService.validateSettings (Some defaultSettings) = Ok tt
      /\ settings_file (set_settings_file defaultSettings Examples.odd_settings)
         = Some defaultSettings
      /\ events_file (set_settings_file defaultSettings Examples.odd_settings)
         = events_file Examples.odd_settings
      /\ actualEvents (set_settings_file defaultSettings Examples.odd_settings)
         = actualEvents Examples.odd_settings
      /\ defaultSettings = defaultSettings
      /\ SettingsService.saveSettings defaultSettings Examples.odd_settings
         = Some (Ok tt, set_settings_file defaultSettings Examples.odd_settings)).
Proof.
  split.
  - apply (proj1 (loadSettings_returns_valid Examples.party_store)
             Examples.keep_all); reflexivity.
  - apply (proj2 (loadSettings_returns_valid Examples.odd_settings)
             defaultSettings
             (set_settings_file defaultSettings Examples.odd_settings)).
    reflexivity.
Defined.

Lemma saveSettings_then_loadSettings_witness :
  exists s',
    SettingsService.saveSettings Examples.purge_daily Examples.empty_store
    = Some (Ok tt, s')
    /\ SettingsService.loadSettings s' = Some (Ok Examples.purge_daily, s').
Proof.
  destruct (saveSettings_then_loadSettings Examples.purge_daily Examples.empty_store)
    as (s' & E & L & _).
  - reflexivity.
  - exists s'. split; [ exact E | exact L ].
Defined.

Lemma createNewEvent_appends_witness :
  @createNewEvent Hosts.utc 1 Examples.noon Examples.counter_ids
    (EObj Examples.dentist) Examples.empty_store
  = Some (Ok tt, mkService (Some [EObj Examples.dentist]) None [])
  /\ (stored (mkService (Some [EObj Examples.dentist]) None [])
      = stored Examples.empty_store
      \/ exists e v,
           EObj Examples.dentist = EObj e
           /\ stored (mkService (Some [EObj Examples.dentist]) None [])
              = stored Examples.empty_store ++ [EObj (set_id v e)]).
Proof.
  assert (E : @createNewEvent Hosts.utc 1 Examples.noon Examples.counter_ids
                (EObj Examples.dentist) Examples.empty_store
              = Some (Ok tt, mkService (Some [EObj Examples.dentist]) None []))
    by (vm_compute; reflexivity).
  split; [ exact E | ].
  exact (proj1 (@createNewEvent_appends Hosts.utc 1 Examples.noon Examples.counter_ids
                  (EObj Examples.dentist) Examples.empty_store
                  (mkService (Some [EObj Examples.dentist]) None []) (Ok tt) E)).
Defined.


Lemma editEvent_replaces_witness :
  exists r s',
    @editEvent Hosts.utc 1 Examples.noon Examples.lunch_moved Examples.agenda
    = Some (r, s')
    /\ events_file s'
       = Some [EObj Examples.lunch_moved; EObj Examples.standup; EObj Examples.party].
Proof.
  destruct (@editEvent_replaces Hosts.utc 0 Examples.noon Examples.lunch_moved
              Examples.agenda) as (r & s' & E & F & _).
  - repeat constructor.
  - exists r, s'. split; [ exact E | exact F ].
Defined.

Lemma editEvent_stores_unvalidated_witness :
  exists e' s',
    @editEvent Hosts.utc 1 Examples.noon Examples.lunch_blank Examples.lunch_only
    = Some (Throw e', s')
    /\ events_file s' = Some [EObj Examples.lunch_blank].
Proof.
  destruct (@editEvent_stores_unvalidated Hosts.utc 0 Examples.noon
              Examples.lunch_blank Examples.lunch Examples.lunch_only
              (Error "Invalid description: must be a non-empty string"))
    as (e' & s' & E & F & _).
  - repeat constructor.
  - left. reflexivity.
  - reflexivity.
  - reflexivity.
  - exists e', s'. split; [ exact E | exact F ].
Defined.

Lemma invalid_record_blocks_witness :
  exists e',
    @deleteEvent Hosts.utc 1 Examples.noon (VStr "e6") Examples.lunch_store
    = Some (Throw e', Examples.lunch_store).
Proof.
  apply (@invalid_record_blocks Hosts.utc 1 Examples.noon Examples.tuesday (VStr "e6")
           Examples.lunch_store (EObj Examples.blank)
           (Error "Invalid description: must be a non-empty string")).
  - right. left. reflexivity.
  - reflexivity.
Defined.

Lemma autoDeleteEvents_sweeps_witness :
  @autoDeleteEvents Hosts.utc Examples.noon Examples.archive
  = Some (Ok tt,
          set_events_file
            (filter (@retained Hosts.utc Examples.noon
                       (autoDelete Examples.purge_daily))
                    (stored Examples.archive))
            Examples.archive).
Proof.
  apply (@autoDeleteEvents_sweeps Hosts.utc Examples.noon Examples.archive
           Examples.archive Examples.purge_daily).
  - reflexivity.
  - repeat constructor.
Defined.

Lemma autoDeleteEvents_spares_witness :
  exists st s',
    @autoDeleteEvents Hosts.utc Examples.noon Examples.archive = Some (Ok tt, s')
    /\ settings_file s' = Some st
    /\ stored s'
       = filter (@retained Hosts.utc Examples.noon (autoDelete st))
                (stored Examples.archive).
Proof.
  destruct (@autoDeleteEvents_spares Hosts.utc Examples.noon Examples.archive)
    as (st & s' & E & F & I & _).
  - repeat constructor.
  - exists st, s'. split; [ exact E | split; [ exact F | exact I ] ].
Defined.

Lemma getActualEvents_view_witness :
  exists s',
    @getActualEvents Hosts.utc 1 Examples.noon Examples.agenda
    = Some (Ok (flat_map (@shown Hosts.utc Examples.noon)
                  (filter (@retained Hosts.utc Examples.noon
                             (autoDelete Examples.keep_all))
                          (stored Examples.agenda))), s').
Proof.
  destruct (@getActualEvents_view Hosts.utc 0 Examples.noon Examples.agenda
              Examples.agenda Examples.keep_all) as (s' & E & _).
  - reflexivity.
  - repeat constructor.
  - intros e [H | [H | [H | []]]]; injection H as <-; intros A;
      try (vm_compute in A; discriminate A);
      eexists; vm_compute; reflexivity.
  - exists s'. exact E.
Defined.

Lemma getActualEvents_throws_witness :
  exists s',
    @getActualEvents Hosts.utc 1 Examples.one_am Examples.long_day_store
    = Some (Throw (ReferenceError "EventsManager"), s').
Proof.
  apply (@getActualEvents_throws Hosts.utc 0 Examples.one_am Examples.long_day_store
           Examples.long_day 1763427600000 1763474400000).
  - unfold maxTime, Examples.one_am. lia.
  - repeat constructor.
  - right. left. reflexivity.
  - vm_compute. reflexivity.
  - vm_compute. reflexivity.
  - unfold HOUR_MS, Examples.one_am. lia.
  - unfold HOUR_MS, Examples.one_am. lia.
Defined.

Lemma getWeekListOfEvents_lists_witness :
  exists l s',
    @getWeekListOfEvents Hosts.utc 1 Examples.noon Examples.tuesday Examples.agenda
    = Some (Ok l, s')
    /\ StronglySorted (@starts_ascend Hosts.utc) l.
Proof.
  destruct (@getWeekListOfEvents_lists Hosts.utc 0 Examples.noon Examples.tuesday
              Examples.agenda Examples.agenda Examples.keep_all)
    as (l & s' & E & _ & _ & S).
  - reflexivity.
  - repeat constructor.
  - exists l, s'. split; [ exact E | exact S ].
Defined.

Lemma getWeekListOfEvents_invalid_date_witness :
  exists s',
    @getWeekListOfEvents Hosts.utc 1 Examples.noon (VStr "next week") Examples.agenda
    = Some (Ok [], s').
Proof.
  apply (@getWeekListOfEvents_invalid_date Hosts.utc 0 Examples.noon
           (VStr "next week") Examples.agenda).
  - reflexivity.
  - repeat constructor.
Defined.

Lemma getWeekRange_week_witness :
  exists monday : Z,
    @getWeekRange Hosts.utc Examples.tuesday
    = mkPeriod (VDate (Num monday)) (VDate (Num (monday + 7 * msPerDay)))
    /\ @getDay Hosts.utc (Num monday) = Num 1
    /\ TimeWithinDay (@LocalTime Hosts.utc monday) = 0
    /\ monday <= Examples.noon < monday + 7 * msPerDay.
Proof.
  apply (@getWeekRange_week Hosts.utc Examples.tuesday Examples.noon).
  - vm_compute. reflexivity.
  - unfold maxTime, msPerDay, Examples.noon. lia.
Defined.

Lemma getMsToSameDateInNextMonth_lands_witness :
  exists delta : Z,
    @getMsToSameDateInNextMonth Hosts.utc Examples.fireworks = Num delta
    /\ @getFullYear Hosts.utc (Num (1767211200000 + delta)) = Num 2026
    /\ @getMonth Hosts.utc (Num (1767211200000 + delta)) = Num 0
    /\ @getDate Hosts.utc (Num (1767211200000 + delta)) = Num 31
    /\ TimeWithinDay (@LocalTime Hosts.utc (1767211200000 + delta)) = 0.
Proof.
  apply (@getMsToSameDateInNextMonth_lands Hosts.utc Examples.fireworks
           1767211200000 2025 11 31).
  - vm_compute. reflexivity.
  - vm_compute. reflexivity.
  - vm_compute. reflexivity.
  - vm_compute. reflexivity.
  - right. cbn. lia.
  - unfold maxTime, msPerDay. lia.
Defined.

Lemma clearHistoryOfEvents_empties_witness :
  events_file (set_events_file [] Examples.lunch_store) = Some []
  /\ settings_file (set_events_file [] Examples.lunch_store)
     = settings_file Examples.lunch_store
  /\ actualEvents (set_events_file [] Examples.lunch_store)
     = actualEvents Examples.lunch_store
  /\ (exists r s1,
        @getActualEvents Hosts.utc 1 Examples.noon
          (set_events_file [] Examples.lunch_store) = Some (r, s1)
        /\ forall l, r = Ok l -> l = [])
  /\ (exists r s1,
        @getWeekListOfEvents Hosts.utc 1 Examples.noon Examples.tuesday
          (set_events_file [] Examples.lunch_store) = Some (r, s1)
        /\ forall l, r = Ok l -> l = []).
Proof.
  apply (@clearHistoryOfEvents_empties Hosts.utc 1 Examples.noon Examples.tuesday
           Examples.lunch_store (set_events_file [] Examples.lunch_store)).
  reflexivity.
Defined.

Lemma calculateEventAngles_ordered_witness :
  (exists a b : Q,
     Some (-60 # 2)%Q = Some a /\ Some (120 # 2)%Q = Some b
     /\ (0 <= b < 360)%Q /\ (- (360) <= a < 360)%Q /\ (a <= b)%Q
     /\ DegOps.le (Some (-60 # 2)%Q) (Some (120 # 2)%Q) = true)
  /\ ((exists a : Q, Some (60 # 2)%Q = Some a /\ (0 <= a < 360)%Q)
      /\ @None Q = None /\ DegOps.le (Some (60 # 2)%Q) None = false).
Proof.
  split.
  - apply (@calculateEventAngles_ordered Hosts.utc Examples.night_shift
             Examples.one_am (Some (-60 # 2)%Q) (Some (120 # 2)%Q)).
    vm_compute. reflexivity.
  - apply (@calculateEventAngles_ordered Hosts.utc Examples.call
             Examples.noon (Some (60 # 2)%Q) None).
    vm_compute. reflexivity.
Defined.

Lemma convertTimeToAngle_half_degrees_witness :
  (Calculate.convertTimeToAngle (Calculate.mkTime 23 30)
   == inject_Z (minutes (Calculate.mkTime 23 30) mod 720) * (1 # 2))%Q
  /\ (0 <= Calculate.convertTimeToAngle (Calculate.mkTime 23 30) < 360)%Q.
Proof.
  destruct (convertTimeToAngle_half_degrees (Calculate.mkTime 23 30)) as (E & B & _).
  - unfold minutes. cbn. lia.
  - exact (conj E B).
Defined.

Lemma calculateAngles_span_witness :
  (Calculate.endAngle (Calculate.calculateAngles Examples.tea)
   == inject_Z (minutes (Calculate.end_ Examples.tea) mod 720) * (1 # 2))%Q
  /\ (Calculate.endAngle (Calculate.calculateAngles Examples.tea)
      - Calculate.startAngle (Calculate.calculateAngles Examples.tea)
      == inject_Z ((minutes (Calculate.end_ Examples.tea)
                    - minutes (Calculate.start Examples.tea)) mod 720) * (1 # 2))%Q.
Proof.
  apply (calculateAngles_span Examples.tea).
  - unfold minutes. cbn. lia.
  - unfold minutes. cbn. lia.
Defined.

Lemma isThisEvent_through_twelve_witness :
  isThisEvent 240 140 Examples.night_sector = true <->
  (sqrt ((240 - 240) ^ 2 + (140 - 240) ^ 2) <= 200
   /\ (pointAngleOf 240 140 <= 270 /\ pointAngleOf 240 140 <= Q2R (120 # 2)
       \/ 270 < pointAngleOf 240 140
          /\ Q2R (-60 # 2) + 360 <= pointAngleOf 240 140))%R.
Proof.
  apply (isThisEvent_through_twelve 240 140 Examples.night_sector (-60 # 2) (120 # 2)).
  - reflexivity.
  - reflexivity.
  - reflexivity.
  - discriminate.
Defined.

Lemma createNewEvent_then_deleteEvent_witness :
  exists r1 s1 r2 s2,
    @createNewEvent Hosts.utc 3 Examples.noon Examples.counter_ids
      (EObj Examples.dentist) Examples.dentist_store = Some (r1, s1)
    /\ In (EObj (set_id (VStr "id1") Examples.dentist)) (stored s1)
    /\ @deleteEvent Hosts.utc 3 Examples.noon (VStr "id1") s1 = Some (r2, s2)
    /\ stored s2 = stored Examples.dentist_store.
Proof.
  apply (@createNewEvent_then_deleteEvent Hosts.utc 3 Examples.noon
           Examples.counter_ids Examples.dentist Examples.dentist_store 2).
  - repeat constructor.
  - reflexivity.
  - intros j Hj. destruct j as [ | [ | j ] ]; [ reflexivity | reflexivity | lia ].
  - reflexivity.
  - lia.
  - reflexivity.
Defined.
